(** * functorch dispatch rules for [custom_function_call]

    A shallow embedding of [torch/_functorch/autograd_function.py]: the
    [custom_function_call] operator, its Grad/Jvp, Vmap and Functionalize
    rules and the two identity-preservation helpers.

    Python objects live in a heap indexed by their [id]; two references are
    the same object exactly when they are equal.  Code runs in a monad that
    threads the process-wide state (heap, interpreter stack, flags), may
    raise, and records the calls made to the wrap/unwrap collaborators.

    The last part embeds the text generator of
    [torchgen/executorch/api/custom_ops.py]: the kernel stub of a native
    function and the registration blocks, one for each namespace. *)

From stdpp Require Import gmap strings list fin_maps.
From Stdlib Require Import ZArith.


(* ===================================================================== *)
(** ** Python objects *)
(* ===================================================================== *)

(** [id(x)]: the identity of a Python object. *)
Definition ref := positive.

(** What an object is.  A plain tensor carries some contents; a
    [TensorWrapper] (grad/jvp layer) and a [BatchedTensor] (vmap layer) wrap
    another tensor object at a level; everything else is not a Tensor. *)
Inductive pyobj : Type :=
| PlainTensor (data : Z)
| TensorWrapper (value : ref) (lvl : Z)
| BatchedTensor (value : ref) (bdim : Z) (lvl : Z)
| FunctionCtx
| NonTensor (payload : Z).

(** Modelled from the spec: the enumeration [TransformType] of the transform
    interpreter stack, which is not among the sources; the four kinds the
    rules are registered for. *)
Inductive TransformType : Type := Grad | Jvp | Vmap | Functionalize.

(** Modelled from the spec: an interpreter of the transform interpreter
    stack, which is not among the sources: its kind, its level and, for
    Vmap, its batch size. *)
Module Interpreter.
Record t : Type := Build { key : TransformType; level : Z; batch_size : Z }.
End Interpreter.

(** The named tuple [VmapInfo]. *)
Record VmapInfo : Type := { batch_size : Z }.

Inductive exn : Type :=
| RuntimeError (msg : string)
| AssertionError
| ValueError (msg : string)
| TypeError (msg : string)
| UserException (code : Z).

(* ===================================================================== *)
(** ** Process-wide state *)
(* ===================================================================== *)

Record world : Type := World {
  heap : gmap ref pyobj;
  (** the transform interpreter stack, current interpreter first *)
  interpreter_stack : list Interpreter.t;
  (** the flag behind [enable_autograd_function] *)
  autograd_function_allowed : bool;
  (** [torch.is_grad_enabled()] *)
  grad_enabled : bool;
  (** forward-mode gradient recording *)
  fwd_grad_enabled : bool
}.

Definition set_heap (h : gmap ref pyobj) (w : world) : world :=
  World h (interpreter_stack w) (autograd_function_allowed w)
        (grad_enabled w) (fwd_grad_enabled w).

Definition set_interpreter_stack (st : list Interpreter.t) (w : world) : world :=
  World (heap w) st (autograd_function_allowed w)
        (grad_enabled w) (fwd_grad_enabled w).

Definition set_autograd_function_allowed (b : bool) (w : world) : world :=
  World (heap w) (interpreter_stack w) b (grad_enabled w) (fwd_grad_enabled w).

Definition set_grad_enabled (b : bool) (w : world) : world :=
  World (heap w) (interpreter_stack w) (autograd_function_allowed w)
        b (fwd_grad_enabled w).

Definition set_fwd_grad_enabled (b : bool) (w : world) : world :=
  World (heap w) (interpreter_stack w) (autograd_function_allowed w)
        (grad_enabled w) b.

(** [isinstance(x, torch.Tensor)] *)
Definition isinstance_Tensor (w : world) (x : ref) : bool :=
  match heap w !! x with
  | Some (PlainTensor _) | Some (TensorWrapper _ _) | Some (BatchedTensor _ _ _) => true
  | Some FunctionCtx | Some (NonTensor _) | None => false
  end.

(* ===================================================================== *)
(** ** Observable calls *)
(* ===================================================================== *)

Inductive capability : Type :=
  CapApply | CapSetupContext | CapBackward | CapJvp | CapVmap.

(** The calls the rules make to their collaborators, in program order. *)
Inductive event : Type :=
| EvRule (k : TransformType) (lvl : Z)
| EvUnwrapForGrad (x : ref) (lvl : Z)
| EvWrapForGrad (x : ref) (lvl : Z)
| EvUnwrapBatched (x : ref) (lvl : Z)
| EvAddBatchDim (x : ref) (bdim : Z) (lvl : Z)
| EvCapability (c : capability) (name : string).

(* ===================================================================== *)
(** ** The monad of the rules *)
(* ===================================================================== *)

Inductive outcome (A : Type) : Type :=
| Ok (a : A)
| Raise (e : exn)
| OutOfDepth.
Arguments Ok {A} a.
Arguments Raise {A} e.
Arguments OutOfDepth {A}.

Record result (A : Type) : Type := Res {
  outcome_of : outcome A;
  world_of : world;
  events_of : list event
}.
Arguments Res {A} _ _ _.
Arguments outcome_of {A} _.
Arguments world_of {A} _.
Arguments events_of {A} _.

Definition M (A : Type) : Type := world -> result A.

Definition ret {A} (a : A) : M A := fun w => Res (Ok a) w [].

Definition raise {A} (e : exn) : M A := fun w => Res (Raise e) w [].

Definition out_of_depth {A} : M A := fun w => Res OutOfDepth w [].

Definition tell (evs : list event) : M unit := fun w => Res (Ok tt) w evs.

Definition bind {A B} (m : M A) (k : A -> M B) : M B := fun w =>
  match m w with
  | Res (Ok a) w1 e1 =>
      match k a w1 with
      | Res o w2 e2 => Res o w2 (e1 ++ e2)
      end
  | Res (Raise x) w1 e1 => Res (Raise x) w1 e1
  | Res OutOfDepth w1 e1 => Res OutOfDepth w1 e1
  end.

Declare Scope py_scope.
Delimit Scope py_scope with py.
Notation "'let*' x ':=' c 'in' k" := (bind c (fun x => k))
  (at level 10, x pattern, c at level 100, k at level 200) : py_scope.
Notation "c ';;' k" := (bind c (fun _ => k))
  (at level 100, k at level 200, right associativity) : py_scope.
Open Scope py_scope.

(** The loop [result = []; for x in xs: result.append(f(x))]. *)
Fixpoint mapM {A B} (f : A -> M B) (xs : list A) : M (list B) :=
  match xs with
  | [] => ret []
  | x :: xs' => let* y := f x in let* ys := mapM f xs' in ret (y :: ys)
  end.

(** User code: it may change the state and may raise, but it is opaque to
    the rules, and it always comes back. *)
Definition user (A : Type) : Type := world -> (A + exn) * world.

Definition lift {A} (u : user A) : M A := fun w =>
  match u w with
  | (inl a, w') => Res (Ok a) w' []
  | (inr e, w') => Res (Raise e) w' []
  end.

(** A context manager: [__enter__] yields what [__exit__] needs. *)
Record contextmanager (T : Type) : Type := ContextManager {
  cm_enter : world -> (T + exn) * world;
  cm_exit : T -> world -> world
}.
Arguments ContextManager {T} _ _.
Arguments cm_enter {T} _ _.
Arguments cm_exit {T} _ _ _.

(** [with cm: body].  [__exit__] runs when the body returns and when it
    raises; the exception, if any, propagates afterwards. *)
Definition with_ {T A} (cm : contextmanager T) (body : M A) : M A := fun w =>
  match cm_enter cm w with
  | (inr e, w1) => Res (Raise e) w1 []
  | (inl t, w1) =>
      match body w1 with
      | Res (Ok a) w2 e2 => Res (Ok a) (cm_exit cm t w2) e2
      | Res (Raise x) w2 e2 => Res (Raise x) (cm_exit cm t w2) e2
      | Res OutOfDepth w2 e2 => Res OutOfDepth w2 e2
      end
  end.

(* ===================================================================== *)
(** ** The structural tree walker ([torch.utils._pytree]) *)
(* ===================================================================== *)

Module pytree.

(** The containers the walker opens; anything else is a leaf. *)
Inductive container : Type :=
| KTuple
| KList
| KDict (keys : list string).

#[warnings="-register-all"]
Inductive tree (A : Type) : Type :=
| Leaf (a : A)
| Node (k : container) (children : list (tree A)).
Arguments Leaf {A} a.
Arguments Node {A} k children.

(** A [TreeSpec] is a tree whose leaves carry nothing. *)
Definition TreeSpec : Type := tree unit.
Definition LeafSpec : TreeSpec := Leaf tt.

Fixpoint leaves {A} (t : tree A) : list A :=
  match t with
  | Leaf a => [a]
  | Node _ ts => concat (map leaves ts)
  end.

Fixpoint spec_of {A} (t : tree A) : TreeSpec :=
  match t with
  | Leaf _ => LeafSpec
  | Node k ts => Node k (map spec_of ts)
  end.

Definition num_leaves (spec : TreeSpec) : nat := length (leaves spec).

(** Modelled from the spec: [tree_flatten] of the structural tree walker,
    which is not among the sources; it returns the ordered leaves and the
    reconstruction descriptor. *)
Definition tree_flatten {A} (t : tree A) : list A * TreeSpec :=
  (leaves t, spec_of t).

(** Rebuild a tree from the front of a list of leaves; what is left over
    is returned as well. *)
Fixpoint rebuild {A} (spec : TreeSpec) (vals : list A) : option (tree A * list A) :=
  match spec with
  | Leaf _ =>
      match vals with
      | a :: rest => Some (Leaf a, rest)
      | [] => None
      end
  | Node k specs =>
      match
        (fix go (specs : list TreeSpec) (vals : list A) : option (list (tree A) * list A) :=
           match specs with
           | [] => Some ([], vals)
           | sp :: specs' =>
               match rebuild sp vals with
               | Some (t, rest) =>
                   match go specs' rest with
                   | Some (ts, rest') => Some (t :: ts, rest')
                   | None => None
                   end
               | None => None
               end
           end) specs vals
      with
      | Some (ts, rest) => Some (Node k ts, rest)
      | None => None
      end
  end.

Fixpoint rebuild_list {A} (specs : list TreeSpec) (vals : list A)
  : option (list (tree A) * list A) :=
  match specs with
  | [] => Some ([], vals)
  | sp :: specs' =>
      match rebuild sp vals with
      | Some (t, rest) =>
          match rebuild_list specs' rest with
          | Some (ts, rest') => Some (t :: ts, rest')
          | None => None
          end
      | None => None
      end
  end.

(** Modelled from the spec: [tree_unflatten] of the structural tree
    walker, which is not among the sources; it fails when the number of
    leaves does not fit the descriptor. *)
Definition tree_unflatten {A} (vals : list A) (spec : TreeSpec) : M (tree A) :=
  match rebuild spec vals with
  | Some (t, []) => ret t
  | _ => raise (ValueError "tree_unflatten: wrong number of leaves")
  end.

(** Modelled from the spec: [tree_all(pred, tree)], every leaf satisfies
    the predicate. *)
Definition tree_all {A} (pred : A -> bool) (t : tree A) : bool :=
  forallb pred (leaves t).

(** Modelled from the spec: [tree_map_only(torch.Tensor, fn, tree)]:
    flatten, apply [fn] to the leaves that are Tensors, in order, and
    unflatten. *)
Definition tree_map_only_Tensor (fn : ref -> M ref) (t : tree ref) : M (tree ref) :=
  let '(flat_args, spec) := tree_flatten t in
  let* mapped :=
    mapM (fun x => fun w => if isinstance_Tensor w x then fn x w else ret x w) flat_args in
  tree_unflatten mapped spec.

End pytree.

Abbreviation pytree := (pytree.tree ref).
Abbreviation Leaf := pytree.Leaf.
Abbreviation Node := pytree.Node.
Abbreviation KTuple := pytree.KTuple.
Abbreviation KList := pytree.KList.

(** The argument tuple [*operands] as the tree the walker sees. *)
Definition args_tuple {A} (operands : list (pytree.tree A)) : pytree.tree A :=
Node KTuple operands.

(* ===================================================================== *)
(** ** Wrapping and unwrapping tensors *)
(* ===================================================================== *)

(** A new object: its identity is one no live object has. *)
Definition alloc (o : pyobj) : M ref := fun w =>
  let r := fresh (dom (heap w)) in
  Res (Ok r) (set_heap (<[r := o]> (heap w)) w) [].

(** What [_unwrap_for_grad] returns: a wrapper of this level gives the
    object it wraps; anything else is returned as it is. *)
Definition unwrapped_for_grad (w : world) (x : ref) (level : Z) : ref :=
  match heap w !! x with
  | Some (TensorWrapper v l) => if (l =? level)%Z then v else x
  | _ => x
  end.

(** Modelled from the spec: [_unwrap_for_grad(value, level)] of the
    wrap/unwrap collaborator, which is not among the sources. *)
Definition _unwrap_for_grad (x : ref) (level : Z) : M ref := fun w =>
  Res (Ok (unwrapped_for_grad w x level)) w [EvUnwrapForGrad x level].

(** Modelled from the spec: [_wrap_for_grad(value, level)] of the
    wrap/unwrap collaborator, which is not among the sources.  The wrapper
    is a new object. *)
Definition _wrap_for_grad (x : ref) (level : Z) : M ref :=
  tell [EvWrapForGrad x level];; alloc (TensorWrapper x level).

(** What [_unwrap_batched] returns: the underlying object and its batch
    dimension, or the object itself and [None] when it is not batched at
    this level. *)
Definition unwrapped_batched (w : world) (x : ref) (level : Z) : ref * option Z :=
  match heap w !! x with
  | Some (BatchedTensor v d l) => if (l =? level)%Z then (v, Some d) else (x, None)
  | _ => (x, None)
  end.

(** Modelled from the spec: [_unwrap_batched(value, level)] of the
    wrap/unwrap collaborator, which is not among the sources. *)
Definition _unwrap_batched (x : ref) (level : Z) : M (ref * option Z) := fun w =>
  Res (Ok (unwrapped_batched w x level)) w [EvUnwrapBatched x level].

(** Modelled from the spec: [_add_batch_dim(value, dim, level)], the
    batching primitive behind [create_batched]; it is not among the
    sources.  The batched tensor is a new object; only a Tensor can be
    batched. *)
Definition _add_batch_dim (x : ref) (bdim : Z) (level : Z) : M ref := fun w =>
  if isinstance_Tensor w x
  then (tell [EvAddBatchDim x bdim level];; alloc (BatchedTensor x bdim level)) w
  else raise (TypeError "_add_batch_dim(): argument must be Tensor") w.

(** Modelled from the spec: [_create_batched_inputs(batch_dims, values,
    level, spec)] of the wrap/unwrap collaborator, which is not among the
    sources.  A value whose dimension is [None] is kept as it is. *)
Definition _create_batched_inputs (flat_in_dims : list (option Z)) (flat_args : list ref)
    (vmap_level : Z) (args_spec : pytree.TreeSpec) : M pytree :=
  let* batched :=
    mapM (fun p : option Z * ref =>
            match p.1 with
            | None => ret p.2
            | Some in_dim => _add_batch_dim p.2 in_dim vmap_level
            end)
         (zip flat_in_dims flat_args) in
  pytree.tree_unflatten batched args_spec.

#[global] Instance container_eq_dec : EqDecision pytree.container.
Proof. solve_decision. Defined.

(** Modelled from the spec: [_broadcast_to_and_flatten(tree, spec)] of the
    structural tree walker, which is not among the sources.  A leaf is
    repeated for every leaf of the descriptor; a container must have the
    descriptor's type, context and number of children; [None] when the tree
    does not fit. *)
Fixpoint _broadcast_to_and_flatten {A} (t : pytree.tree A) (spec : pytree.TreeSpec)
  : option (list A) :=
  match t with
  | pytree.Leaf a => Some (replicate (pytree.num_leaves spec) a)
  | pytree.Node k ts =>
      match spec with
      | pytree.Leaf _ => None
      | pytree.Node k' specs =>
          if bool_decide (k = k') && (length ts =? length specs)%nat then
            (fix go (ts : list (pytree.tree A)) (specs : list pytree.TreeSpec)
               : option (list A) :=
               match ts, specs with
               | t' :: ts', sp :: specs' =>
                   match _broadcast_to_and_flatten t' sp with
                   | Some flat =>
                       match go ts' specs' with
                       | Some r => Some (flat ++ r)
                       | None => None
                       end
                   | None => None
                   end
               | _, _ => Some []
               end) ts specs
          else None
      end
  end.

(* ===================================================================== *)
(** ** Scoped state *)
(* ===================================================================== *)

(** Modelled from the spec: [torch.enable_grad()], not among the sources:
    reverse-mode recording is on inside and is put back on exit. *)
Definition enable_grad : contextmanager bool :=
  ContextManager (fun w => (inl (grad_enabled w), set_grad_enabled true w))
                 (fun prev w => set_grad_enabled prev w).

(** Modelled from the spec: [_enable_fwd_grad()], not among the sources:
    forward-mode recording is on inside and is put back on exit. *)
Definition _enable_fwd_grad : contextmanager bool :=
  ContextManager (fun w => (inl (fwd_grad_enabled w), set_fwd_grad_enabled true w))
                 (fun prev w => set_fwd_grad_enabled prev w).

(** Modelled from the spec: [enable_autograd_function()], not among the
    sources: the flag that allows a single-level node to be built is set
    inside and restored on exit regardless of outcome. *)
Definition enable_autograd_function : contextmanager bool :=
  ContextManager
    (fun w => (inl (autograd_function_allowed w), set_autograd_function_allowed true w))
    (fun prev w => set_autograd_function_allowed prev w).

(** Modelled from the spec: [interpreter.lower()] of the transform
    interpreter stack, not among the sources: the current interpreter is
    taken off the stack, so that the enclosed code sees the next one, and is
    put back on exit. *)
Definition lower (interpreter : Interpreter.t) : contextmanager Interpreter.t :=
  ContextManager
    (fun w => match interpreter_stack w with
              | top :: rest => (inl top, set_interpreter_stack rest w)
              | [] => (inr (RuntimeError "lower: no interpreter is active"), w)
              end)
    (fun saved w => set_interpreter_stack (saved :: interpreter_stack w) w).

(** Modelled from the spec: the scope in which [_SingleLevelFunction.apply]
    runs the node, with reverse-mode recording off. *)
Definition no_grad : contextmanager bool :=
  ContextManager (fun w => (inl (grad_enabled w), set_grad_enabled false w))
                 (fun prev w => set_grad_enabled prev w).

(** Modelled from the spec: the same for forward-mode recording. *)
Definition no_fwd_grad : contextmanager bool :=
  ContextManager (fun w => (inl (fwd_grad_enabled w), set_fwd_grad_enabled false w))
                 (fun prev w => set_fwd_grad_enabled prev w).

(** Modelled from the spec: [torch._C._are_functorch_transforms_active()],
    not among the sources: some interpreter is on the stack. *)
Definition _are_functorch_transforms_active (w : world) : bool :=
  match interpreter_stack w with
  | [] => false
  | _ :: _ => true
  end.

(* ===================================================================== *)
(** ** Function descriptors *)
(* ===================================================================== *)

Abbreviation dims := (pytree.tree (option Z)).

(** An [autograd.Function]: its name and its capabilities.  [vmap] is the
    only one whose presence is tested ([hasattr]). *)
Module Function.
Record t : Type := Build {
  __name__ : string;
  apply : list pytree -> user pytree;
  setup_context : ref -> pytree -> list pytree -> user unit;
  backward : ref -> list pytree -> user pytree;
  jvp : ref -> list pytree -> user pytree;
  vmap : option (VmapInfo -> dims -> list pytree -> user (pytree * dims))
}.
End Function.

(** Calling a capability of the descriptor. *)
Definition invoke {A} (c : capability) (f : Function.t) (u : user A) : M A :=
  tell [EvCapability c (Function.__name__ f)];; lift u.

(** A [_SingleLevelFunction] subclass: its four static methods. *)
Module SingleLevelFunction.
Record t : Type := Build {
  forward : list pytree -> M pytree;
  setup_context : ref -> pytree -> list pytree -> M unit;
  backward : ref -> list pytree -> M pytree;
  jvp : ref -> list pytree -> M pytree
}.

(** Modelled from the spec: [_SingleLevelFunction.apply], the node's public
    apply entry, which is not among the sources.  A fresh context object is
    made for the call; with both kinds of gradient recording turned off,
    [forward] runs on the operands, then [setup_context]; the outputs of
    [forward] are returned. *)
Definition apply (cls : t) (operands : list pytree) : M pytree :=
  let* ctx := alloc FunctionCtx in
  with_ no_grad (with_ no_fwd_grad (
    let* outputs := forward cls operands in
    setup_context cls ctx outputs operands;;
    ret outputs)).
End SingleLevelFunction.

(** [*t]: the elements of an argument tuple. *)
Definition star {A} (t : pytree.tree A) : list (pytree.tree A) :=
  match t with
  | pytree.Node _ ts => ts
  | pytree.Leaf a => [pytree.Leaf a]
  end.

(** A dict comprehension [{k: v for k, v in pairs}]: later pairs overwrite
    earlier ones. *)
Definition dict_comprehension (pairs : list (ref * ref)) : gmap ref ref :=
  foldl (fun d kv => <[kv.1 := kv.2]> d) ∅ pairs.

(* ===================================================================== *)
(** ** The identity-preservation helper of the Grad/Jvp rule *)
(* ===================================================================== *)

(** The body of the loop over the flat outputs. *)
Definition wrap_output (unwrapped_input_to_orig_input : gmap ref ref) (level : Z)
    (output : ref) : M ref := fun w =>
  if negb (isinstance_Tensor w output) then ret output w
  else match unwrapped_input_to_orig_input !! output with
       | Some orig => ret orig w
       | None => _wrap_for_grad output level w
       end.

Definition wrap_outputs_maintaining_identity (outputs unwrapped_inputs orig_inputs : pytree)
    (level : Z) : M pytree :=
  let '(flat_unwrapped_inputs, _) := pytree.tree_flatten unwrapped_inputs in
  let '(flat_orig_inputs, _) := pytree.tree_flatten orig_inputs in
  let unwrapped_input_to_orig_input :=
    dict_comprehension (zip flat_unwrapped_inputs flat_orig_inputs) in
  let '(flat_outputs, spec) := pytree.tree_flatten outputs in
  let* result := mapM (wrap_output unwrapped_input_to_orig_input level) flat_outputs in
  pytree.tree_unflatten result spec.

(* ===================================================================== *)
(** ** Helpers of the Vmap rule *)
(* ===================================================================== *)

Definition unwrap_batched (args : pytree) (level : Z) : M (pytree * dims) :=
  let '(flat_args, spec) := pytree.tree_flatten args in
  if (length flat_args =? 0)%nat then ret (args, Node KTuple [])
  else
    let* result :=
      mapM (fun arg => fun w =>
              if isinstance_Tensor w arg then _unwrap_batched arg level w
              else ret (arg, None) w)
           flat_args in
    let output := map fst result in
    let bdims := map snd result in
    let* unwrapped := pytree.tree_unflatten output spec in
    let* in_dims := pytree.tree_unflatten bdims spec in
    ret (unwrapped, in_dims).

Definition wrap_batched (args : pytree) (bdims : dims) (level : Z) : M pytree :=
  let '(flat_args, spec) := pytree.tree_flatten args in
  match _broadcast_to_and_flatten bdims spec with
  | None => raise AssertionError
  | Some flat_bdims => _create_batched_inputs flat_bdims flat_args level spec
  end.

(** The body of the loop over the outputs paired with the unwrapped
    outputs. *)
Definition preserve_output (unwrapped_input_to_input : gmap ref ref)
    (p : ref * ref) : M ref := fun w =>
  let '(output, unwrapped_output) := p in
  if negb (isinstance_Tensor w output) then ret output w
  else match unwrapped_input_to_input !! unwrapped_output with
       | Some inp => ret inp w
       | None => ret output w
       end.

Definition preserve_object_identity (outputs inputs unwrapped_outputs unwrapped_inputs : pytree)
  : M pytree :=
  let '(flat_outputs, _) := pytree.tree_flatten outputs in
  let '(flat_unwrapped_inputs, _) := pytree.tree_flatten unwrapped_inputs in
  let '(flat_inputs, _) := pytree.tree_flatten inputs in
  let unwrapped_input_to_input :=
    dict_comprehension (zip flat_unwrapped_inputs flat_inputs) in
  let '(flat_unwrapped_outputs, spec) := pytree.tree_flatten unwrapped_outputs in
  let* result :=
    mapM (preserve_output unwrapped_input_to_input)
         (zip flat_outputs flat_unwrapped_outputs) in
  pytree.tree_unflatten result spec.

(* ===================================================================== *)
(** ** The dispatch rules *)
(* ===================================================================== *)

Section Rules.

(** The operator the rules redispatch to: [custom_function_call] itself. *)
Variable custom_function_call : Function.t -> list pytree -> M pytree.

(** The class [Generated] that the Grad/Jvp rule builds for one call. *)
Definition Generated (interpreter : Interpreter.t) (autograd_function : Function.t)
  : SingleLevelFunction.t :=
  let maybe_interpreter := interpreter in
  let level := Interpreter.level maybe_interpreter in
  SingleLevelFunction.Build
    (fun operands =>
       let* unwrapped_operands :=
         pytree.tree_map_only_Tensor (fun x => _unwrap_for_grad x level)
                                     (args_tuple operands) in
       let* output :=
         with_ enable_grad (with_ _enable_fwd_grad (with_ (lower maybe_interpreter)
           (custom_function_call autograd_function (star unwrapped_operands)))) in
       wrap_outputs_maintaining_identity output unwrapped_operands
                                         (args_tuple operands) level)
    (fun ctx outputs operands =>
       invoke CapSetupContext autograd_function
              (Function.setup_context autograd_function ctx outputs operands))
    (fun ctx grads =>
       invoke CapBackward autograd_function
              (Function.backward autograd_function ctx grads))
    (fun ctx tangents =>
       invoke CapJvp autograd_function
              (Function.jvp autograd_function ctx tangents)).

Definition custom_function_call_grad (interpreter : Interpreter.t)
    (autograd_function : Function.t) (operands : list pytree) : M pytree :=
  with_ enable_autograd_function
    (SingleLevelFunction.apply (Generated interpreter autograd_function) operands).

Definition vmap_missing_message (autograd_function : Function.t) : string :=
  "You tried to vmap over " +:+ Function.__name__ autograd_function +:+
  ", but it does not have a vmap rule defined. Please add a vmap staticmethod to it.".

Definition custom_function_call_vmap (interpreter : Interpreter.t)
    (autograd_function : Function.t) (operands : list pytree) : M pytree :=
  match Function.vmap autograd_function with
  | None => raise (RuntimeError (vmap_missing_message autograd_function))
  | Some vmap =>
      let current_level := Interpreter.level interpreter in
      let info := {| batch_size := Interpreter.batch_size interpreter |} in
      let* unwrapped := unwrap_batched (args_tuple operands) current_level in
      let '(unwrapped_operands, in_dims) := unwrapped in
      if pytree.tree_all (fun dim : option Z => bool_decide (dim = None)) in_dims then
        with_ (lower interpreter) (custom_function_call autograd_function operands)
      else
        let* returned :=
          with_ (lower interpreter)
                (invoke CapVmap autograd_function
                        (vmap info in_dims (star unwrapped_operands))) in
        let '(unwrapped_output, out_dims) := returned in
        let* output := wrap_batched unwrapped_output out_dims current_level in
        preserve_object_identity output (args_tuple operands)
                                 unwrapped_output unwrapped_operands
  end.

Definition custom_function_call_functionalize (interpreter : Interpreter.t)
    (autograd_function : Function.t) (operands : list pytree) : M pytree :=
  raise (RuntimeError "NYI: Functionalize rule for custom_function_call").

(** The table that the [py_impl] decorators fill. *)
Definition functorch_table (k : TransformType)
  : Interpreter.t -> Function.t -> list pytree -> M pytree :=
  match k with
  | Grad => custom_function_call_grad
  | Jvp => custom_function_call_grad
  | Vmap => custom_function_call_vmap
  | Functionalize => custom_function_call_functionalize
  end.

(** Modelled from the spec: [PyOperator.__call__] under an active
    transform, which is not among the sources: the current interpreter is
    resolved, the rule of its kind is taken from the table and is called
    with the interpreter, the descriptor and the operands. *)
Definition PyOperator_call (autograd_function : Function.t) (operands : list pytree)
  : M pytree := fun w =>
  match interpreter_stack w with
  | interpreter :: _ =>
      (tell [EvRule (Interpreter.key interpreter) (Interpreter.level interpreter)];;
       functorch_table (Interpreter.key interpreter) interpreter
                       autograd_function operands) w
  | [] => raise (RuntimeError "no functorch interpreter is active") w
  end.

End Rules.

(** [CustomFunctionPyOperator.__call__].  The recursion of the rules into
    the operator is bounded by [depth], the depth of the Python call stack
    still available. *)
Fixpoint custom_function_call (depth : nat) (autograd_function : Function.t)
    (operands : list pytree) : M pytree :=
  match depth with
  | O => out_of_depth
  | S n => fun w =>
      if _are_functorch_transforms_active w
      then PyOperator_call (custom_function_call n) autograd_function operands w
      else invoke CapApply autograd_function
                  (Function.apply autograd_function operands) w
  end.

(* ===================================================================== *)
(** ** Vocabulary of the statements *)
(* ===================================================================== *)

(** The value paired with the last occurrence of a key in a list of pairs. *)
Fixpoint last_paired (pairs : list (ref * ref)) (k : ref) : option ref :=
  match pairs with
  | [] => None
  | kv :: rest =>
      match last_paired rest k with
      | Some v => Some v
      | None => if decide (kv.1 = k) then Some kv.2 else None
      end
  end.

(** Every object a tree mentions is live. *)
Definition live (w : world) (t : pytree) : Prop :=
  Forall (fun x => is_Some (heap w !! x)) (pytree.leaves t).

(** What the loop of [wrap_outputs_maintaining_identity] makes of one
    output, between the worlds [w] and [w']. *)
Definition rewrapped (d : gmap ref ref) (level : Z) (w w' : world) (x y : ref) : Prop :=
  if isinstance_Tensor w x then
    match d !! x with
    | Some orig => y = orig
    | None => heap w !! y = None /\ heap w' !! y = Some (TensorWrapper x level)
    end
  else y = x.

(** The world [w'] differs from [w] only by objects made since. *)
Definition grown (w w' : world) : Prop :=
  heap w ⊆ heap w' /\
  interpreter_stack w' = interpreter_stack w /\
  autograd_function_allowed w' = autograd_function_allowed w /\
  grad_enabled w' = grad_enabled w /\
  fwd_grad_enabled w' = fwd_grad_enabled w.

(** The Tensors among the leaves of the operands, in order. *)
Definition tensor_leaves (w : world) (t : pytree) : list ref :=
  filter (fun x => isinstance_Tensor w x = true) (pytree.leaves t).

(** Kinds of events. *)
Definition is_unwrap_for_grad (level : Z) (e : event) : Prop :=
  exists x, e = EvUnwrapForGrad x level.
Definition is_wrap_for_grad (level : Z) (e : event) : Prop :=
  exists x, e = EvWrapForGrad x level.
Definition is_unwrap_batched (level : Z) (e : event) : Prop :=
  exists x, e = EvUnwrapBatched x level.
Definition is_add_batch_dim (level : Z) (e : event) : Prop :=
  exists x d, e = EvAddBatchDim x d level.
Definition is_capability (e : event) : Prop :=
  exists c name, e = EvCapability c name.

(** User code that leaves the interpreter stack as it found it, whether it
    returns or raises: every transform it enters, it leaves. *)
Definition keeps_stack {A} (u : user A) : Prop :=
  forall w, interpreter_stack (u w).2 = interpreter_stack w.

Definition balanced (f : Function.t) : Prop :=
  (forall operands, keeps_stack (Function.apply f operands)) /\
  (forall ctx outputs operands, keeps_stack (Function.setup_context f ctx outputs operands)) /\
  (forall ctx grads, keeps_stack (Function.backward f ctx grads)) /\
  (forall ctx tangents, keeps_stack (Function.jvp f ctx tangents)) /\
  (forall vmap, Function.vmap f = Some vmap ->
     forall info in_dims operands, keeps_stack (vmap info in_dims operands)).

(** Started with the interpreter stack [s], the computation returns or
    raises, and the stack is [s] again. *)
Definition returns_with_stack (s : list Interpreter.t) {A} (m : M A) : Prop :=
  forall w, interpreter_stack w = s ->
            outcome_of (m w) <> OutOfDepth /\ interpreter_stack (world_of (m w)) = s.

(** A context manager that does not touch the stack. *)
Definition stack_neutral {T} (cm : contextmanager T) : Prop :=
  (forall w, exists t, cm_enter cm w = (inl t, (cm_enter cm w).2) /\
                       interpreter_stack (cm_enter cm w).2 = interpreter_stack w) /\
  (forall t w, interpreter_stack (cm_exit cm t w) = interpreter_stack w).

(** The world in which [Generated.forward] redispatches: both kinds of
    gradient recording on, the current interpreter lowered. *)
Definition forward_scope (w : world) : world :=
  set_interpreter_stack (tail (interpreter_stack w))
    (set_fwd_grad_enabled true (set_grad_enabled true w)).

(** Leaving that scope from the world [w2], having entered it from [w]. *)
Definition forward_unscope (w w2 : world) : world :=
  set_grad_enabled (grad_enabled w)
    (set_fwd_grad_enabled (fwd_grad_enabled w)
       (set_interpreter_stack
          (match interpreter_stack w with
           | top :: _ => top :: interpreter_stack w2
           | [] => interpreter_stack w2
           end) w2)).

(** The identity-preservation step as the specification words it for the
    Vmap rule: the wrapped outputs are compared with the wrapped inputs. *)
Definition preserve_output_comparing_wrapped (inputs : list ref) (output : ref)
  : M ref := fun w =>
  if negb (isinstance_Tensor w output) then ret output w
  else match list_find (fun inp => inp = output) inputs with
       | Some (_, inp) => ret inp w
       | None => ret output w
       end.

Definition preserve_object_identity_comparing_wrapped (outputs inputs : pytree)
  : M pytree :=
  let '(flat_outputs, spec) := pytree.tree_flatten outputs in
  let '(flat_inputs, _) := pytree.tree_flatten inputs in
  let* result := mapM (preserve_output_comparing_wrapped flat_inputs) flat_outputs in
  pytree.tree_unflatten result spec.

(* ===================================================================== *)
(** ** A small program state to run the rules on *)
(* ===================================================================== *)

Module Demo.

(** Object 1 is a plain tensor; 2 batches it at level 1; 3 wraps 2 for grad
    at level 2; 4 is not a tensor; 5 is a tensor distinct from 1 with the
    same contents; 6 wraps 1 for grad at level 2. *)
Definition objects : gmap ref pyobj :=
  <[6%positive := TensorWrapper 1%positive 2]>
  (<[5%positive := PlainTensor 7]>
  (<[4%positive := NonTensor 42]>
  (<[3%positive := TensorWrapper 2%positive 2]>
  (<[2%positive := BatchedTensor 1%positive 0 1]>
  (<[1%positive := PlainTensor 7]> ∅))))).

Definition grad2 : Interpreter.t := Interpreter.Build Grad 2 0.
Definition vmap1 : Interpreter.t := Interpreter.Build Vmap 1 3.
Definition func1 : Interpreter.t := Interpreter.Build Functionalize 1 0.
Definition jvp1 : Interpreter.t := Interpreter.Build Jvp 1 0.

Definition world_with (stack : list Interpreter.t) : world :=
  World objects stack false false false.

Definition first (operands : list pytree) : pytree :=
  match operands with
  | t :: _ => t
  | [] => Node KTuple []
  end.

Definition first_vmap (info : VmapInfo) (in_dims : dims) (operands : list pytree)
  : user (pytree * dims) :=
  fun w => (inl (first operands, pytree.Leaf (Some 0%Z)), w).

(** A function that returns its first operand; its vmap rule does the same
    and keeps the batch dimension at 0. *)
Definition MyFn : Function.t :=
  Function.Build "MyFn"
    (fun operands w => (inl (first operands), w))
    (fun _ _ _ w => (inl tt, w))
    (fun _ _ w => (inr (UserException 1), w))
    (fun _ _ w => (inr (UserException 2), w))
    (Some first_vmap).

(** The state after the Vmap rule has batched the output of [MyFn] on the
    operand 2: object 7 is the new batched tensor. *)
Definition world_after_wrap : world :=
  set_heap (<[7%positive := BatchedTensor 1%positive 0 1]> objects)
           (world_with [vmap1]).

(** The same function without a vmap rule. *)
Definition NoVmap : Function.t :=
  Function.Build "NoVmap"
    (fun operands w => (inl (first operands), w))
    (fun _ _ _ w => (inl tt, w))
    (fun _ _ w => (inr (UserException 1), w))
    (fun _ _ w => (inr (UserException 2), w))
    None.

(** A function whose forward raises. *)
Definition Failing : Function.t :=
  Function.Build "Failing"
    (fun _ w => (inr (UserException 3), w))
    (fun _ _ _ w => (inl tt, w))
    (fun _ _ w => (inr (UserException 1), w))
    (fun _ _ w => (inr (UserException 2), w))
    None.

(** A function that returns the tuple of its operands. *)
Definition Identity : Function.t :=
  Function.Build "Identity"
    (fun operands w => (inl (args_tuple operands), w))
    (fun _ _ _ w => (inl tt, w))
    (fun _ _ w => (inr (UserException 1), w))
    (fun _ _ w => (inr (UserException 2), w))
    None.

Definition raising_vmap (info : VmapInfo) (in_dims : dims) (operands : list pytree)
  : user (pytree * dims) :=
  fun w => (inr (UserException 4), w).

(** A function whose vmap rule raises. *)
Definition RaisingVmap : Function.t :=
  Function.Build "RaisingVmap"
    (fun operands w => (inl (first operands), w))
    (fun _ _ _ w => (inl tt, w))
    (fun _ _ w => (inr (UserException 1), w))
    (fun _ _ w => (inr (UserException 2), w))
    (Some raising_vmap).

Definition new_output_vmap (info : VmapInfo) (in_dims : dims) (operands : list pytree)
  : user (pytree * dims) :=
  fun w => (inl (Leaf 5%positive, pytree.Leaf (Some 0%Z)), w).

(** A function whose vmap rule returns a tensor that is none of its
    operands, batched at dimension 0; called directly, it returns that
    tensor. *)
Definition NewOutput : Function.t :=
  Function.Build "NewOutput"
    (fun operands w => (inl (Leaf 5%positive), w))
    (fun _ _ _ w => (inl tt, w))
    (fun _ _ w => (inr (UserException 1), w))
    (fun _ _ w => (inr (UserException 2), w))
    (Some new_output_vmap).

Definition pair_dims_vmap (info : VmapInfo) (in_dims : dims) (operands : list pytree)
  : user (pytree * dims) :=
  fun w => (inl (first operands,
                 pytree.Node KTuple [pytree.Leaf (Some 0%Z); pytree.Leaf (Some 0%Z)]), w).

(** A function whose vmap rule returns one output with a pair of
    dimensions. *)
Definition PairDims : Function.t :=
  Function.Build "PairDims"
    (fun operands w => (inl (first operands), w))
    (fun _ _ _ w => (inl tt, w))
    (fun _ _ w => (inr (UserException 1), w))
    (fun _ _ w => (inr (UserException 2), w))
    (Some pair_dims_vmap).

End Demo.

(* ===================================================================== *)
(** ** Vocabulary of the properties of the helpers *)
(* ===================================================================== *)

(** [_broadcast_to_and_flatten] on the children of a container. *)
Fixpoint broadcast_children {A} (ts : list (pytree.tree A)) (specs : list pytree.TreeSpec)
  : option (list A) :=
  match ts, specs with
  | t :: ts', sp :: specs' =>
      match _broadcast_to_and_flatten t sp with
      | Some flat =>
          match broadcast_children ts' specs' with
          | Some r => Some (flat ++ r)
          | None => None
          end
      | None => None
      end
  | _, _ => Some []
  end.

(** What [_create_batched_inputs] makes of one value [p.2] with the
    dimension [p.1], between the worlds [w] and [w']. *)
Definition batched (level : Z) (w w' : world) (p : option Z * ref) (y : ref) : Prop :=
  match p.1 with
  | None => y = p.2
  | Some bdim =>
      heap w !! y = None /\ heap w' !! y = Some (BatchedTensor p.2 bdim level)
  end.

(** The values that [_create_batched_inputs] batches, with their
    dimensions, in order. *)
Definition batched_events (level : Z) (ps : list (option Z * ref)) : list event :=
  omap (fun p : option Z * ref =>
          match p.1 with
          | Some bdim => Some (EvAddBatchDim p.2 bdim level)
          | None => None
          end) ps.

(** The outputs that [wrap_outputs_maintaining_identity] wraps: the Tensors
    that are no key of the dictionary. *)
Definition wrapped_outputs (d : gmap ref ref) (w : world) (xs : list ref) : list ref :=
  filter (fun x => isinstance_Tensor w x = true /\ d !! x = None) xs.

(** The state in which the node of the Grad/Jvp rule runs its [forward],
    when the rule is entered in [w]: the flag of
    [enable_autograd_function] is set, the context object of the call has
    been made, and both kinds of gradient recording are off. *)
Definition node_scope (w : world) : world :=
  set_fwd_grad_enabled false
    (set_grad_enabled false
       (set_heap (<[fresh (dom (heap w)) := FunctionCtx]> (heap w))
                 (set_autograd_function_allowed true w))).

(** What unwrapping for grad at [level] makes of one leaf. *)
Definition unwrapped_leaf_for_grad (w : world) (level : Z) (x : ref) : ref :=
  if isinstance_Tensor w x then unwrapped_for_grad w x level else x.

(** What [unwrap_batched] at [level] makes of one leaf: the value and its
    batch dimension. *)
Definition unwrapped_leaf_batched (w : world) (level : Z) (x : ref) : ref * option Z :=
  if isinstance_Tensor w x then unwrapped_batched w x level else (x, None).

(** The computation leaves both gradient-recording flags as it finds
    them. *)
Definition keeps_recording {A} (m : M A) : Prop :=
  forall w, grad_enabled (world_of (m w)) = grad_enabled w /\
            fwd_grad_enabled (world_of (m w)) = fwd_grad_enabled w.

(* ===================================================================== *)
(** ** Registration text for custom operators

    A shallow embedding of [torchgen/executorch/api/custom_ops.py]: the
    kernel stub of one native function and the registration blocks that
    [gen_custom_ops] builds, one for each namespace. *)
(* ===================================================================== *)

Module custom_ops.

(** The line break of the templates. *)
Definition nl : string := String (Ascii.ascii_of_nat 10) EmptyString.

Module Variant.
Inductive t : Type := function | method.
End Variant.

#[global] Instance Variant_eq_dec : EqDecision Variant.t.
Proof. solve_decision. Defined.

(** What the generator reads of the schema classes of [torchgen.model].
    The parameter [T] stands for [torchgen.model.Type], of which only the
    comparison [==] is used. *)
Module Argument.
Record t (T : Type) : Type := Build { name : string; type : T }.
Arguments Build {T} _ _.
Arguments name {T} _.
Arguments type {T} _.
End Argument.

Module Return.
Record t (T : Type) : Type := Build { type : T }.
Arguments Build {T} _.
Arguments type {T} _.
End Return.

Module Arguments.
Record t (T : Type) : Type := Build {
  out : list (Argument.t T);
  flat_non_out : list (Argument.t T)
}.
Arguments Build {T} _ _.
Arguments out {T} _.
Arguments flat_non_out {T} _.
End Arguments.

Module FunctionSchema.
Record t (T : Type) : Type := Build {
  (** [func.name.overload_name] *)
  overload_name : string;
  arguments : Arguments.t T;
  returns : list (Return.t T)
}.
Arguments Build {T} _ _ _.
Arguments overload_name {T} _.
Arguments arguments {T} _.
Arguments returns {T} _.
End FunctionSchema.

Module NativeFunction.
Record t (T : Type) : Type := Build {
  namespace : string;
  func : FunctionSchema.t T;
  variants : list Variant.t
}.
Arguments Build {T} _ _ _.
Arguments namespace {T} _.
Arguments func {T} _.
Arguments variants {T} _.
End NativeFunction.

(** The collaborators that print, which are not among the sources; what
    they print is left open. *)
Record Printers (T : Type) : Type := {
  (** [DispatcherSignature.from_schema(func, prefix=prefix, symint=False).defn()] *)
  defn : FunctionSchema.t T -> string -> string;
  (** [str(func)] *)
  str_func : FunctionSchema.t T -> string;
  (** [str(func.arguments.out)] *)
  str_out : list (Argument.t T) -> string;
  (** [str(func.returns)] *)
  str_returns : list (Return.t T) -> string;
  (** [dest.RegisterDispatchKey(backend_index, Target.REGISTRATION, ...)(f)] *)
  registration : NativeFunction.t T -> list string;
  (** [str(DispatchKey.CPU)] *)
  dispatch_key : string
}.
Arguments defn {T} _ _ _.
Arguments str_func {T} _ _.
Arguments str_out {T} _ _.
Arguments str_returns {T} _ _.
Arguments registration {T} _ _.
Arguments dispatch_key {T} _.

Inductive error : Type :=
| Exception (msg : string)
| AssertionError (msg : string).

Section Generator.
Context {T : Type} `{EqDecision T}.

(** The name that the stub returns for a function with one return: the
    first [out] argument if there is one, else the first other argument of
    the type of the return. *)
Definition single_ret_name (func : FunctionSchema.t T) (r : Return.t T) : option string :=
  match Arguments.out (FunctionSchema.arguments func) with
  | a :: _ => Some (Argument.name a)
  | [] =>
      match list_find (fun a => Argument.type a = Return.type r)
                      (Arguments.flat_non_out (FunctionSchema.arguments func)) with
      | Some (_, a) => Some (Argument.name a)
      | None => None
      end
  end.

(** The text of the stub around the return statement. *)
Definition stub_text (sig_defn ret_str : string) : string :=
  nl +:+ sig_defn +:+ " {" +:+ nl +:+ "    " +:+ ret_str +:+ nl +:+ "}" +:+ nl +:+ "    ".

(** [ComputeNativeFunctionStub.__call__]: [None] for a function that has no
    function variant, the text of a placeholder kernel otherwise.  The
    assertion on [sig] cannot fail and is left out. *)
Definition ComputeNativeFunctionStub_call (p : Printers T) (f : NativeFunction.t T)
  : error + option string :=
  if negb (bool_decide (Variant.function ∈ NativeFunction.variants f)) then inr None
  else
    let func := NativeFunction.func f in
    let sig_defn :=
      defn p func ("wrapper_" +:+ FunctionSchema.overload_name func +:+ "_") in
    let returns := FunctionSchema.returns func in
    let out := Arguments.out (FunctionSchema.arguments func) in
    match returns with
    | [] => inr (Some (stub_text sig_defn ""))
    | [r] =>
        match single_ret_name func r with
        | Some ret_name =>
            if bool_decide (ret_name = "")
            then inl (Exception ("Can't handle this return type " +:+ str_func p func))
            else inr (Some (stub_text sig_defn ("return " +:+ ret_name +:+ ";")))
        | None => inl (Exception ("Can't handle this return type " +:+ str_func p func))
        end
    | _ =>
        if negb (length out =? length returns)%nat
        then inl (AssertionError
                    ("Out variant number of returns need to match the number of out arguments."
                     +:+ " Got outs " +:+ str_out p out
                     +:+ " but returns " +:+ str_returns p returns))
        else
          let tensor_type := "at::Tensor &" in
          let comma := ", " in
          let ret_name :=
            "::std::tuple<"
            +:+ String.concat comma (replicate (length returns) tensor_type)
            +:+ ">(" +:+ nl +:+ "                "
            +:+ String.concat comma (map Argument.name out)
            +:+ nl +:+ "            )" in
          inr (Some (stub_text sig_defn ("return " +:+ ret_name +:+ ";")))
    end.

(** [ns_grouped_native_functions[namespace].append(native_function)] on a
    [defaultdict(list)], which keeps its keys in the order in which they
    were first used. *)
Fixpoint group_append (namespace : string) (f : NativeFunction.t T)
    (groups : list (string * list (NativeFunction.t T)))
  : list (string * list (NativeFunction.t T)) :=
  match groups with
  | [] => [(namespace, [f])]
  | g :: rest =>
      if decide (g.1 = namespace) then (g.1, g.2 ++ [f]) :: rest
      else g :: group_append namespace f rest
  end.

Definition ns_grouped_native_functions (native_functions : list (NativeFunction.t T))
  : list (string * list (NativeFunction.t T)) :=
  foldl (fun groups native_function =>
           group_append (NativeFunction.namespace native_function) native_function groups)
        [] native_functions.

(** One [TORCH_LIBRARY_IMPL] block. *)
Definition registration_block (p : Printers T) (namespace : string)
    (functions : list (NativeFunction.t T)) : string :=
  let dispatch_registrations_body :=
    String.concat nl (concat (map (registration p) functions)) in
  nl +:+ "TORCH_LIBRARY_IMPL(" +:+ namespace +:+ ", " +:+ dispatch_key p +:+ ", m) {"
  +:+ nl +:+ dispatch_registrations_body +:+ nl +:+ "};".

(** The text [static_init_dispatch_registrations] that [gen_custom_ops]
    builds from the native functions. *)
Definition static_init_dispatch_registrations (p : Printers T)
    (native_functions : list (NativeFunction.t T)) : string :=
  foldl (fun acc (g : string * list (NativeFunction.t T)) =>
           if (length g.2 =? 0)%nat then acc
           else acc +:+ registration_block p g.1 g.2)
        "" (ns_grouped_native_functions native_functions).

(** The functions of one namespace, in the order of the input. *)
Definition in_namespace (namespace : string) (fs : list (NativeFunction.t T))
  : list (NativeFunction.t T) :=
  filter (fun f => NativeFunction.namespace f = namespace) fs.

End Generator.

(** The distinct elements of a list, in the order of their first
    occurrences. *)
Fixpoint first_occurrences (l : list string) : list string :=
  match l with
  | [] => []
  | x :: l' => x :: filter (fun y => y <> x) (first_occurrences l')
  end.

End custom_ops.

(* ===================================================================== *)
(** ** Running computations *)
(* ===================================================================== *)

Lemma result_eta {A} (r : result A) : r = Res (outcome_of r) (world_of r) (events_of r).
Proof. by destruct r. Qed.

Lemma bind_Ok {A B} (m : M A) (k : A -> M B) w a w1 e1 :
  m w = Res (Ok a) w1 e1 ->
  bind m k w =
    Res (outcome_of (k a w1)) (world_of (k a w1)) (e1 ++ events_of (k a w1)).
Proof. intros H. unfold bind. rewrite H. by destruct (k a w1). Qed.

Lemma bind_Raise {A B} (m : M A) (k : A -> M B) w x w1 e1 :
  m w = Res (Raise x) w1 e1 -> bind m k w = Res (Raise x) w1 e1.
Proof. intros H. unfold bind. by rewrite H. Qed.

Lemma bind_Timeout {A B} (m : M A) (k : A -> M B) w w1 e1 :
  m w = Res OutOfDepth w1 e1 -> bind m k w = Res OutOfDepth w1 e1.
Proof. intros H. unfold bind. by rewrite H. Qed.

Lemma bind_ret_l {A B} (a : A) (k : A -> M B) w : bind (ret a) k w = k a w.
Proof. unfold bind, ret. by destruct (k a w). Qed.

Lemma bind_tell {B} evs (k : unit -> M B) w :
  bind (tell evs) k w =
    Res (outcome_of (k tt w)) (world_of (k tt w)) (evs ++ events_of (k tt w)).
Proof. unfold bind, tell. by destruct (k tt w). Qed.

(** What [mapM] does when every step succeeds without touching the state. *)
Lemma mapM_pure {A B} (f : A -> M B) (g : A -> B) (ev : A -> list event) w xs :
  (forall x, x ∈ xs -> f x w = Res (Ok (g x)) w (ev x)) ->
  mapM f xs w = Res (Ok (map g xs)) w (concat (map ev xs)).
Proof.
  induction xs as [|x xs IH]; intros Hf; simpl; [done|].
  erewrite bind_Ok by (apply Hf; left).
  erewrite bind_Ok by (apply IH; intros y Hy; apply Hf; by right).
  by rewrite app_nil_r.
Qed.

(* ===================================================================== *)
(** ** Facts about trees *)
(* ===================================================================== *)

Lemma tree_ind_nested {A : Type} (P : pytree.tree A -> Prop) :
  (forall a, P (pytree.Leaf a)) ->
  (forall k ts, Forall P ts -> P (pytree.Node k ts)) ->
  forall t, P t.
Proof.
  intros HLeaf HNode. fix IH 1. intros [a|k ts]; [apply HLeaf|].
  apply HNode. induction ts as [|t ts IHts]; constructor; [apply IH|apply IHts].
Qed.

Lemma rebuild_Node {A} k specs (vals : list A) :
  pytree.rebuild (pytree.Node k specs) vals =
    match pytree.rebuild_list specs vals with
    | Some (ts, rest) => Some (pytree.Node k ts, rest)
    | None => None
    end.
Proof.
  simpl.
  assert (forall sps vs,
    (fix go (specs0 : list pytree.TreeSpec) (vals0 : list A) {struct specs0}
       : option (list (pytree.tree A) * list A) :=
       match specs0 with
       | [] => Some ([], vals0)
       | sp :: specs' =>
           match pytree.rebuild sp vals0 with
           | Some (t, rest) =>
               match go specs' rest with
               | Some (ts, rest') => Some (t :: ts, rest')
               | None => None
               end
           | None => None
           end
       end) sps vs = pytree.rebuild_list sps vs) as ->; [|done].
  induction sps as [|sp sps IH]; intros vs; simpl; [done|].
  destruct (pytree.rebuild sp vs) as [[t rest]|]; [|done].
  by rewrite IH.
Qed.

(** Any list with as many values as the descriptor has leaves is rebuilt
    into a tree of that shape with exactly those leaves. *)
Lemma rebuild_exact {A} (spec : pytree.TreeSpec) :
  forall (vals rest : list A),
    length vals = pytree.num_leaves spec ->
    exists t, pytree.rebuild spec (vals ++ rest) = Some (t, rest) /\
              pytree.leaves t = vals /\ pytree.spec_of t = spec.
Proof.
  induction spec as [[]|k specs IH] using tree_ind_nested; intros vals rest Hlen.
  - destruct vals as [|a [|? ?]]; try discriminate.
    exists (pytree.Leaf a). by simpl.
  - rewrite rebuild_Node.
    enough (exists ts, pytree.rebuild_list specs (vals ++ rest) = Some (ts, rest) /\
                       concat (map pytree.leaves ts) = vals /\
                       map pytree.spec_of ts = specs) as (ts & -> & Hl & Hs).
    { exists (pytree.Node k ts). simpl. by rewrite Hl, Hs. }
    unfold pytree.num_leaves in Hlen. simpl in Hlen.
    revert vals Hlen. induction IH as [|sp specs Hsp _ IHspecs]; intros vals Hlen.
    + destruct vals; [|discriminate]. by exists [].
    + simpl in Hlen. rewrite length_app in Hlen.
      destruct (Hsp (take (length (pytree.leaves sp)) vals)
                    (drop (length (pytree.leaves sp)) vals ++ rest))
        as (t & Ht & Htl & Hts).
      { rewrite length_take. unfold pytree.num_leaves. lia. }
      destruct (IHspecs (drop (length (pytree.leaves sp)) vals))
        as (ts & Hts' & Htsl & Htss).
      { rewrite length_drop. lia. }
      exists (t :: ts). simpl.
      rewrite (app_assoc _ _ rest), take_drop in Ht. rewrite Ht, Hts'.
      split; [done|]. simpl. rewrite Htl, Htsl, Hts, Htss.
      by rewrite take_drop.
Qed.

Lemma tree_unflatten_exact {A} (vals : list A) (spec : pytree.TreeSpec) w :
  length vals = pytree.num_leaves spec ->
  exists t, pytree.tree_unflatten vals spec w = Res (Ok t) w [] /\
            pytree.leaves t = vals /\ pytree.spec_of t = spec.
Proof.
  intros Hlen. destruct (rebuild_exact spec vals [] Hlen) as (t & Ht & Hl & Hs).
  exists t. unfold pytree.tree_unflatten. rewrite app_nil_r in Ht. by rewrite Ht.
Qed.

Lemma leaves_spec_of {A} (t : pytree.tree A) :
  length (pytree.leaves (pytree.spec_of t)) = length (pytree.leaves t).
Proof.
  induction t as [a|k ts IH] using tree_ind_nested; [done|].
  simpl. induction IH as [|t ts Ht _ IHts]; [done|].
  simpl. rewrite !length_app. by rewrite Ht, IHts.
Qed.

Lemma num_leaves_spec_of {A} (t : pytree.tree A) :
  pytree.num_leaves (pytree.spec_of t) = length (pytree.leaves t).
Proof. apply leaves_spec_of. Qed.

(** A tree is determined by its shape and its leaves. *)
Lemma tree_unflatten_flatten {A} (t : pytree.tree A) w :
  pytree.tree_unflatten (pytree.leaves t) (pytree.spec_of t) w = Res (Ok t) w [].
Proof.
  enough (forall rest, pytree.rebuild (pytree.spec_of t) (pytree.leaves t ++ rest)
                       = Some (t, rest)) as H.
  { unfold pytree.tree_unflatten. specialize (H []). rewrite app_nil_r in H.
    by rewrite H. }
  induction t as [a|k ts IH] using tree_ind_nested; intros rest; [done|].
  change (pytree.spec_of (pytree.Node k ts))
    with (pytree.Node k (map pytree.spec_of ts)).
  rewrite rebuild_Node.
  enough (pytree.rebuild_list (map pytree.spec_of ts)
            (pytree.leaves (pytree.Node k ts) ++ rest) = Some (ts, rest)) as ->; [done|].
  simpl. induction IH as [|t ts Ht _ IHts]; [done|].
  simpl. rewrite <- app_assoc, Ht, IHts. done.
Qed.

(* ===================================================================== *)
(** ** Dict comprehensions *)
(* ===================================================================== *)

Lemma foldl_insert_lookup (pairs : list (ref * ref)) : forall (d : gmap ref ref) k,
  foldl (fun d kv => <[kv.1 := kv.2]> d) d pairs !! k =
    match last_paired pairs k with
    | Some v => Some v
    | None => d !! k
    end.
Proof.
  induction pairs as [|[k' v'] pairs IH]; intros d k; simpl; [done|].
  rewrite IH. destruct (last_paired pairs k); [done|].
  rewrite lookup_insert. destruct (decide (k' = k)); done.
Qed.

Lemma dict_comprehension_lookup pairs k :
  dict_comprehension pairs !! k = last_paired pairs k.
Proof.
  unfold dict_comprehension. rewrite foldl_insert_lookup.
  by destruct (last_paired pairs k).
Qed.

Lemma last_paired_None pairs k :
  last_paired pairs k = None <-> forall v, (k, v) ∉ pairs.
Proof.
  induction pairs as [|[k' v'] pairs IH]; simpl.
  - split; [|done]. intros _ v Hin. by apply elem_of_nil in Hin.
  - destruct (last_paired pairs k) eqn:E.
    + split; [done|]. intros H. exfalso.
      assert (Some r = None) as Hcontra; [|done].
      apply IH. intros v Hin. apply (H v). by right.
    + destruct (decide (k' = k)) as [->|Hne].
      * split; [done|]. intros H. exfalso. apply (H v'). by left.
      * split; [|done]. intros _ v Hin.
        apply elem_of_cons in Hin as [Heq|Hin]; [congruence|].
        by apply (proj1 IH eq_refl v).
Qed.

(** The value found is the one of the last pair with that key. *)
Lemma last_paired_Some pairs k v :
  last_paired pairs k = Some v <->
  exists j, pairs !! j = Some (k, v) /\
            forall j' v', (j < j')%nat -> pairs !! j' <> Some (k, v').
Proof.
  revert v. induction pairs as [|[k' v0] pairs IH]; intros v; simpl.
  - split; [done|]. by intros (j & Hj & _).
  - destruct (last_paired pairs k) as [v1|] eqn:E.
    + split.
      * intros [= ->]. destruct (proj1 (IH v) eq_refl) as (j & Hj & Hlast).
        exists (S j). split; [done|]. intros [|j'] v' Hlt; [lia|].
        simpl. apply Hlast. lia.
      * intros ([|j] & Hj & Hlast).
        -- exfalso. destruct (proj1 (IH v1) eq_refl) as (j1 & Hj1 & _).
           apply (Hlast (S j1) v1); [lia|done].
        -- f_equal. assert (Some v1 = Some v) as [= ->]; [|done].
           apply IH. exists j. split; [done|].
           intros j' v' Hlt. apply (Hlast (S j') v'). lia.
    + pose proof (proj1 (last_paired_None pairs k) E) as Hnone.
      destruct (decide (k' = k)) as [->|Hne].
      * split.
        -- intros [= ->]. exists 0%nat. split; [done|].
           intros [|j'] v' Hlt; [lia|]. simpl. intros Hj'.
           apply (Hnone v'). by eapply list_elem_of_lookup_2.
        -- intros ([|j] & Hj & _); [by injection Hj as ->|].
           exfalso. apply (Hnone v). by eapply list_elem_of_lookup_2.
      * split; [done|]. intros ([|j] & Hj & _); [simpl in Hj; congruence|].
        exfalso. apply (Hnone v). by eapply list_elem_of_lookup_2.
Qed.

(** With as many originals as unwrapped inputs, a key is found exactly when
    it is one of the unwrapped inputs. *)
Lemma last_paired_zip_None (us os : list ref) k :
  length us = length os ->
  last_paired (zip us os) k = None <-> k ∉ us.
Proof.
  intros Hlen. rewrite last_paired_None. split.
  - intros H Hin. apply list_elem_of_lookup in Hin as [i Hi].
    destruct (lookup_lt_is_Some_2 os i) as [o Ho].
    { rewrite <- Hlen. by eapply lookup_lt_Some. }
    apply (H o). apply list_elem_of_lookup. exists i.
    rewrite lookup_zip_with. rewrite Hi. simpl. by rewrite Ho.
  - intros H v Hin. apply H. apply list_elem_of_lookup in Hin as [i Hi].
    rewrite lookup_zip_with in Hi.
    destruct (us !! i) as [u|] eqn:Hu; [|done]. simpl in Hi.
    destruct (os !! i); [|done]. simpl in Hi. injection Hi as -> _.
    by eapply list_elem_of_lookup_2.
Qed.

Lemma last_paired_zip_Some (us os : list ref) k v :
  last_paired (zip us os) k = Some v ->
  exists i, us !! i = Some k /\ os !! i = Some v /\
            forall i', (i < i')%nat -> (i' < length os)%nat -> us !! i' <> Some k.
Proof.
  intros H. apply last_paired_Some in H as (i & Hi & Hlast).
  exists i. rewrite lookup_zip_with in Hi.
  destruct (us !! i) as [u|] eqn:Hu; [|done]. simpl in Hi.
  destruct (os !! i) as [o|] eqn:Ho; [|done]. simpl in Hi. injection Hi as -> ->.
  repeat split; [done..|]. intros i' Hlt Hlen Hi'.
  destruct (lookup_lt_is_Some_2 os i' Hlen) as [o' Ho'].
  apply (Hlast i' o' Hlt). rewrite lookup_zip_with, Hi'. simpl. by rewrite Ho'.
Qed.

(* ===================================================================== *)
(** ** Worlds that only grow *)
(* ===================================================================== *)

Lemma grown_refl w : grown w w.
Proof. by repeat split. Qed.

Lemma grown_trans w1 w2 w3 : grown w1 w2 -> grown w2 w3 -> grown w1 w3.
Proof.
  intros (Ha & ? & ? & ? & ?) (Hb & ? & ? & ? & ?).
  repeat split; [by etrans|congruence..].
Qed.

Lemma alloc_grown o w :
  exists r, alloc o w = Res (Ok r) (set_heap (<[r := o]> (heap w)) w) [] /\
            heap w !! r = None /\
            grown w (set_heap (<[r := o]> (heap w)) w).
Proof.
  exists (fresh (dom (heap w))).
  assert (heap w !! fresh (dom (heap w)) = None) as Hfresh.
  { apply not_elem_of_dom. apply is_fresh. }
  repeat split; [done|]. simpl. by apply insert_subseteq.
Qed.

Lemma grown_lookup w w' x o :
  grown w w' -> heap w !! x = Some o -> heap w' !! x = Some o.
Proof. intros [Hsub _] Hx. by eapply lookup_weaken. Qed.

Lemma grown_lookup_None w w' x :
  grown w w' -> heap w' !! x = None -> heap w !! x = None.
Proof.
  intros Hg Hx. destruct (heap w !! x) eqn:E; [|done].
  by rewrite (grown_lookup _ _ _ _ Hg E) in Hx.
Qed.

Lemma grown_isinstance_Tensor w w' x :
  grown w w' -> is_Some (heap w !! x) ->
  isinstance_Tensor w' x = isinstance_Tensor w x.
Proof.
  intros Hg [o Ho]. unfold isinstance_Tensor.
  by rewrite (grown_lookup _ _ _ _ Hg Ho), Ho.
Qed.

(* ===================================================================== *)
(** ** The loop of [wrap_outputs_maintaining_identity] *)
(* ===================================================================== *)

Lemma _wrap_for_grad_run x level w :
  exists r, _wrap_for_grad x level w =
              Res (Ok r) (set_heap (<[r := TensorWrapper x level]> (heap w)) w)
                  [EvWrapForGrad x level] /\
            heap w !! r = None /\
            grown w (set_heap (<[r := TensorWrapper x level]> (heap w)) w).
Proof.
  destruct (alloc_grown (TensorWrapper x level) w) as (r & Hr & Hnone & Hg).
  exists r. split; [|by split].
  unfold _wrap_for_grad. rewrite bind_tell, Hr. reflexivity.
Qed.

Lemma rewrapped_grown d level w w1 w' xs ys :
  grown w w1 -> grown w1 w' ->
  Forall (fun x => is_Some (heap w !! x)) xs ->
  Forall2 (rewrapped d level w1 w') xs ys ->
  Forall2 (rewrapped d level w w') xs ys.
Proof.
  intros Hg Hg' Hlive H. induction H as [|x y xs ys Hxy _ IH]; [constructor|].
  apply Forall_cons in Hlive as [Hx Hlive]. constructor; [|by apply IH].
  unfold rewrapped in *. rewrite <- (grown_isinstance_Tensor w w1 x Hg Hx).
  destruct (isinstance_Tensor w1 x); [|done].
  destruct (d !! x); [done|]. destruct Hxy as [Hy Hy'].
  split; [|done]. by eapply grown_lookup_None.
Qed.

Lemma mapM_wrap_output d level xs : forall w,
  Forall (fun x => is_Some (heap w !! x)) xs ->
  exists ys w' evs,
    mapM (wrap_output d level) xs w = Res (Ok ys) w' evs /\
    grown w w' /\
    Forall (is_wrap_for_grad level) evs /\
    Forall2 (rewrapped d level w w') xs ys.
Proof.
  induction xs as [|x xs IH]; intros w Hlive.
  - exists [], w, []. repeat split; try done; constructor.
  - apply Forall_cons in Hlive as [Hx Hlive]. simpl.
    assert (exists y w1 e1,
      wrap_output d level x w = Res (Ok y) w1 e1 /\ grown w w1 /\
      Forall (is_wrap_for_grad level) e1 /\
      forall w', grown w1 w' -> rewrapped d level w w' x y)
      as (y & w1 & e1 & Hrun & Hg & He1 & Hy).
    { unfold wrap_output, rewrapped.
      destruct (isinstance_Tensor w x) eqn:Ht; simpl.
      - destruct (d !! x) as [orig|] eqn:Hd.
        + exists orig, w, []. repeat split; try done; constructor.
        + destruct (_wrap_for_grad_run x level w) as (r & Hr & Hnone & Hg).
          eexists r, _, _. split; [exact Hr|]. split; [done|]. split.
          * repeat constructor. by exists x.
          * intros w' Hg'. split; [done|].
            eapply grown_lookup; [exact Hg'|]. simpl. apply lookup_insert_eq.
      - exists x, w, []. repeat split; try done; constructor. }
    destruct (IH w1) as (ys & w' & evs & Hrun' & Hg' & Hevs & Hys).
    { eapply Forall_impl; [exact Hlive|]. intros z [o Ho].
      exists o. by eapply grown_lookup. }
    exists (y :: ys), w', (e1 ++ evs).
    erewrite bind_Ok by exact Hrun. erewrite bind_Ok by exact Hrun'.
    simpl. rewrite app_nil_r. split; [done|].
    split; [by eapply grown_trans|]. split; [by apply Forall_app|].
    constructor; [by apply Hy|]. by eapply rewrapped_grown.
Qed.

Lemma wrap_outputs_maintaining_identity_run outputs unwrapped_inputs orig_inputs level w :
  live w outputs ->
  exists result w' evs,
    wrap_outputs_maintaining_identity outputs unwrapped_inputs orig_inputs level w
      = Res (Ok result) w' evs /\
    grown w w' /\
    Forall (is_wrap_for_grad level) evs /\
    pytree.spec_of result = pytree.spec_of outputs /\
    Forall2 (rewrapped
               (dict_comprehension (zip (pytree.leaves unwrapped_inputs)
                                        (pytree.leaves orig_inputs)))
               level w w')
            (pytree.leaves outputs) (pytree.leaves result).
Proof.
  intros Hlive. unfold wrap_outputs_maintaining_identity. simpl.
  destruct (mapM_wrap_output
              (dict_comprehension (zip (pytree.leaves unwrapped_inputs)
                                       (pytree.leaves orig_inputs)))
              level (pytree.leaves outputs) w Hlive)
    as (ys & w' & evs & Hrun & Hg & Hevs & Hys).
  destruct (tree_unflatten_exact ys (pytree.spec_of outputs) w')
    as (result & Hres & Hl & Hs).
  { rewrite num_leaves_spec_of. symmetry. by eapply Forall2_length. }
  exists result, w', evs. erewrite bind_Ok by exact Hrun. rewrite Hres. simpl.
  rewrite app_nil_r, Hl. done.
Qed.

(* ===================================================================== *)
(** ** The loop of [preserve_object_identity] *)
(* ===================================================================== *)

Lemma preserve_object_identity_run outputs inputs unwrapped_outputs unwrapped_inputs w :
  length (pytree.leaves outputs) = length (pytree.leaves unwrapped_outputs) ->
  exists result,
    preserve_object_identity outputs inputs unwrapped_outputs unwrapped_inputs w
      = Res (Ok result) w [] /\
    pytree.spec_of result = pytree.spec_of unwrapped_outputs /\
    pytree.leaves result =
      map (fun p : ref * ref =>
             if isinstance_Tensor w p.1 then
               match last_paired (zip (pytree.leaves unwrapped_inputs)
                                      (pytree.leaves inputs)) p.2 with
               | Some inp => inp
               | None => p.1
               end
             else p.1)
          (zip (pytree.leaves outputs) (pytree.leaves unwrapped_outputs)).
Proof.
  intros Hlen. unfold preserve_object_identity. simpl.
  set (d := dict_comprehension _).
  set (g := fun p : ref * ref =>
              if isinstance_Tensor w p.1 then
                match last_paired (zip (pytree.leaves unwrapped_inputs)
                                       (pytree.leaves inputs)) p.2 with
                | Some inp => inp
                | None => p.1
                end
              else p.1).
  set (ps := zip (pytree.leaves outputs) (pytree.leaves unwrapped_outputs)).
  assert (mapM (preserve_output d) ps w = Res (Ok (map g ps)) w []) as Hrun.
  { rewrite (mapM_pure (preserve_output d) g (fun _ => []) w ps).
    - f_equal. induction ps; [done|]. done.
    - intros [o u] _. unfold preserve_output, g, d. simpl.
      rewrite dict_comprehension_lookup.
      destruct (isinstance_Tensor w o); [|done]. simpl.
      by destruct (last_paired _ u). }
  destruct (tree_unflatten_exact (map g ps) (pytree.spec_of unwrapped_outputs) w)
    as (result & Hres & Hl & Hs).
  { rewrite length_map, num_leaves_spec_of. unfold ps.
    rewrite length_zip_with. lia. }
  exists result. erewrite bind_Ok by exact Hrun. rewrite Hres. done.
Qed.

(* ===================================================================== *)
(** ** Identity preservation *)
(* ===================================================================== *)

(** C1.  [wrap_outputs_maintaining_identity], called on outputs that are
    live objects and on parallel unwrapped and original inputs, returns a
    tree of the shape of the outputs.  Leaf by leaf: an output that is not a
    Tensor is returned as it is; a Tensor that is the same object as one of
    the unwrapped inputs is replaced by the original input at a position
    where that unwrapped input stands; any other Tensor is replaced by a new
    wrapper of it at the given level.  Objects are compared by identity:
    only the references are looked at, never what they hold. *)
Theorem wrap_outputs_maintaining_identity_spec
    outputs unwrapped_inputs orig_inputs level w :
  live w outputs ->
  length (pytree.leaves unwrapped_inputs) = length (pytree.leaves orig_inputs) ->
  exists result w' evs,
    wrap_outputs_maintaining_identity outputs unwrapped_inputs orig_inputs level w
      = Res (Ok result) w' evs /\
    pytree.spec_of result = pytree.spec_of outputs /\
    Forall2
      (fun output res =>
         (isinstance_Tensor w output = false /\ res = output) \/
         (isinstance_Tensor w output = true /\
          output ∈ pytree.leaves unwrapped_inputs /\
          exists i, pytree.leaves unwrapped_inputs !! i = Some output /\
                    pytree.leaves orig_inputs !! i = Some res) \/
         (isinstance_Tensor w output = true /\
          (output ∉ pytree.leaves unwrapped_inputs) /\
          heap w !! res = None /\
          heap w' !! res = Some (TensorWrapper output level)))
      (pytree.leaves outputs) (pytree.leaves result).
Proof.
  intros Hlive Hlen.
  destruct (wrap_outputs_maintaining_identity_run
              outputs unwrapped_inputs orig_inputs level w Hlive)
    as (result & w' & evs & Hrun & _ & _ & Hspec & Hleaves).
  exists result, w', evs. split; [done|]. split; [done|].
  eapply Forall2_impl; [exact Hleaves|].
  intros output res. unfold rewrapped. rewrite dict_comprehension_lookup.
  destruct (isinstance_Tensor w output); [|by left].
  destruct (last_paired _ output) as [orig|] eqn:Hlast.
  - intros ->. right. left.
    apply last_paired_zip_Some in Hlast as (i & Hu & Ho & _).
    split; [done|]. split; [by eapply list_elem_of_lookup_2|]. by exists i.
  - intros [Hnew Hwrapped]. right. right.
    by apply last_paired_zip_None in Hlast.
Qed.

(** C10.  In both helpers the dictionary from unwrapped input to original
    input is keyed on identity and filled in flattening order, so a later
    pair with the same key overwrites an earlier one: an output that aliases
    an unwrapped input is replaced by the original input at the last
    position where that unwrapped input is paired. *)
Theorem later_pairs_overwrite_earlier :
  (forall pairs k, dict_comprehension pairs !! k = last_paired pairs k) /\
  (forall outputs unwrapped_inputs orig_inputs level w i j u o,
     live w outputs ->
     pytree.leaves outputs !! i = Some u ->
     isinstance_Tensor w u = true ->
     pytree.leaves unwrapped_inputs !! j = Some u ->
     pytree.leaves orig_inputs !! j = Some o ->
     (forall j' o', (j < j')%nat -> pytree.leaves orig_inputs !! j' = Some o' ->
                    pytree.leaves unwrapped_inputs !! j' <> Some u) ->
     exists result w' evs,
       wrap_outputs_maintaining_identity outputs unwrapped_inputs orig_inputs level w
         = Res (Ok result) w' evs /\
       pytree.leaves result !! i = Some o) /\
  (forall outputs inputs unwrapped_outputs unwrapped_inputs w i j out u inp,
     length (pytree.leaves outputs) = length (pytree.leaves unwrapped_outputs) ->
     pytree.leaves outputs !! i = Some out ->
     pytree.leaves unwrapped_outputs !! i = Some u ->
     isinstance_Tensor w out = true ->
     pytree.leaves unwrapped_inputs !! j = Some u ->
     pytree.leaves inputs !! j = Some inp ->
     (forall j' inp', (j < j')%nat -> pytree.leaves inputs !! j' = Some inp' ->
                      pytree.leaves unwrapped_inputs !! j' <> Some u) ->
     exists result,
       preserve_object_identity outputs inputs unwrapped_outputs unwrapped_inputs w
         = Res (Ok result) w [] /\
       pytree.leaves result !! i = Some inp).
Proof.
  assert (forall (us os : list ref) j u o,
            us !! j = Some u -> os !! j = Some o ->
            (forall j' o', (j < j')%nat -> os !! j' = Some o' -> us !! j' <> Some u) ->
            last_paired (zip us os) u = Some o) as Hlast.
  { intros us os j u o Hu Ho Hno. apply last_paired_Some. exists j. split.
    - rewrite lookup_zip_with, Hu. simpl. by rewrite Ho.
    - intros j' o' Hlt Hj'. rewrite lookup_zip_with in Hj'.
      destruct (us !! j') as [u'|] eqn:Hu'; [|done]. simpl in Hj'.
      destruct (os !! j') as [o''|] eqn:Ho'; [|done]. simpl in Hj'.
      injection Hj' as -> ->. by apply (Hno j' o' Hlt Ho'). }
  split; [apply dict_comprehension_lookup|]. split.
  - intros outputs unwrapped_inputs orig_inputs level w i j u o
           Hlive Hi Ht Hu Ho Hno.
    destruct (wrap_outputs_maintaining_identity_run
                outputs unwrapped_inputs orig_inputs level w Hlive)
      as (result & w' & evs & Hrun & _ & _ & _ & Hleaves).
    exists result, w', evs. split; [done|].
    destruct (Forall2_lookup_l _ _ _ _ _ Hleaves Hi) as (res & Hres & Hrel).
    unfold rewrapped in Hrel.
    rewrite Ht, dict_comprehension_lookup, (Hlast _ _ j u o Hu Ho Hno) in Hrel.
    by subst.
  - intros outputs inputs unwrapped_outputs unwrapped_inputs w i j out u inp
           Hlen Hi Hiu Ht Hu Hinp Hno.
    destruct (preserve_object_identity_run
                outputs inputs unwrapped_outputs unwrapped_inputs w Hlen)
      as (result & Hrun & _ & Hleaves).
    exists result. split; [done|].
    rewrite Hleaves, list_lookup_fmap, lookup_zip_with, Hi. simpl.
    rewrite Hiu. simpl. by rewrite Ht, (Hlast _ _ j u inp Hu Hinp Hno).
Qed.

(* ===================================================================== *)
(** ** Unwrapping the operands *)
(* ===================================================================== *)

Lemma concat_map_filter {A B} (P : A -> bool) (e : A -> B) (xs : list A) :
  concat (map (fun x => if P x then [e x] else []) xs) =
  map e (filter (fun x => P x = true) xs).
Proof.
  induction xs as [|x xs IH]; [done|]. simpl. rewrite IH.
  destruct (P x) eqn:E; simpl.
  - by rewrite filter_cons_True.
  - rewrite filter_cons_False; [done|]. by rewrite E.
Qed.

Lemma tree_map_only_unwrap_run (t : pytree) level w :
  exists u,
    pytree.tree_map_only_Tensor (fun x => _unwrap_for_grad x level) t w =
      Res (Ok u) w (map (fun x => EvUnwrapForGrad x level) (tensor_leaves w t)) /\
    pytree.spec_of u = pytree.spec_of t /\
    pytree.leaves u =
      map (fun x => if isinstance_Tensor w x then unwrapped_for_grad w x level else x)
          (pytree.leaves t).
Proof.
  unfold pytree.tree_map_only_Tensor. simpl.
  set (g := fun x => if isinstance_Tensor w x then unwrapped_for_grad w x level else x).
  destruct (tree_unflatten_exact (map g (pytree.leaves t)) (pytree.spec_of t) w)
    as (u & Hu & Hl & Hs).
  { by rewrite length_map, num_leaves_spec_of. }
  exists u. split; [|done].
  erewrite bind_Ok.
  2:{ apply (mapM_pure _ g
               (fun x => if isinstance_Tensor w x then [EvUnwrapForGrad x level] else [])).
      intros x _. unfold g, _unwrap_for_grad, ret.
      by destruct (isinstance_Tensor w x). }
  rewrite Hu. simpl. rewrite app_nil_r. f_equal.
  apply (concat_map_filter (isinstance_Tensor w) (fun x => EvUnwrapForGrad x level)).
Qed.

Lemma unwrap_batched_run (args : pytree) level w :
  exists unwrapped in_dims,
    unwrap_batched args level w =
      Res (Ok (unwrapped, in_dims)) w
          (map (fun x => EvUnwrapBatched x level) (tensor_leaves w args)) /\
    pytree.spec_of unwrapped = pytree.spec_of args /\
    pytree.leaves unwrapped =
      map (fun x => if isinstance_Tensor w x then (unwrapped_batched w x level).1 else x)
          (pytree.leaves args) /\
    pytree.leaves in_dims =
      map (fun x => if isinstance_Tensor w x then (unwrapped_batched w x level).2 else None)
          (pytree.leaves args).
Proof.
  unfold unwrap_batched. simpl.
  destruct (length (pytree.leaves args) =? 0)%nat eqn:Hlen.
  - apply Nat.eqb_eq, nil_length_inv in Hlen.
    exists args, (Node KTuple []). unfold tensor_leaves. rewrite Hlen. done.
  - set (g := fun x => if isinstance_Tensor w x
                       then unwrapped_batched w x level else (x, None)).
    destruct (tree_unflatten_exact (map fst (map g (pytree.leaves args)))
                (pytree.spec_of args) w) as (u & Hu & Hul & Hus).
    { by rewrite !length_map, num_leaves_spec_of. }
    destruct (tree_unflatten_exact (map snd (map g (pytree.leaves args)))
                (pytree.spec_of args) w) as (d & Hd & Hdl & Hds).
    { by rewrite !length_map, num_leaves_spec_of. }
    exists u, d. split.
    + erewrite bind_Ok.
      2:{ apply (mapM_pure _ g
                   (fun x => if isinstance_Tensor w x
                             then [EvUnwrapBatched x level] else [])).
          intros x _. unfold g, _unwrap_batched, ret.
          by destruct (isinstance_Tensor w x). }
      erewrite bind_Ok by exact Hu. erewrite bind_Ok by exact Hd. simpl.
      rewrite app_nil_r. f_equal.
      apply (concat_map_filter (isinstance_Tensor w)
               (fun x => EvUnwrapBatched x level)).
    + split; [done|]. rewrite Hul, Hdl, !map_map. unfold g.
      split; apply map_ext; intros x; by destruct (isinstance_Tensor w x).
Qed.

(* ===================================================================== *)
(** ** What a computation records *)
(* ===================================================================== *)

Lemma events_bind {A B} (m : M A) (k : A -> M B) w :
  events_of (bind m k w) =
    events_of (m w) ++
    match outcome_of (m w) with
    | Ok a => events_of (k a (world_of (m w)))
    | _ => []
    end.
Proof.
  unfold bind. destruct (m w) as [[a| |] w1 e1]; simpl;
    [by destruct (k a w1)|by rewrite app_nil_r..].
Qed.

Lemma events_with {T A} (cm : contextmanager T) (body : M A) w :
  events_of (with_ cm body w) =
    match cm_enter cm w with
    | (inl _, w1) => events_of (body w1)
    | (inr _, _) => []
    end.
Proof.
  unfold with_. destruct (cm_enter cm w) as [[t|e] w1]; [|done].
  by destruct (body w1) as [[| |] ? ?].
Qed.

Lemma events_lift {A} (u : user A) w : events_of (lift u w) = [].
Proof. unfold lift. by destruct (u w) as [[|] ?]. Qed.

Lemma events_invoke {A} c f (u : user A) w :
  events_of (invoke c f u w) = [EvCapability c (Function.__name__ f)].
Proof. unfold invoke. by rewrite bind_tell, events_lift. Qed.

Lemma events_mapM {A B} (P : event -> Prop) (f : A -> M B) xs :
  (forall x w, Forall P (events_of (f x w))) ->
  forall w, Forall P (events_of (mapM f xs w)).
Proof.
  intros Hf. induction xs as [|x xs IH]; intros w; simpl; [constructor|].
  rewrite events_bind. apply Forall_app. split; [apply Hf|].
  destruct (outcome_of (f x w)); [|constructor..].
  rewrite events_bind. apply Forall_app. split; [apply IH|].
  destruct (outcome_of _); constructor.
Qed.

Lemma events_tree_unflatten {A} (vals : list A) spec w :
  events_of (pytree.tree_unflatten vals spec w) = [].
Proof.
  unfold pytree.tree_unflatten.
  by destruct (pytree.rebuild spec vals) as [[t [|? ?]]|].
Qed.

Lemma events_wrap_batched args bdims level w :
  Forall (is_add_batch_dim level) (events_of (wrap_batched args bdims level w)).
Proof.
  unfold wrap_batched. simpl.
  destruct (_broadcast_to_and_flatten bdims _) as [flat|]; [|constructor].
  unfold _create_batched_inputs. rewrite events_bind.
  apply Forall_app. split.
  - apply events_mapM. intros [[d|] x] w0; simpl; [|constructor].
    unfold _add_batch_dim. destruct (isinstance_Tensor w0 x); [|constructor].
    rewrite bind_tell. simpl. repeat constructor. by exists x, d.
  - destruct (outcome_of _); [|constructor..].
    rewrite events_tree_unflatten. constructor.
Qed.

Lemma events_preserve_object_identity outputs inputs unwrapped_outputs unwrapped_inputs w :
  events_of (preserve_object_identity outputs inputs unwrapped_outputs unwrapped_inputs w)
  = [].
Proof.
  unfold preserve_object_identity. simpl. rewrite events_bind.
  assert (forall ps w0, events_of (mapM (preserve_output
            (dict_comprehension (zip (pytree.leaves unwrapped_inputs)
                                     (pytree.leaves inputs)))) ps w0) = []) as ->.
  { intros ps w0.
    assert (Forall (fun _ : event => False)
              (events_of (mapM (preserve_output
                 (dict_comprehension (zip (pytree.leaves unwrapped_inputs)
                                          (pytree.leaves inputs)))) ps w0))) as H.
    { apply events_mapM. intros [o u] w1. unfold preserve_output.
      destruct (negb _); [constructor|]. destruct (_ !! u); constructor. }
    destruct (events_of _) as [|e ?]; [done|].
    by apply Forall_cons in H as [[] _]. }
  simpl. destruct (outcome_of _); [|done..]. apply events_tree_unflatten.
Qed.

Lemma events_wrap_outputs outputs unwrapped_inputs orig_inputs level w :
  Forall (is_wrap_for_grad level)
    (events_of (wrap_outputs_maintaining_identity
                  outputs unwrapped_inputs orig_inputs level w)).
Proof.
  unfold wrap_outputs_maintaining_identity. simpl. rewrite events_bind.
  apply Forall_app. split.
  - apply events_mapM. intros x w0. unfold wrap_output.
    destruct (negb _); [constructor|]. destruct (_ !! x); [constructor|].
    unfold _wrap_for_grad. rewrite bind_tell. simpl.
    repeat constructor. by exists x.
  - destruct (outcome_of _); [|constructor..].
    rewrite events_tree_unflatten. constructor.
Qed.

(* ===================================================================== *)
(** ** The entry point and the rules that fail *)
(* ===================================================================== *)

(** C2.  With no functorch transform active, [custom_function_call] is the
    call of the descriptor's [apply] on the operands and nothing else: the
    same value or exception, the same final state, and the only call made
    is that of [apply]; no rule is dispatched and nothing is unwrapped or
    wrapped. *)
Theorem no_transform_passthrough depth autograd_function operands w :
  _are_functorch_transforms_active w = false ->
  custom_function_call (S depth) autograd_function operands w =
    match Function.apply autograd_function operands w with
    | (inl out, w') =>
        Res (Ok out) w' [EvCapability CapApply (Function.__name__ autograd_function)]
    | (inr e, w') =>
        Res (Raise e) w' [EvCapability CapApply (Function.__name__ autograd_function)]
    end.
Proof.
  intros Hactive. simpl. rewrite Hactive. unfold invoke. rewrite bind_tell.
  unfold lift. by destruct (Function.apply autograd_function operands w) as [[out|e] w'].
Qed.

(** C6.  For a descriptor without a [vmap] capability the Vmap rule raises
    a [RuntimeError] that names the function and asks for a vmap
    staticmethod.  It does so whatever the operands are, batched or not,
    without unwrapping anything and without changing the state; and so does
    the entry point when the current interpreter is a Vmap one. *)
Theorem vmap_rule_requires_vmap rec interpreter autograd_function operands w :
  Function.vmap autograd_function = None ->
  custom_function_call_vmap rec interpreter autograd_function operands w =
    Res (Raise (RuntimeError (vmap_missing_message autograd_function))) w [] /\
  vmap_missing_message autograd_function =
    "You tried to vmap over " +:+ Function.__name__ autograd_function +:+
    ", but it does not have a vmap rule defined. Please add a vmap staticmethod to it." /\
  forall depth rest,
    interpreter_stack w = interpreter :: rest ->
    Interpreter.key interpreter = Vmap ->
    custom_function_call (S depth) autograd_function operands w =
      Res (Raise (RuntimeError (vmap_missing_message autograd_function))) w
          [EvRule Vmap (Interpreter.level interpreter)].
Proof.
  intros Hvmap.
  assert (forall r, custom_function_call_vmap r interpreter autograd_function operands w =
            Res (Raise (RuntimeError (vmap_missing_message autograd_function))) w [])
    as Hrule.
  { intros r. unfold custom_function_call_vmap. by rewrite Hvmap. }
  split; [apply Hrule|]. split; [done|].
  intros depth rest Hstack Hkey. simpl.
  unfold _are_functorch_transforms_active, PyOperator_call. rewrite Hstack.
  rewrite bind_tell, Hkey. simpl. by rewrite Hrule.
Qed.

(** C9.  The Functionalize rule raises a [RuntimeError] saying that it is
    not yet implemented, for every descriptor and all operands, without
    unwrapping anything and leaving the whole state, the interpreter stack
    included, as it was; and so does the entry point when the current
    interpreter is a Functionalize one. *)
Theorem functionalize_rule_not_implemented rec interpreter autograd_function operands w :
  custom_function_call_functionalize interpreter autograd_function operands w =
    Res (Raise (RuntimeError "NYI: Functionalize rule for custom_function_call")) w [] /\
  functorch_table rec Functionalize = custom_function_call_functionalize /\
  forall depth rest,
    interpreter_stack w = interpreter :: rest ->
    Interpreter.key interpreter = Functionalize ->
    custom_function_call (S depth) autograd_function operands w =
      Res (Raise (RuntimeError "NYI: Functionalize rule for custom_function_call")) w
          [EvRule Functionalize (Interpreter.level interpreter)].
Proof.
  split; [done|]. split; [done|].
  intros depth rest Hstack Hkey. simpl.
  unfold _are_functorch_transforms_active, PyOperator_call. rewrite Hstack.
  rewrite bind_tell, Hkey. done.
Qed.

(* ===================================================================== *)
(** ** The Vmap rule *)
(* ===================================================================== *)

Lemma tree_all_leaves {A} (p : A -> bool) (t : pytree.tree A) :
  pytree.tree_all p t = true <-> Forall (fun a => p a = true) (pytree.leaves t).
Proof.
  unfold pytree.tree_all. rewrite forallb_forall, Forall_forall.
  split; intros H x Hx; apply H; by apply list_elem_of_In.
Qed.

(** C3.  When, after unwrapping at the current level, no operand has a
    batch dimension (in particular when no operand is a Tensor), the Vmap
    rule only unwraps and then redispatches: its result is that of
    [custom_function_call] on the original operands under the lowered
    interpreter, returned as it is.  The [vmap] capability does not occur in
    what the rule does. *)
Theorem vmap_fast_path rec interpreter autograd_function operands w vmap :
  Function.vmap autograd_function = Some vmap ->
  Forall (fun x => isinstance_Tensor w x = true ->
                   (unwrapped_batched w x (Interpreter.level interpreter)).2 = None)
         (pytree.leaves (args_tuple operands)) ->
  custom_function_call_vmap rec interpreter autograd_function operands w =
    let r := with_ (lower interpreter) (rec autograd_function operands) w in
    Res (outcome_of r) (world_of r)
        (map (fun x => EvUnwrapBatched x (Interpreter.level interpreter))
             (tensor_leaves w (args_tuple operands)) ++ events_of r).
Proof.
  intros Hvmap Hnone. unfold custom_function_call_vmap. rewrite Hvmap.
  destruct (unwrap_batched_run (args_tuple operands) (Interpreter.level interpreter) w)
    as (unwrapped & in_dims & Hrun & _ & _ & Hdims).
  erewrite bind_Ok by exact Hrun. cbv beta iota.
  assert (pytree.tree_all (fun dim : option Z => bool_decide (dim = None)) in_dims = true)
    as ->; [|done].
  apply tree_all_leaves. rewrite Hdims. apply Forall_fmap.
  eapply Forall_impl; [exact Hnone|]. intros x Hx. simpl in *.
  apply bool_decide_eq_true.
  destruct (isinstance_Tensor w x); [|done]. by apply Hx.
Qed.

Lemma rebuild_sound {A} (spec : pytree.TreeSpec) :
  forall (vals : list A) t rest,
    pytree.rebuild spec vals = Some (t, rest) ->
    pytree.spec_of t = spec /\ vals = pytree.leaves t ++ rest.
Proof.
  induction spec as [[]|k specs IH] using tree_ind_nested; intros vals t rest H.
  - destruct vals as [|a vals]; [done|]. simpl in H. by injection H as <- <-.
  - rewrite rebuild_Node in H.
    destruct (pytree.rebuild_list specs vals) as [[ts rest']|] eqn:E; [|done].
    injection H as <- <-.
    enough (map pytree.spec_of ts = specs /\
            vals = concat (map pytree.leaves ts) ++ rest') as [Hs Hl].
    { simpl. by rewrite Hs. }
    clear k. revert vals ts rest' E.
    induction IH as [|sp specs Hsp _ IHspecs]; intros vals ts rest' E; simpl in E.
    + by injection E as <- <-.
    + destruct (pytree.rebuild sp vals) as [[t r1]|] eqn:E1; [|done].
      destruct (pytree.rebuild_list specs r1) as [[ts' r2]|] eqn:E2; [|done].
      injection E as <- <-.
      destruct (Hsp _ _ _ E1) as [Hs1 Hl1].
      destruct (IHspecs _ _ _ E2) as [Hs2 Hl2].
      simpl. rewrite Hs1, Hs2. split; [done|].
      by rewrite <- app_assoc, <- Hl2.
Qed.

Lemma tree_unflatten_sound {A} (vals : list A) spec w t w' evs :
  pytree.tree_unflatten vals spec w = Res (Ok t) w' evs ->
  pytree.spec_of t = spec /\ pytree.leaves t = vals.
Proof.
  unfold pytree.tree_unflatten.
  destruct (pytree.rebuild spec vals) as [[t' [|? ?]]|] eqn:E; try done.
  intros [= <- _ _]. destruct (rebuild_sound _ _ _ _ E) as [Hs Hl].
  by rewrite app_nil_r in Hl.
Qed.

Lemma wrap_batched_spec args bdims level w output w' evs :
  wrap_batched args bdims level w = Res (Ok output) w' evs ->
  pytree.spec_of output = pytree.spec_of args.
Proof.
  unfold wrap_batched. simpl.
  destruct (_broadcast_to_and_flatten bdims _) as [flat|]; [|done].
  unfold _create_batched_inputs, bind.
  destruct (mapM _ _ w) as [[batched| |] w1 e1]; try done.
  destruct (pytree.tree_unflatten batched _ w1) as [o w2 e2] eqn:E.
  intros [= -> -> _]. by apply tree_unflatten_sound in E as [? _].
Qed.

(** C5, as the code has it.  In the general path of the Vmap rule, once the
    output of the [vmap] capability has been wrapped again at the current
    level, the identity-preservation step looks each unwrapped output up,
    by identity, among the unwrapped inputs.  Where the wrapped output is a
    Tensor and its unwrapped output is the same object as an unwrapped
    input, the rule returns the original, still wrapped input that stands at
    the last position at which that unwrapped input is paired with an
    input; everywhere else it returns the wrapped output. *)
Theorem vmap_general_path_preserves_identity
    rec interpreter autograd_function operands w vmap
    unwrapped_operands in_dims e1 unwrapped_output out_dims w2 e2 output w3 e3 :
  Function.vmap autograd_function = Some vmap ->
  unwrap_batched (args_tuple operands) (Interpreter.level interpreter) w =
    Res (Ok (unwrapped_operands, in_dims)) w e1 ->
  pytree.tree_all (fun dim : option Z => bool_decide (dim = None)) in_dims = false ->
  with_ (lower interpreter)
        (invoke CapVmap autograd_function
                (vmap {| batch_size := Interpreter.batch_size interpreter |}
                      in_dims (star unwrapped_operands))) w =
    Res (Ok (unwrapped_output, out_dims)) w2 e2 ->
  wrap_batched unwrapped_output out_dims (Interpreter.level interpreter) w2 =
    Res (Ok output) w3 e3 ->
  exists result,
    custom_function_call_vmap rec interpreter autograd_function operands w =
      Res (Ok result) w3 (e1 ++ e2 ++ e3) /\
    pytree.spec_of result = pytree.spec_of unwrapped_output /\
    forall i out u,
      pytree.leaves output !! i = Some out ->
      pytree.leaves unwrapped_output !! i = Some u ->
      exists res,
        pytree.leaves result !! i = Some res /\
        ((isinstance_Tensor w3 out = false /\ res = out) \/
         (isinstance_Tensor w3 out = true /\
          u ∈ pytree.leaves unwrapped_operands /\
          exists j, pytree.leaves unwrapped_operands !! j = Some u /\
                    pytree.leaves (args_tuple operands) !! j = Some res /\
                    forall j' inp',
                      (j < j')%nat ->
                      pytree.leaves (args_tuple operands) !! j' = Some inp' ->
                      pytree.leaves unwrapped_operands !! j' <> Some u) \/
         (isinstance_Tensor w3 out = true /\
          (u ∉ pytree.leaves unwrapped_operands) /\ res = out)).
Proof.
  intros Hvmap Hunwrap Hdims Hcall Hwrap.
  assert (length (pytree.leaves unwrapped_operands) =
          length (pytree.leaves (args_tuple operands))) as Hpar.
  { destruct (unwrap_batched_run (args_tuple operands)
                (Interpreter.level interpreter) w)
      as (u' & d' & Hrun & _ & Hl & _).
    rewrite Hrun in Hunwrap. injection Hunwrap as <- <- _.
    by rewrite Hl, length_map. }
  assert (length (pytree.leaves output) = length (pytree.leaves unwrapped_output))
    as Hlen.
  { rewrite <- (leaves_spec_of output), <- (leaves_spec_of unwrapped_output).
    by rewrite (wrap_batched_spec _ _ _ _ _ _ _ Hwrap). }
  destruct (preserve_object_identity_run output (args_tuple operands)
              unwrapped_output unwrapped_operands w3 Hlen)
    as (result & Hrun & Hspec & Hleaves).
  exists result. split; [|split; [done|]].
  - unfold custom_function_call_vmap. rewrite Hvmap.
    erewrite bind_Ok by exact Hunwrap. cbv beta iota. rewrite Hdims.
    erewrite bind_Ok by exact Hcall. cbv beta iota.
    erewrite bind_Ok by exact Hwrap. rewrite Hrun. simpl.
    by rewrite app_nil_r.
  - intros i out u Hi Hu. rewrite Hleaves, list_lookup_fmap, lookup_zip_with, Hi.
    simpl. rewrite Hu. simpl. eexists. split; [done|].
    destruct (isinstance_Tensor w3 out); [|by left]. right.
    destruct (last_paired _ u) as [inp|] eqn:Hlast.
    + left. apply last_paired_zip_Some in Hlast as (j & Hj & Hinp & Hlater).
      split; [done|]. split; [by eapply list_elem_of_lookup_2|]. exists j.
      split; [done|]. split; [done|]. intros j' inp' Hlt Hj'.
      apply Hlater; [done|]. by eapply lookup_lt_Some.
    + right. by apply last_paired_zip_None in Hlast.
Qed.

(* ===================================================================== *)
(** ** The Grad/Jvp rule *)
(* ===================================================================== *)

Lemma with_run {T A} (cm : contextmanager T) (body : M A) w t w1 :
  cm_enter cm w = (inl t, w1) ->
  with_ cm body w =
    Res (outcome_of (body w1))
        (match outcome_of (body w1) with
         | OutOfDepth => world_of (body w1)
         | _ => cm_exit cm t (world_of (body w1))
         end)
        (events_of (body w1)).
Proof.
  intros H. unfold with_. rewrite H. by destruct (body w1) as [[| |] ? ?].
Qed.

Lemma forward_scope_run {A} interpreter rest (body : M A) w :
  interpreter_stack w = interpreter :: rest ->
  with_ enable_grad (with_ _enable_fwd_grad (with_ (lower interpreter) body)) w =
    Res (outcome_of (body (forward_scope w)))
        (match outcome_of (body (forward_scope w)) with
         | OutOfDepth => world_of (body (forward_scope w))
         | _ => forward_unscope w (world_of (body (forward_scope w)))
         end)
        (events_of (body (forward_scope w))).
Proof.
  intros Hstack. unfold with_, forward_scope, forward_unscope. simpl.
  rewrite Hstack. simpl. by destruct (body _) as [[| |] ? ?].
Qed.

Lemma Generated_forward_run rec interpreter autograd_function operands w rest :
  interpreter_stack w = interpreter :: rest ->
  exists u,
    pytree.spec_of u = pytree.spec_of (args_tuple operands) /\
    pytree.leaves u =
      map (fun x => if isinstance_Tensor w x
                    then unwrapped_for_grad w x (Interpreter.level interpreter) else x)
          (pytree.leaves (args_tuple operands)) /\
    SingleLevelFunction.forward (Generated rec interpreter autograd_function) operands w =
      match outcome_of (rec autograd_function (star u) (forward_scope w)) with
      | Ok output =>
          Res (outcome_of
                 (wrap_outputs_maintaining_identity
                    output u (args_tuple operands) (Interpreter.level interpreter)
                    (forward_unscope w
                       (world_of (rec autograd_function (star u) (forward_scope w))))))
              (world_of
                 (wrap_outputs_maintaining_identity
                    output u (args_tuple operands) (Interpreter.level interpreter)
                    (forward_unscope w
                       (world_of (rec autograd_function (star u) (forward_scope w))))))
              (map (fun x => EvUnwrapForGrad x (Interpreter.level interpreter))
                   (tensor_leaves w (args_tuple operands)) ++
               events_of (rec autograd_function (star u) (forward_scope w)) ++
               events_of
                 (wrap_outputs_maintaining_identity
                    output u (args_tuple operands) (Interpreter.level interpreter)
                    (forward_unscope w
                       (world_of (rec autograd_function (star u) (forward_scope w))))))
      | Raise e =>
          Res (Raise e)
              (forward_unscope w
                 (world_of (rec autograd_function (star u) (forward_scope w))))
              (map (fun x => EvUnwrapForGrad x (Interpreter.level interpreter))
                   (tensor_leaves w (args_tuple operands)) ++
               events_of (rec autograd_function (star u) (forward_scope w)))
      | OutOfDepth =>
          Res OutOfDepth (world_of (rec autograd_function (star u) (forward_scope w)))
              (map (fun x => EvUnwrapForGrad x (Interpreter.level interpreter))
                   (tensor_leaves w (args_tuple operands)) ++
               events_of (rec autograd_function (star u) (forward_scope w)))
      end.
Proof.
  intros Hstack.
  destruct (tree_map_only_unwrap_run (args_tuple operands)
              (Interpreter.level interpreter) w) as (u & Hrun & Hspec & Hleaves).
  exists u. split; [done|]. split; [done|].
  unfold Generated. simpl.
  erewrite bind_Ok by exact Hrun. cbv beta.
  unfold bind. rewrite (forward_scope_run interpreter rest _ w Hstack).
  destruct (rec autograd_function (star u) _) as [[output|e|] w2 e2]; simpl; [|done..].
  by destruct (wrap_outputs_maintaining_identity output u _ _ _) as [o w3 e3].
Qed.

(** C4.  The node that the Grad/Jvp rule generates at level [L].  Its
    [forward] unwraps the Tensors among the operands at level [L] and leaves
    the other operands alone; it then calls [custom_function_call] once, on
    the unwrapped operands, in the state where reverse-mode and forward-mode
    recording are both on and the current interpreter is lowered; on return
    it leaves that scope and wraps the outputs with
    [wrap_outputs_maintaining_identity] at level [L].  Its [setup_context],
    [backward] and [jvp] call the descriptor's with the same arguments and
    give back what it gives back. *)
Theorem Generated_forward_spec rec interpreter autograd_function operands w rest :
  interpreter_stack w = interpreter :: rest ->
  let level := Interpreter.level interpreter in
  let node := Generated rec interpreter autograd_function in
  exists unwrapped_operands,
    pytree.spec_of unwrapped_operands = pytree.spec_of (args_tuple operands) /\
    pytree.leaves unwrapped_operands =
      map (fun x => if isinstance_Tensor w x then unwrapped_for_grad w x level else x)
          (pytree.leaves (args_tuple operands)) /\
    grad_enabled (forward_scope w) = true /\
    fwd_grad_enabled (forward_scope w) = true /\
    interpreter_stack (forward_scope w) = rest /\
    heap (forward_scope w) = heap w /\
    (let unwraps :=
       map (fun x => EvUnwrapForGrad x level) (tensor_leaves w (args_tuple operands)) in
     let inner := rec autograd_function (star unwrapped_operands) (forward_scope w) in
     SingleLevelFunction.forward node operands w =
       match outcome_of inner with
       | Ok output =>
           let r := wrap_outputs_maintaining_identity
                      output unwrapped_operands (args_tuple operands) level
                      (forward_unscope w (world_of inner)) in
           Res (outcome_of r) (world_of r) (unwraps ++ events_of inner ++ events_of r)
       | Raise e =>
           Res (Raise e) (forward_unscope w (world_of inner)) (unwraps ++ events_of inner)
       | OutOfDepth => Res OutOfDepth (world_of inner) (unwraps ++ events_of inner)
       end) /\
    (forall ctx outputs operands' w0,
       SingleLevelFunction.setup_context node ctx outputs operands' w0 =
       invoke CapSetupContext autograd_function
              (Function.setup_context autograd_function ctx outputs operands') w0) /\
    (forall ctx grads w0,
       SingleLevelFunction.backward node ctx grads w0 =
       invoke CapBackward autograd_function
              (Function.backward autograd_function ctx grads) w0) /\
    (forall ctx tangents w0,
       SingleLevelFunction.jvp node ctx tangents w0 =
       invoke CapJvp autograd_function
              (Function.jvp autograd_function ctx tangents) w0).
Proof.
  intros Hstack level node.
  destruct (Generated_forward_run rec interpreter autograd_function operands w rest
              Hstack) as (u & Hspec & Hleaves & Hrun).
  exists u. split; [done|]. split; [done|].
  split; [done|]. split; [done|].
  split; [unfold forward_scope; simpl; by rewrite Hstack|].
  split; [done|]. split; [|done].
  cbv zeta. unfold node. rewrite Hrun.
  by destruct (outcome_of (rec autograd_function (star u) (forward_scope w))).
Qed.

(* ===================================================================== *)
(** ** Computations that come back with the stack they were given *)
(* ===================================================================== *)

Section Returns.
Variable s : list Interpreter.t.

Lemma returns_ret {A} (a : A) : returns_with_stack s (ret a).
Proof. by intros w Hw. Qed.

Lemma returns_raise {A} e : returns_with_stack s (@raise A e).
Proof. by intros w Hw. Qed.

Lemma returns_tell evs : returns_with_stack s (tell evs).
Proof. by intros w Hw. Qed.

Lemma returns_bind {A B} (m : M A) (k : A -> M B) :
  returns_with_stack s m -> (forall a, returns_with_stack s (k a)) ->
  returns_with_stack s (bind m k).
Proof.
  intros Hm Hk w Hw. destruct (Hm w Hw) as [Hout Hst]. unfold bind.
  destruct (m w) as [[a|e|] w1 e1]; simpl in *; [|done..].
  destruct (Hk a w1 Hst) as [Hout' Hst'].
  by destruct (k a w1) as [o w2 e2].
Qed.

Lemma returns_if {A} (c : world -> bool) (m1 m2 : M A) :
  returns_with_stack s m1 -> returns_with_stack s m2 ->
  returns_with_stack s (fun w => if c w then m1 w else m2 w).
Proof. intros H1 H2 w Hw. destruct (c w); [by apply H1|by apply H2]. Qed.

Lemma returns_mapM {A B} (f : A -> M B) xs :
  (forall x, returns_with_stack s (f x)) -> returns_with_stack s (mapM f xs).
Proof.
  intros Hf. induction xs as [|x xs IH]; simpl; [apply returns_ret|].
  apply returns_bind; [apply Hf|]. intros y.
  apply returns_bind; [apply IH|]. intros ys. apply returns_ret.
Qed.

Lemma returns_lift {A} (u : user A) : keeps_stack u -> returns_with_stack s (lift u).
Proof.
  intros Hu w Hw. specialize (Hu w). unfold lift.
  destruct (u w) as [[a|e] w']; simpl in *; split; congruence.
Qed.

Lemma returns_invoke {A} c f (u : user A) :
  keeps_stack u -> returns_with_stack s (invoke c f u).
Proof.
  intros Hu. apply returns_bind; [apply returns_tell|].
  intros _. by apply returns_lift.
Qed.

Lemma returns_alloc o : returns_with_stack s (alloc o).
Proof. by intros w Hw. Qed.

Lemma returns_tree_unflatten {A} (vals : list A) spec :
  returns_with_stack s (pytree.tree_unflatten vals spec).
Proof.
  unfold pytree.tree_unflatten.
  destruct (pytree.rebuild spec vals) as [[t [|? ?]]|];
    (apply returns_ret || apply returns_raise).
Qed.


Lemma returns_with {T A} (cm : contextmanager T) (body : M A) :
  stack_neutral cm -> returns_with_stack s body -> returns_with_stack s (with_ cm body).
Proof.
  intros [Henter Hexit] Hbody w Hw. destruct (Henter w) as (t & Ht & Hst).
  unfold with_. rewrite Ht. destruct (Hbody (cm_enter cm w).2) as [Hout Hst'].
  { congruence. }
  destruct (body _) as [[a|e|] w2 e2]; simpl in *; [|by rewrite Hexit|done].
  by rewrite Hexit.
Qed.

Lemma returns_wrap_outputs outputs unwrapped_inputs orig_inputs level :
  returns_with_stack s
    (wrap_outputs_maintaining_identity outputs unwrapped_inputs orig_inputs level).
Proof.
  unfold wrap_outputs_maintaining_identity. simpl.
  apply returns_bind; [|intros; apply returns_tree_unflatten].
  apply returns_mapM. intros x. unfold wrap_output.
  apply (returns_if (fun w => negb (isinstance_Tensor w x))); [apply returns_ret|].
  destruct (_ !! x); [apply returns_ret|].
  apply returns_bind; [apply returns_tell|]. intros _. apply returns_alloc.
Qed.

Lemma returns_tree_map_only_unwrap t level :
  returns_with_stack s
    (pytree.tree_map_only_Tensor (fun x => _unwrap_for_grad x level) t).
Proof.
  intros w Hw. destruct (tree_map_only_unwrap_run t level w) as (u & -> & _).
  done.
Qed.

Lemma returns_unwrap_batched args level : returns_with_stack s (unwrap_batched args level).
Proof.
  intros w Hw. destruct (unwrap_batched_run args level w) as (u & d & -> & _).
  done.
Qed.

Lemma returns_wrap_batched args bdims level :
  returns_with_stack s (wrap_batched args bdims level).
Proof.
  unfold wrap_batched. simpl.
  destruct (_broadcast_to_and_flatten bdims _); [|apply returns_raise].
  apply returns_bind; [|intros; apply returns_tree_unflatten].
  apply returns_mapM. intros [[d|] x]; simpl; [|apply returns_ret].
  unfold _add_batch_dim.
  apply (returns_if (fun w => isinstance_Tensor w x)); [|apply returns_raise].
  apply returns_bind; [apply returns_tell|]. intros _. apply returns_alloc.
Qed.

Lemma returns_preserve_object_identity outputs inputs unwrapped_outputs unwrapped_inputs :
  returns_with_stack s
    (preserve_object_identity outputs inputs unwrapped_outputs unwrapped_inputs).
Proof.
  unfold preserve_object_identity. simpl.
  apply returns_bind; [|intros; apply returns_tree_unflatten].
  apply returns_mapM. intros [o u]. unfold preserve_output.
  apply (returns_if (fun w => negb (isinstance_Tensor w o))); [apply returns_ret|].
  destruct (_ !! u); apply returns_ret.
Qed.

End Returns.

Lemma stack_neutral_enable_grad : stack_neutral enable_grad.
Proof. split; [intros w; by eexists|done]. Qed.

Lemma stack_neutral_enable_fwd_grad : stack_neutral _enable_fwd_grad.
Proof. split; [intros w; by eexists|done]. Qed.

Lemma stack_neutral_no_grad : stack_neutral no_grad.
Proof. split; [intros w; by eexists|done]. Qed.

Lemma stack_neutral_no_fwd_grad : stack_neutral no_fwd_grad.
Proof. split; [intros w; by eexists|done]. Qed.

Lemma stack_neutral_enable_autograd_function : stack_neutral enable_autograd_function.
Proof. split; [intros w; by eexists|done]. Qed.

(** Under [lower] the body sees the rest of the stack, and the interpreter
    is back on top afterwards. *)
Lemma returns_with_lower {A} interpreter top rest (body : M A) :
  returns_with_stack rest body ->
  returns_with_stack (top :: rest) (with_ (lower interpreter) body).
Proof.
  intros Hbody w Hw. unfold with_. simpl. rewrite Hw.
  destruct (Hbody (set_interpreter_stack rest w)) as [Hout Hst]; [done|].
  destruct (body _) as [[a|e|] w2 e2]; simpl in *; [|by rewrite Hst|done].
  by rewrite Hst.
Qed.

Section RulesReturn.
Variable rec : Function.t -> list pytree -> M pytree.
Variable autograd_function : Function.t.
Variables (top : Interpreter.t) (rest : list Interpreter.t).
Hypothesis Hbalanced : balanced autograd_function.
Hypothesis Hrec : forall operands, returns_with_stack rest (rec autograd_function operands).

Lemma returns_grad_rule interpreter operands :
  returns_with_stack (top :: rest)
    (custom_function_call_grad rec interpreter autograd_function operands).
Proof.
  destruct Hbalanced as (_ & Hsetup & _).
  unfold custom_function_call_grad, SingleLevelFunction.apply.
  apply returns_with; [apply stack_neutral_enable_autograd_function|].
  apply returns_bind; [apply returns_alloc|]. intros ctx.
  apply returns_with; [apply stack_neutral_no_grad|].
  apply returns_with; [apply stack_neutral_no_fwd_grad|].
  apply returns_bind.
  - simpl. apply returns_bind; [apply returns_tree_map_only_unwrap|]. intros u.
    apply returns_bind; [|intros; apply returns_wrap_outputs].
    apply returns_with; [apply stack_neutral_enable_grad|].
    apply returns_with; [apply stack_neutral_enable_fwd_grad|].
    apply returns_with_lower, Hrec.
  - intros outputs. simpl.
    apply returns_bind; [|intros; apply returns_ret].
    apply returns_invoke, Hsetup.
Qed.

Lemma returns_vmap_rule interpreter operands :
  returns_with_stack (top :: rest)
    (custom_function_call_vmap rec interpreter autograd_function operands).
Proof.
  destruct Hbalanced as (_ & _ & _ & _ & Hvmap).
  unfold custom_function_call_vmap.
  destruct (Function.vmap autograd_function) as [vmap|] eqn:E; [|apply returns_raise].
  apply returns_bind; [apply returns_unwrap_batched|]. intros [u in_dims].
  destruct (pytree.tree_all _ in_dims).
  - apply returns_with_lower, Hrec.
  - apply returns_bind.
    + apply returns_with_lower, returns_invoke. by apply Hvmap.
    + intros [uout out_dims].
      apply returns_bind; [apply returns_wrap_batched|].
      intros; apply returns_preserve_object_identity.
Qed.

End RulesReturn.

(** With call depth to spare for every active interpreter,
    [custom_function_call] comes back, and with the stack it was given. *)
Lemma returns_custom_function_call autograd_function :
  balanced autograd_function ->
  forall depth s operands,
    (length s < depth)%nat ->
    returns_with_stack s (custom_function_call depth autograd_function operands).
Proof.
  intros Hbalanced. induction depth as [|depth IH]; intros s operands Hlen; [lia|].
  intros w Hw. simpl. unfold _are_functorch_transforms_active. rewrite Hw.
  destruct s as [|top rest].
  - apply returns_invoke; [|done]. apply Hbalanced.
  - unfold PyOperator_call. rewrite Hw.
    assert (forall operands',
              returns_with_stack rest
                (custom_function_call depth autograd_function operands')) as Hrec.
    { intros operands'. apply IH. simpl in Hlen. lia. }
    apply (returns_bind (top :: rest)); [apply returns_tell| |done].
    intros _. destruct (Interpreter.key top); simpl.
    + by apply returns_grad_rule.
    + by apply returns_grad_rule.
    + by apply returns_vmap_rule.
    + apply returns_raise.
Qed.

(** C8.  A Grad or Jvp dispatch with the interpreter on top of the stack,
    for a descriptor whose capabilities leave the stack as they find it,
    and with call depth for the interpreters below: the rule returns or
    raises, and in both cases the flag that allows single-level nodes and
    the interpreter stack are what they were before the call.  The same
    holds for the entry point when the current interpreter is a Grad or a
    Jvp one. *)
Theorem grad_rule_restores_flag_and_stack
    depth interpreter rest autograd_function operands w :
  balanced autograd_function ->
  interpreter_stack w = interpreter :: rest ->
  (length rest < depth)%nat ->
  (let r := custom_function_call_grad (custom_function_call depth)
              interpreter autograd_function operands w in
   outcome_of r <> OutOfDepth /\
   autograd_function_allowed (world_of r) = autograd_function_allowed w /\
   interpreter_stack (world_of r) = interpreter_stack w) /\
  (Interpreter.key interpreter = Grad \/ Interpreter.key interpreter = Jvp ->
   let r := custom_function_call (S depth) autograd_function operands w in
   outcome_of r <> OutOfDepth /\
   autograd_function_allowed (world_of r) = autograd_function_allowed w /\
   interpreter_stack (world_of r) = interpreter_stack w).
Proof.
  intros Hbalanced Hstack Hdepth.
  assert (let r := custom_function_call_grad (custom_function_call depth)
                     interpreter autograd_function operands w in
          outcome_of r <> OutOfDepth /\
          autograd_function_allowed (world_of r) = autograd_function_allowed w /\
          interpreter_stack (world_of r) = interpreter_stack w) as Hrule.
  { destruct (returns_grad_rule (custom_function_call depth) autograd_function
                interpreter rest Hbalanced
                (fun ops => returns_custom_function_call autograd_function Hbalanced
                              depth rest ops Hdepth)
                interpreter operands w Hstack) as [Hout Hst].
    simpl. split; [done|]. split; [|congruence].
    revert Hout. unfold custom_function_call_grad, with_. simpl.
    by destruct (SingleLevelFunction.apply _ operands _) as [[a|e|] w2 e2]. }
  split; [exact Hrule|]. intros Hkey. simpl.
  unfold _are_functorch_transforms_active, PyOperator_call. rewrite Hstack.
  rewrite bind_tell. simpl.
  assert (functorch_table (custom_function_call depth) (Interpreter.key interpreter)
          = custom_function_call_grad (custom_function_call depth)) as ->.
  { by destruct Hkey as [-> | ->]. }
  cbv zeta in Hrule. destruct Hrule as (Hout & Hflag & Hst).
  split; [exact Hout|]. split; [exact Hflag|]. by rewrite Hst.
Qed.

(* ===================================================================== *)
(** ** The order of unwrapping and wrapping under nested transforms *)
(* ===================================================================== *)

Lemma tensor_leaves_ext w w' (t : pytree) :
  (forall x, isinstance_Tensor w' x = isinstance_Tensor w x) ->
  tensor_leaves w' t = tensor_leaves w t.
Proof.
  intros H. unfold tensor_leaves.
  induction (pytree.leaves t) as [|x xs IH]; [done|].
  rewrite !filter_cons, IH, H. done.
Qed.

Lemma isinstance_Tensor_new_ctx w x :
  isinstance_Tensor
    (set_fwd_grad_enabled false
       (set_grad_enabled false
          (set_heap (<[fresh (dom (heap w)) := FunctionCtx]> (heap w))
                    (set_autograd_function_allowed true w)))) x
  = isinstance_Tensor w x.
Proof.
  unfold isinstance_Tensor. simpl. rewrite lookup_insert.
  destruct (decide (fresh (dom (heap w)) = x)) as [<-|]; [|done].
  assert (heap w !! fresh (dom (heap w)) = None) as ->; [|done].
  apply not_elem_of_dom, is_fresh.
Qed.

Lemma events_apply node operands w :
  events_of (with_ enable_autograd_function
               (SingleLevelFunction.apply node operands) w) =
    events_of (SingleLevelFunction.forward node operands
       (set_fwd_grad_enabled false
          (set_grad_enabled false
             (set_heap (<[fresh (dom (heap w)) := FunctionCtx]> (heap w))
                       (set_autograd_function_allowed true w))))) ++
    match outcome_of (SingleLevelFunction.forward node operands
       (set_fwd_grad_enabled false
          (set_grad_enabled false
             (set_heap (<[fresh (dom (heap w)) := FunctionCtx]> (heap w))
                       (set_autograd_function_allowed true w))))) with
    | Ok outputs =>
        events_of (SingleLevelFunction.setup_context node (fresh (dom (heap w)))
                     outputs operands
                     (world_of (SingleLevelFunction.forward node operands
                        (set_fwd_grad_enabled false
                           (set_grad_enabled false
                              (set_heap (<[fresh (dom (heap w)) := FunctionCtx]> (heap w))
                                        (set_autograd_function_allowed true w)))))))
    | _ => []
    end.
Proof.
  unfold SingleLevelFunction.apply.
  rewrite events_with. simpl. rewrite events_bind. simpl.
  rewrite events_with. simpl. rewrite events_with. simpl.
  rewrite events_bind. f_equal.
  destruct (outcome_of (SingleLevelFunction.forward node operands _)); [|done..].
  rewrite events_bind.
  destruct (outcome_of (SingleLevelFunction.setup_context node _ _ _ _));
    simpl; by rewrite app_nil_r.
Qed.

(** What the Grad/Jvp rule records: the unwrapping of the operands, then
    whatever the redispatch records, then the wrapping of the outputs, then
    the call of [setup_context]. *)
Lemma events_grad_rule rec interpreter rest autograd_function operands w :
  interpreter_stack w = interpreter :: rest ->
  exists u wI W2 T,
    interpreter_stack wI = rest /\
    events_of (custom_function_call_grad rec interpreter autograd_function operands w) =
      map (fun x => EvUnwrapForGrad x (Interpreter.level interpreter))
          (tensor_leaves w (args_tuple operands)) ++
      events_of (rec autograd_function (star u) wI) ++ W2 ++ T /\
    Forall (is_wrap_for_grad (Interpreter.level interpreter)) W2 /\
    Forall is_capability T.
Proof.
  intros Hstack.
  set (w4 := set_fwd_grad_enabled false
       (set_grad_enabled false
          (set_heap (<[fresh (dom (heap w)) := FunctionCtx]> (heap w))
                    (set_autograd_function_allowed true w)))).
  assert (interpreter_stack w4 = interpreter :: rest) as Hstack4 by done.
  destruct (Generated_forward_run rec interpreter autograd_function operands w4 rest
              Hstack4) as (u & _ & _ & Hfwd).
  assert (tensor_leaves w4 (args_tuple operands) = tensor_leaves w (args_tuple operands))
    as Htl.
  { apply tensor_leaves_ext. intros x. apply isinstance_Tensor_new_ctx. }
  rewrite Htl in Hfwd.
  exists u, (forward_scope w4).
  assert (events_of (custom_function_call_grad rec interpreter autograd_function
                       operands w) =
          events_of (SingleLevelFunction.forward
                       (Generated rec interpreter autograd_function) operands w4) ++
          match outcome_of (SingleLevelFunction.forward
                       (Generated rec interpreter autograd_function) operands w4) with
          | Ok _ => [EvCapability CapSetupContext (Function.__name__ autograd_function)]
          | _ => []
          end) as ->.
  { unfold custom_function_call_grad.
    rewrite (events_apply (Generated rec interpreter autograd_function) operands w).
    fold w4. f_equal.
    destruct (outcome_of (SingleLevelFunction.forward _ operands w4))
      as [outputs| |]; [|done..].
    simpl. by rewrite events_invoke. }
  rewrite Hfwd.
  destruct (outcome_of (rec autograd_function (star u) (forward_scope w4)))
    as [output|e|]; simpl.
  - eexists _, _. split; [by unfold forward_scope; simpl; rewrite Hstack|].
    split.
    { rewrite <- (app_assoc (map _ _)), <- (app_assoc (events_of (rec _ _ _))).
      reflexivity. }
    split; [apply events_wrap_outputs|].
    destruct (outcome_of _); repeat constructor. by eexists _, _.
  - exists [], []. split; [by unfold forward_scope; simpl; rewrite Hstack|].
    split; [by rewrite !app_nil_r|]. split; constructor.
  - exists [], []. split; [by unfold forward_scope; simpl; rewrite Hstack|].
    split; [by rewrite !app_nil_r|]. split; constructor.
Qed.

(** What the Vmap rule records on top of a stack whose redispatch only
    calls capabilities: the unwrapping, then calls of capabilities, then the
    batching of the outputs. *)
Lemma events_vmap_rule rec interpreter rest autograd_function operands w :
  interpreter_stack w = interpreter :: rest ->
  (forall operands' w', interpreter_stack w' = rest ->
     Forall is_capability (events_of (rec autograd_function operands' w'))) ->
  exists U1 C W1,
    events_of (custom_function_call_vmap rec interpreter autograd_function operands w) =
      U1 ++ C ++ W1 /\
    Forall (is_unwrap_batched (Interpreter.level interpreter)) U1 /\
    Forall is_capability C /\
    Forall (is_add_batch_dim (Interpreter.level interpreter)) W1.
Proof.
  intros Hstack Hrec. unfold custom_function_call_vmap.
  destruct (Function.vmap autograd_function) as [vmap|].
  2:{ exists [], [], []. repeat split; constructor. }
  destruct (unwrap_batched_run (args_tuple operands) (Interpreter.level interpreter) w)
    as (u & in_dims & Hrun & _).
  rewrite events_bind, Hrun. simpl.
  exists (map (fun x => EvUnwrapBatched x (Interpreter.level interpreter))
              (tensor_leaves w (args_tuple operands))).
  assert (Forall (is_unwrap_batched (Interpreter.level interpreter))
            (map (fun x => EvUnwrapBatched x (Interpreter.level interpreter))
                 (tensor_leaves w (args_tuple operands)))) as HU.
  { apply Forall_fmap, Forall_forall. intros x _. by exists x. }
  destruct (pytree.tree_all _ in_dims).
  - rewrite events_with. simpl. rewrite Hstack.
    eexists _, []. split; [by rewrite app_nil_r|]. split; [done|].
    split; [|constructor]. by apply Hrec.
  - rewrite events_bind, events_with. simpl. rewrite Hstack, events_invoke.
    destruct (outcome_of _) as [[uout out_dims]| |].
    + rewrite events_bind.
      eexists [_], _. split; [reflexivity|]. split; [done|].
      split; [repeat constructor; by eexists _, _|].
      apply Forall_app. split; [apply events_wrap_batched|].
      destruct (outcome_of _); [|constructor..].
      rewrite events_preserve_object_identity. constructor.
    + eexists [_], []. split; [reflexivity|]. split; [done|].
      split; [repeat constructor; by eexists _, _|constructor].
    + eexists [_], []. split; [reflexivity|]. split; [done|].
      split; [repeat constructor; by eexists _, _|constructor].
Qed.

(** The kinds of the calls that a Grad layer on top of a Vmap layer
    records, in their order, whatever the descriptor does. *)
Lemma nested_grad_vmap_kinds depth autograd_function operands w g v :
  interpreter_stack w = [g; v] ->
  Interpreter.key g = Grad ->
  Interpreter.key v = Vmap ->
  exists U1 C W1 W2 T,
    events_of (custom_function_call (S (S (S depth))) autograd_function operands w) =
      EvRule Grad (Interpreter.level g) ::
      map (fun x => EvUnwrapForGrad x (Interpreter.level g))
          (tensor_leaves w (args_tuple operands)) ++
      EvRule Vmap (Interpreter.level v) :: U1 ++ C ++ W1 ++ W2 ++ T /\
    Forall (is_unwrap_batched (Interpreter.level v)) U1 /\
    Forall is_capability C /\
    Forall (is_add_batch_dim (Interpreter.level v)) W1 /\
    Forall (is_wrap_for_grad (Interpreter.level g)) W2 /\
    Forall is_capability T.
Proof.
  intros Hstack Hg Hv.
  destruct (events_grad_rule (custom_function_call (S (S depth))) g [v]
              autograd_function operands w Hstack)
    as (u & wI & W2 & T & HwI & Hev & HW2 & HT).
  destruct (events_vmap_rule (custom_function_call (S depth)) v []
              autograd_function (star u) wI HwI)
    as (U1 & C & W1 & Hev1 & HU1 & HC & HW1).
  { intros operands' w' Hw'. simpl.
    unfold _are_functorch_transforms_active. rewrite Hw', events_invoke.
    repeat constructor. by eexists _, _. }
  exists U1, C, W1, W2, T. split; [|done].
  change (custom_function_call (S (S (S depth))) autograd_function operands w)
    with (if _are_functorch_transforms_active w
          then PyOperator_call (custom_function_call (S (S depth)))
                               autograd_function operands w
          else invoke CapApply autograd_function
                      (Function.apply autograd_function operands) w).
  unfold _are_functorch_transforms_active, PyOperator_call. rewrite Hstack.
  rewrite bind_tell, Hg. cbn [events_of functorch_table app].
  f_equal. rewrite Hev. f_equal.
  change (custom_function_call (S (S depth)) autograd_function (star u) wI)
    with (if _are_functorch_transforms_active wI
          then PyOperator_call (custom_function_call (S depth))
                               autograd_function (star u) wI
          else invoke CapApply autograd_function
                      (Function.apply autograd_function (star u)) wI).
  unfold _are_functorch_transforms_active, PyOperator_call. rewrite HwI.
  rewrite bind_tell, Hv. cbn [events_of functorch_table app].
  rewrite Hev1. cbn [app]. f_equal. by rewrite <- !app_assoc.
Qed.

(* ===================================================================== *)
(** ** The statements at work on the example state *)
(* ===================================================================== *)

(** C5, as the specification words it, fails.  [MyFn] under the Vmap
    interpreter of level 1, on the batched operand 2: the capability returns
    its unwrapped input 1, which is wrapped into the new object 7.  The code
    finds the unwrapped output 1 among the unwrapped inputs and returns the
    original operand 2.  Comparing the wrapped output 7 with the wrapped
    input 2 finds nothing and would return 7, a rewrapped copy. *)
Lemma vmap_identity_step_compares_unwrapped :
  outcome_of (custom_function_call_vmap (custom_function_call 1) Demo.vmap1
                Demo.MyFn [Leaf 2%positive] (Demo.world_with [Demo.vmap1]))
    = Ok (Leaf 2%positive) /\
  outcome_of (preserve_object_identity
                (Leaf 7%positive) (args_tuple [Leaf 2%positive])
                (Leaf 1%positive) (args_tuple [Leaf 1%positive])
                Demo.world_after_wrap)
    = Ok (Leaf 2%positive) /\
  outcome_of (preserve_object_identity_comparing_wrapped
                (Leaf 7%positive) (args_tuple [Leaf 2%positive])
                Demo.world_after_wrap)
    = Ok (Leaf 7%positive) /\
  preserve_object_identity
    (Leaf 7%positive) (args_tuple [Leaf 2%positive])
    (Leaf 1%positive) (args_tuple [Leaf 1%positive]) Demo.world_after_wrap
  <> preserve_object_identity_comparing_wrapped
       (Leaf 7%positive) (args_tuple [Leaf 2%positive]) Demo.world_after_wrap.
Proof.
  split; [vm_compute; reflexivity|].
  split; [vm_compute; reflexivity|].
  split; [vm_compute; reflexivity|].
  intros H. apply (f_equal outcome_of) in H. vm_compute in H. discriminate H.
Qed.

Lemma wrap_outputs_maintaining_identity_spec_witness :
  live (Demo.world_with [])
       (Node KTuple [Leaf 1%positive; Leaf 5%positive; Leaf 4%positive]) /\
  length (pytree.leaves (Node KTuple [Leaf 1%positive])) =
  length (pytree.leaves (Node KTuple [Leaf 6%positive])) /\
  exists result w' evs,
    wrap_outputs_maintaining_identity
      (Node KTuple [Leaf 1%positive; Leaf 5%positive; Leaf 4%positive])
      (Node KTuple [Leaf 1%positive]) (Node KTuple [Leaf 6%positive]) 2
      (Demo.world_with []) = Res (Ok result) w' evs /\
    pytree.spec_of result =
    pytree.spec_of (Node KTuple [Leaf 1%positive; Leaf 5%positive; Leaf 4%positive]).
Proof.
  assert (live (Demo.world_with [])
            (Node KTuple [Leaf 1%positive; Leaf 5%positive; Leaf 4%positive])) as Hlive.
  { unfold live. simpl.
    repeat (constructor; [eexists; vm_compute; reflexivity|]). constructor. }
  split; [exact Hlive|]. split; [reflexivity|].
  destruct (wrap_outputs_maintaining_identity_spec
              (Node KTuple [Leaf 1%positive; Leaf 5%positive; Leaf 4%positive])
              (Node KTuple [Leaf 1%positive]) (Node KTuple [Leaf 6%positive]) 2
              (Demo.world_with []) Hlive eq_refl)
    as (result & w' & evs & Hrun & Hspec & _).
  exists result, w', evs. split; [exact Hrun|exact Hspec].
Defined.

Lemma no_transform_passthrough_witness :
  _are_functorch_transforms_active (Demo.world_with []) = false /\
  custom_function_call 1 Demo.MyFn [Leaf 1%positive] (Demo.world_with []) =
    Res (Ok (Leaf 1%positive)) (Demo.world_with [])
        [EvCapability CapApply "MyFn"].
Proof.
  split; [reflexivity|].
  exact (no_transform_passthrough 0 Demo.MyFn [Leaf 1%positive]
           (Demo.world_with []) eq_refl).
Defined.

Lemma vmap_fast_path_witness :
  Function.vmap Demo.MyFn = Some Demo.first_vmap /\
  custom_function_call_vmap (custom_function_call 1) Demo.vmap1 Demo.MyFn
    [Leaf 1%positive; Leaf 4%positive] (Demo.world_with [Demo.vmap1]) =
  (let r := with_ (lower Demo.vmap1)
              (custom_function_call 1 Demo.MyFn [Leaf 1%positive; Leaf 4%positive])
              (Demo.world_with [Demo.vmap1]) in
   Res (outcome_of r) (world_of r)
       (map (fun x => EvUnwrapBatched x (Interpreter.level Demo.vmap1))
            (tensor_leaves (Demo.world_with [Demo.vmap1])
                           (args_tuple [Leaf 1%positive; Leaf 4%positive])) ++
        events_of r)).
Proof.
  split; [reflexivity|].
  apply (vmap_fast_path (custom_function_call 1) Demo.vmap1 Demo.MyFn
           [Leaf 1%positive; Leaf 4%positive] (Demo.world_with [Demo.vmap1])
           Demo.first_vmap eq_refl).
  simpl. repeat (constructor; [intros _; vm_compute; reflexivity|]). constructor.
Defined.

Lemma Generated_forward_spec_witness :
  interpreter_stack (Demo.world_with [Demo.grad2; Demo.vmap1]) =
    Demo.grad2 :: [Demo.vmap1] /\
  exists unwrapped_operands,
    pytree.spec_of unwrapped_operands = pytree.spec_of (args_tuple [Leaf 3%positive]) /\
    pytree.leaves unwrapped_operands = [2%positive].
Proof.
  split; [reflexivity|].
  destruct (Generated_forward_spec (custom_function_call 2) Demo.grad2 Demo.MyFn
              [Leaf 3%positive] (Demo.world_with [Demo.grad2; Demo.vmap1])
              [Demo.vmap1] eq_refl)
    as (u & Hspec & Hleaves & _).
  exists u. split; [exact Hspec|]. exact (eq_trans Hleaves eq_refl).
Defined.

Lemma vmap_general_path_preserves_identity_witness :
  exists result,
    custom_function_call_vmap (custom_function_call 1) Demo.vmap1 Demo.MyFn
      [Leaf 2%positive] (Demo.world_with [Demo.vmap1]) =
      Res (Ok result) Demo.world_after_wrap
          ([EvUnwrapBatched 2%positive 1] ++ [EvCapability CapVmap "MyFn"] ++
           [EvAddBatchDim 1%positive 0 1]) /\
    pytree.spec_of result = pytree.spec_of (Leaf 1%positive).
Proof.
  destruct (vmap_general_path_preserves_identity
              (custom_function_call 1) Demo.vmap1 Demo.MyFn [Leaf 2%positive]
              (Demo.world_with [Demo.vmap1]) Demo.first_vmap
              (Node KTuple [Leaf 1%positive]) (Node KTuple [pytree.Leaf (Some 0%Z)])
              [EvUnwrapBatched 2%positive 1]
              (Leaf 1%positive) (pytree.Leaf (Some 0%Z))
              (Demo.world_with [Demo.vmap1]) [EvCapability CapVmap "MyFn"]
              (Leaf 7%positive) Demo.world_after_wrap
              [EvAddBatchDim 1%positive 0 1])
    as (result & Hrun & Hspec & _).
  - reflexivity.
  - vm_compute. reflexivity.
  - vm_compute. reflexivity.
  - vm_compute. reflexivity.
  - vm_compute. reflexivity.
  - exists result. split; [exact Hrun|exact Hspec].
Defined.

Lemma vmap_rule_requires_vmap_witness :
  Function.vmap Demo.NoVmap = None /\
  custom_function_call_vmap (custom_function_call 1) Demo.vmap1 Demo.NoVmap
    [Leaf 2%positive] (Demo.world_with [Demo.vmap1]) =
    Res (Raise (RuntimeError (vmap_missing_message Demo.NoVmap)))
        (Demo.world_with [Demo.vmap1]) [] /\
  custom_function_call 1 Demo.NoVmap [Leaf 1%positive]
    (Demo.world_with [Demo.vmap1]) =
    Res (Raise (RuntimeError (vmap_missing_message Demo.NoVmap)))
        (Demo.world_with [Demo.vmap1]) [EvRule Vmap 1].
Proof.
  split; [reflexivity|].
  split.
  - exact (proj1 (vmap_rule_requires_vmap (custom_function_call 1) Demo.vmap1
                    Demo.NoVmap [Leaf 2%positive]
                    (Demo.world_with [Demo.vmap1]) eq_refl)).
  - exact (proj2 (proj2 (vmap_rule_requires_vmap (custom_function_call 1)
                    Demo.vmap1 Demo.NoVmap [Leaf 1%positive]
                    (Demo.world_with [Demo.vmap1]) eq_refl))
                 0%nat [] eq_refl eq_refl).
Defined.

Lemma grad_rule_restores_flag_and_stack_witness :
  balanced Demo.Failing /\
  interpreter_stack (Demo.world_with [Demo.grad2; Demo.vmap1]) =
    Demo.grad2 :: [Demo.vmap1] /\
  (length [Demo.vmap1] < 2)%nat /\
  (let r := custom_function_call_grad (custom_function_call 2) Demo.grad2
              Demo.Failing [Leaf 3%positive]
              (Demo.world_with [Demo.grad2; Demo.vmap1]) in
   outcome_of r <> OutOfDepth /\
   autograd_function_allowed (world_of r) = false /\
   interpreter_stack (world_of r) = [Demo.grad2; Demo.vmap1]).
Proof.
  assert (balanced Demo.Failing) as Hbalanced.
  { unfold balanced, keeps_stack. simpl.
    split; [reflexivity|]. split; [reflexivity|]. split; [reflexivity|].
    split; [reflexivity|]. intros vmap Hvmap. discriminate Hvmap. }
  assert (length [Demo.vmap1] < 2)%nat as Hdepth by (simpl; lia).
  split; [exact Hbalanced|]. split; [reflexivity|]. split; [exact Hdepth|].
  exact (proj1 (grad_rule_restores_flag_and_stack 2 Demo.grad2 [Demo.vmap1]
                  Demo.Failing [Leaf 3%positive]
                  (Demo.world_with [Demo.grad2; Demo.vmap1])
                  Hbalanced eq_refl Hdepth)).
Defined.

Lemma functionalize_rule_not_implemented_witness :
  interpreter_stack (Demo.world_with [Demo.func1]) = Demo.func1 :: [] /\
  Interpreter.key Demo.func1 = Functionalize /\
  custom_function_call 1 Demo.MyFn [Leaf 1%positive]
    (Demo.world_with [Demo.func1]) =
    Res (Raise (RuntimeError "NYI: Functionalize rule for custom_function_call"))
        (Demo.world_with [Demo.func1]) [EvRule Functionalize 1].
Proof.
  split; [reflexivity|]. split; [reflexivity|].
  exact (proj2 (proj2 (functionalize_rule_not_implemented (custom_function_call 0)
                  Demo.func1 Demo.MyFn [Leaf 1%positive]
                  (Demo.world_with [Demo.func1])))
               0%nat [] eq_refl eq_refl).
Defined.

Lemma later_pairs_overwrite_earlier_witness :
  live (Demo.world_with []) (Leaf 1%positive) /\
  exists result w' evs,
    wrap_outputs_maintaining_identity
      (Leaf 1%positive) (Node KTuple [Leaf 1%positive; Leaf 1%positive])
      (Node KTuple [Leaf 6%positive; Leaf 1%positive]) 2 (Demo.world_with [])
      = Res (Ok result) w' evs /\
    pytree.leaves result !! 0%nat = Some 1%positive.
Proof.
  assert (live (Demo.world_with []) (Leaf 1%positive)) as Hlive.
  { unfold live. simpl. constructor; [eexists; vm_compute; reflexivity|constructor]. }
  split; [exact Hlive|].
  apply (proj1 (proj2 later_pairs_overwrite_earlier)
           (Leaf 1%positive) (Node KTuple [Leaf 1%positive; Leaf 1%positive])
           (Node KTuple [Leaf 6%positive; Leaf 1%positive]) 2%Z (Demo.world_with [])
           0%nat 1%nat 1%positive 1%positive Hlive eq_refl eq_refl eq_refl eq_refl).
  intros j' o' Hlt Hj'. destruct j' as [|[|j']]; [lia|lia|discriminate Hj'].
Defined.

(* ===================================================================== *)
(** ** Unwrapping a tree of batched operands *)
(* ===================================================================== *)

(** X1.  [unwrap_batched(args, level)] returns normally for every tree, leaves
    the state as it is and calls [_unwrap_batched] on the Tensor leaves
    only, in order.  The unwrapped tree has the shape of [args]; a Tensor
    leaf is replaced by what [_unwrap_batched] gives, with its batch
    dimension, and any other leaf is kept, with the dimension [None].  The
    tree of dimensions has the shape of [args] too, unless [args] has no
    leaf at all: then [args] itself is returned with the empty tuple. *)
Theorem unwrap_batched_spec (args : pytree) level w :
  exists unwrapped in_dims,
    unwrap_batched args level w =
      Res (Ok (unwrapped, in_dims)) w
          (map (fun x => EvUnwrapBatched x level) (tensor_leaves w args)) /\
    pytree.spec_of unwrapped = pytree.spec_of args /\
    pytree.leaves unwrapped =
      map (fun x => if isinstance_Tensor w x then (unwrapped_batched w x level).1 else x)
          (pytree.leaves args) /\
    pytree.leaves in_dims =
      map (fun x => if isinstance_Tensor w x then (unwrapped_batched w x level).2 else None)
          (pytree.leaves args) /\
    (pytree.leaves args <> [] -> pytree.spec_of in_dims = pytree.spec_of args) /\
    (pytree.leaves args = [] -> unwrapped = args /\ in_dims = pytree.Node KTuple []).
Proof.
  unfold unwrap_batched. simpl.
  destruct (length (pytree.leaves args) =? 0)%nat eqn:Hlen.
  - apply Nat.eqb_eq, nil_length_inv in Hlen.
    exists args, (pytree.Node KTuple []). unfold tensor_leaves. rewrite Hlen.
    repeat split; done.
  - apply Nat.eqb_neq in Hlen.
    set (g := fun x => if isinstance_Tensor w x
                       then unwrapped_batched w x level else (x, None)).
    destruct (tree_unflatten_exact (map fst (map g (pytree.leaves args)))
                (pytree.spec_of args) w) as (u & Hu & Hul & Hus).
    { by rewrite !length_map, num_leaves_spec_of. }
    destruct (tree_unflatten_exact (map snd (map g (pytree.leaves args)))
                (pytree.spec_of args) w) as (d & Hd & Hdl & Hds).
    { by rewrite !length_map, num_leaves_spec_of. }
    exists u, d. split.
    { erewrite bind_Ok.
      2:{ apply (mapM_pure _ g
                   (fun x => if isinstance_Tensor w x
                             then [EvUnwrapBatched x level] else [])).
          intros x _. unfold g, _unwrap_batched, ret.
          by destruct (isinstance_Tensor w x). }
      erewrite bind_Ok by exact Hu. erewrite bind_Ok by exact Hd. simpl.
      rewrite app_nil_r. f_equal.
      apply (concat_map_filter (isinstance_Tensor w)
               (fun x => EvUnwrapBatched x level)). }
    split; [exact Hus|].
    split.
    { rewrite Hul, map_map. apply map_ext. intros x. unfold g.
      by destruct (isinstance_Tensor w x). }
    split.
    { rewrite Hdl, map_map. apply map_ext. intros x. unfold g.
      by destruct (isinstance_Tensor w x). }
    split; [intros _; exact Hds|].
    intros Hnil. rewrite Hnil in Hlen. done.
Qed.

(* ===================================================================== *)
(** ** Batching a tree of outputs *)
(* ===================================================================== *)

Lemma broadcast_Node {A} k (ts : list (pytree.tree A)) k' specs :
  _broadcast_to_and_flatten (pytree.Node k ts) (pytree.Node k' specs) =
    if bool_decide (k = k') && (length ts =? length specs)%nat
    then broadcast_children ts specs else None.
Proof.
  simpl. destruct (bool_decide (k = k') && (length ts =? length specs)%nat); [|done].
  generalize specs. clear specs.
  induction ts as [|t ts IH]; intros [|sp specs]; simpl; try done.
  destruct (_broadcast_to_and_flatten t sp); [|done]. by rewrite IH.
Qed.

(** A tree that broadcasts gives one value for every leaf of the
    descriptor. *)
Lemma broadcast_length {A} (t : pytree.tree A) : forall spec flat,
  _broadcast_to_and_flatten t spec = Some flat ->
  length flat = pytree.num_leaves spec.
Proof.
  induction t as [a|k ts IH] using tree_ind_nested; intros spec flat H.
  - simpl in H. injection H as <-. by rewrite length_replicate.
  - destruct spec as [[]|k' specs]; [done|].
    rewrite broadcast_Node in H.
    destruct (bool_decide (k = k')); [|done]. simpl in H.
    destruct (length ts =? length specs)%nat eqn:Hlen; [|done].
    apply Nat.eqb_eq in Hlen. unfold pytree.num_leaves. simpl.
    revert specs flat Hlen H.
    induction IH as [|t ts Ht _ IHts]; intros [|sp specs] flat Hlen H;
      simpl in *; try done.
    + by injection H as <-.
    + destruct (_broadcast_to_and_flatten t sp) as [f1|] eqn:E1; [|done].
      destruct (broadcast_children ts specs) as [f2|] eqn:E2; [|done].
      injection H as <-. rewrite !length_app.
      rewrite (Ht sp f1 E1). unfold pytree.num_leaves.
      f_equal. apply IHts; [lia|done].
Qed.

Lemma batched_grown level w w1 w' ps ys :
  grown w w1 -> grown w1 w' ->
  Forall2 (batched level w1 w') ps ys ->
  Forall2 (batched level w w') ps ys.
Proof.
  intros Hg Hg' H. induction H as [|p y ps ys Hpy _ IH]; constructor; [|done].
  unfold batched in *. destruct (p.1); [|done].
  destruct Hpy as [Hy Hy']. split; [|done]. by eapply grown_lookup_None.
Qed.

Lemma isinstance_Tensor_live w x : isinstance_Tensor w x = true -> is_Some (heap w !! x).
Proof. unfold isinstance_Tensor. destruct (heap w !! x); [by eexists|done]. Qed.

(** The loop of [_create_batched_inputs] when every value that has a
    dimension is a Tensor. *)
Lemma mapM_create_batched level ps : forall w,
  Forall (fun p : option Z * ref => is_Some p.1 -> isinstance_Tensor w p.2 = true) ps ->
  exists ys w',
    mapM (fun p : option Z * ref =>
            match p.1 with
            | None => ret p.2
            | Some in_dim => _add_batch_dim p.2 in_dim level
            end) ps w = Res (Ok ys) w' (batched_events level ps) /\
    grown w w' /\
    Forall2 (batched level w w') ps ys.
Proof.
  induction ps as [|[d x] ps IH]; intros w Hps.
  - exists [], w. repeat split; try done; constructor.
  - apply Forall_cons in Hps as [Hp Hps]. simpl in Hp.
    assert (exists y w1,
      match d with
      | None => ret x
      | Some in_dim => _add_batch_dim x in_dim level
      end w = Res (Ok y) w1 (batched_events level [(d, x)]) /\ grown w w1 /\
      forall w', grown w1 w' -> batched level w w' (d, x) y)
      as (y & w1 & Hrun & Hg & Hy).
    { unfold batched. simpl. destruct d as [in_dim|].
      - unfold _add_batch_dim. rewrite Hp by done.
        destruct (alloc_grown (BatchedTensor x in_dim level) w)
          as (r & Hr & Hnone & Hg).
        eexists r, _. rewrite bind_tell, Hr. simpl.
        split; [done|]. split; [done|]. intros w' Hg'. split; [done|].
        eapply grown_lookup; [exact Hg'|]. simpl. apply lookup_insert_eq.
      - exists x, w. split; [done|]. split; [apply grown_refl|done]. }
    destruct (IH w1) as (ys & w' & Hrun' & Hg' & Hys).
    { eapply Forall_impl; [exact Hps|]. intros p Hp' Hsome. simpl in *.
      specialize (Hp' Hsome).
      by rewrite (grown_isinstance_Tensor w w1 _ Hg (isinstance_Tensor_live _ _ Hp')). }
    exists (y :: ys), w'. simpl.
    erewrite bind_Ok by exact Hrun. erewrite bind_Ok by exact Hrun'.
    simpl. rewrite app_nil_r. split.
    { f_equal. unfold batched_events. simpl. by destruct d. }
    split; [by eapply grown_trans|].
    constructor; [by apply Hy|]. by eapply batched_grown.
Qed.

(** X2.  [wrap_batched(args, bdims, level)] when [bdims] broadcasts to the shape
    of [args] and every value that gets a dimension is a Tensor: the result
    has the shape of [args]; a value with the dimension [None] is returned
    as it is, and a value with a dimension is batched into a new object that
    holds this value, this dimension and the level.  Nothing else changes:
    the objects that were there, the interpreter stack and the flags are
    untouched; the batching primitive is called for the values with a
    dimension only, in order. *)
Theorem wrap_batched_run args bdims level w flat_bdims :
  _broadcast_to_and_flatten bdims (pytree.spec_of args) = Some flat_bdims ->
  Forall (fun p : option Z * ref => is_Some p.1 -> isinstance_Tensor w p.2 = true)
         (zip flat_bdims (pytree.leaves args)) ->
  length flat_bdims = length (pytree.leaves args) /\
  exists output w',
    wrap_batched args bdims level w =
      Res (Ok output) w'
          (batched_events level (zip flat_bdims (pytree.leaves args))) /\
    grown w w' /\
    pytree.spec_of output = pytree.spec_of args /\
    Forall2 (batched level w w') (zip flat_bdims (pytree.leaves args))
            (pytree.leaves output).
Proof.
  intros Hflat Hps.
  assert (length flat_bdims = length (pytree.leaves args)) as Hlen.
  { by rewrite (broadcast_length _ _ _ Hflat), num_leaves_spec_of. }
  split; [exact Hlen|].
  destruct (mapM_create_batched level _ w Hps) as (ys & w' & Hrun & Hg & Hys).
  destruct (tree_unflatten_exact ys (pytree.spec_of args) w')
    as (output & Hout & Hl & Hs).
  { rewrite num_leaves_spec_of, <- (Forall2_length _ _ _ Hys).
    rewrite length_zip_with. lia. }
  exists output, w'. unfold wrap_batched. simpl. rewrite Hflat.
  unfold _create_batched_inputs. erewrite bind_Ok by exact Hrun. rewrite Hout.
  simpl. rewrite app_nil_r, Hl. done.
Qed.

Lemma tree_ext {A} (t1 t2 : pytree.tree A) :
  pytree.spec_of t1 = pytree.spec_of t2 ->
  pytree.leaves t1 = pytree.leaves t2 ->
  t1 = t2.
Proof.
  intros Hs Hl.
  pose proof (tree_unflatten_flatten t1 (World ∅ [] false false false)) as H1.
  pose proof (tree_unflatten_flatten t2 (World ∅ [] false false false)) as H2.
  rewrite Hs, Hl, H2 in H1. by injection H1.
Qed.

Lemma Forall2_zip_back {A B C} (f : C -> B) (g : C -> A) (ds : list A) :
  forall (xs : list B) (ys : list C),
    length ds = length xs ->
    Forall2 (fun (p : A * B) y => f y = p.2 /\ g y = p.1) (zip ds xs) ys ->
    map f ys = xs /\ map g ys = ds.
Proof.
  induction ds as [|d ds IH]; intros [|x xs] ys Hlen H; simpl in *; try done.
  - inversion H. done.
  - inversion H as [|p y ps ys' [Hf Hg] Hrest]; subst. simpl in *.
    destruct (IH xs ys') as [-> ->]; [lia|done|]. by rewrite Hf, Hg.
Qed.

(** X3.  Unwrapping what [wrap_batched] has made gives back what was wrapped.
    Take live values [args] and dimensions [bdims] that broadcast to them,
    where a value with a dimension is a Tensor and a value without one is
    not batched at [level] already.  Then [unwrap_batched], at the same
    level and in the state that [wrap_batched] leaves, returns the very tree
    [args], and the dimensions that were given, one for each leaf. *)
Theorem unwrap_batched_wrap_batched args bdims level w flat_bdims output w' evs :
  live w args ->
  _broadcast_to_and_flatten bdims (pytree.spec_of args) = Some flat_bdims ->
  Forall (fun p : option Z * ref =>
            match p.1 with
            | Some _ => isinstance_Tensor w p.2 = true
            | None => (unwrapped_batched w p.2 level).2 = None
            end)
         (zip flat_bdims (pytree.leaves args)) ->
  wrap_batched args bdims level w = Res (Ok output) w' evs ->
  exists in_dims e,
    unwrap_batched output level w' = Res (Ok (args, in_dims)) w' e /\
    pytree.leaves in_dims = flat_bdims.
Proof.
  intros Hlive Hflat Hps Hwrap.
  assert (length flat_bdims = length (pytree.leaves args)) as Hlen.
  { by rewrite (broadcast_length _ _ _ Hflat), num_leaves_spec_of. }
  destruct (mapM_create_batched level (zip flat_bdims (pytree.leaves args)) w)
    as (ys & w1 & Hrun & Hg & Hys).
  { eapply Forall_impl; [exact Hps|]. intros [d x] Hp [d' Hd]. simpl in *.
    by rewrite Hd in Hp. }
  destruct (tree_unflatten_exact ys (pytree.spec_of args) w1)
    as (output1 & Hout & Hl & Hs).
  { rewrite num_leaves_spec_of, <- (Forall2_length _ _ _ Hys).
    rewrite length_zip_with. lia. }
  assert (output = output1 /\ w' = w1) as [-> ->].
  { revert Hwrap. unfold wrap_batched. simpl. rewrite Hflat.
    unfold _create_batched_inputs. erewrite bind_Ok by exact Hrun. rewrite Hout.
    simpl. by intros [= <- <- _]. }
  clear Hwrap Hrun Hout.
  destruct (unwrap_batched_run output1 level w1)
    as (unwrapped & in_dims & Hun & Hus & Hul & Hdl).
  assert (Forall2 (fun (p : option Z * ref) y =>
            (if isinstance_Tensor w1 y then (unwrapped_batched w1 y level).1 else y) = p.2 /\
            (if isinstance_Tensor w1 y then (unwrapped_batched w1 y level).2 else None) = p.1)
          (zip flat_bdims (pytree.leaves args)) ys) as Hback.
  { assert (Forall (fun p : option Z * ref => is_Some (heap w !! p.2))
              (zip flat_bdims (pytree.leaves args))) as Hlive'.
    { apply Forall_forall. intros [d x] Hin. simpl.
      apply elem_of_zip_r in Hin. unfold live in Hlive.
      by eapply Forall_forall in Hlive. }
    clear Hl Hul Hdl Hlen.
    induction Hys as [|[d x] y ps ys' Hpy _ IH]; [constructor|].
    apply Forall_cons in Hps as [Hp Hps]. apply Forall_cons in Hlive' as [Hx Hlive'].
    constructor; [|by apply IH].
    unfold batched in Hpy. simpl in *. destruct d as [bdim|].
    - destruct Hpy as [_ Hy]. unfold isinstance_Tensor, unwrapped_batched.
      rewrite Hy, Z.eqb_refl. done.
    - subst y. destruct Hx as [o Ho].
      pose proof (grown_lookup w w1 x o Hg Ho) as Ho1.
      unfold isinstance_Tensor, unwrapped_batched in *. rewrite Ho1.
      rewrite Ho in Hp. destruct o as [| |v d l| |]; try done.
      destruct (l =? level)%Z; done. }
  destruct (Forall2_zip_back _ _ _ _ _ Hlen Hback) as [Hx Hd].
  assert (unwrapped = args) as ->.
  { apply tree_ext; [by rewrite Hus, Hs|]. by rewrite Hul, Hl. }
  eexists in_dims, _. split; [exact Hun|]. by rewrite Hdl, Hl.
Qed.

(** X4.  [wrap_batched] asserts that the dimensions fit the values.  Dimensions
    given as a container fail the assertion when the values are a single
    leaf, or a container of another type or with another number of children:
    [AssertionError] is raised, nothing is batched and the state is as it
    was. *)
Theorem wrap_batched_assertion args k ds level w :
  match args with
  | pytree.Leaf _ => True
  | pytree.Node k' ts => k <> k' \/ length ds <> length ts
  end ->
  wrap_batched args (pytree.Node k ds) level w = Res (Raise AssertionError) w [].
Proof.
  intros H.
  assert (_broadcast_to_and_flatten (pytree.Node k ds) (pytree.spec_of args) = None)
    as Hb.
  { destruct args as [x|k' ts]; [done|].
    change (pytree.spec_of (pytree.Node k' ts))
      with (pytree.Node k' (map pytree.spec_of ts)).
    rewrite broadcast_Node, length_map.
    destruct H as [Hk|Hlen].
    - by rewrite bool_decide_eq_false_2.
    - apply Nat.eqb_neq in Hlen. rewrite Hlen. by rewrite andb_false_r. }
  unfold wrap_batched, pytree.tree_flatten. by rewrite Hb.
Qed.

(** The call of the [vmap] capability under the lowered interpreter. *)
Lemma lowered_vmap_call {A} interpreter rest f (u : user A) w :
  interpreter_stack w = interpreter :: rest ->
  with_ (lower interpreter) (invoke CapVmap f u) w =
    let r := u (set_interpreter_stack rest w) in
    Res (match r.1 with inl a => Ok a | inr e => Raise e end)
        (set_interpreter_stack (interpreter :: interpreter_stack r.2) r.2)
        [EvCapability CapVmap (Function.__name__ f)].
Proof.
  intros Hstack. unfold with_, lower, invoke. simpl. rewrite Hstack.
  rewrite bind_tell. unfold lift.
  by destruct (u (set_interpreter_stack rest w)) as [[a|e] wu].
Qed.

(** X5.  When the [vmap] capability raises, the Vmap rule raises the same
    exception: nothing is batched, the identity-preservation step is not
    reached, and the interpreter that was lowered for the call is back on the
    stack. *)
Theorem vmap_rule_capability_raises rec interpreter rest autograd_function operands w
    vmap unwrapped_operands in_dims e1 e wu :
  Function.vmap autograd_function = Some vmap ->
  interpreter_stack w = interpreter :: rest ->
  unwrap_batched (args_tuple operands) (Interpreter.level interpreter) w =
    Res (Ok (unwrapped_operands, in_dims)) w e1 ->
  pytree.tree_all (fun dim : option Z => bool_decide (dim = None)) in_dims = false ->
  vmap {| batch_size := Interpreter.batch_size interpreter |} in_dims
       (star unwrapped_operands) (set_interpreter_stack rest w) = (inr e, wu) ->
  custom_function_call_vmap rec interpreter autograd_function operands w =
    Res (Raise e) (set_interpreter_stack (interpreter :: interpreter_stack wu) wu)
        (e1 ++ [EvCapability CapVmap (Function.__name__ autograd_function)]).
Proof.
  intros Hvmap Hstack Hunwrap Hdims Hcall.
  unfold custom_function_call_vmap. rewrite Hvmap.
  erewrite bind_Ok by exact Hunwrap. cbv beta iota. rewrite Hdims.
  rewrite (bind_Raise _ _ w e
             (set_interpreter_stack (interpreter :: interpreter_stack wu) wu)
             [EvCapability CapVmap (Function.__name__ autograd_function)]);
    [done|].
  by rewrite (lowered_vmap_call interpreter rest _ _ w Hstack), Hcall.
Qed.

(** X6.  When the [vmap] capability returns dimensions that do not fit the
    outputs it returns, the Vmap rule raises [AssertionError]: nothing is
    batched, and the interpreter that was lowered for the call is back on
    the stack. *)
Theorem vmap_rule_out_dims_mismatch rec interpreter rest autograd_function operands w
    vmap unwrapped_operands in_dims e1 unwrapped_output out_dims wu :
  Function.vmap autograd_function = Some vmap ->
  interpreter_stack w = interpreter :: rest ->
  unwrap_batched (args_tuple operands) (Interpreter.level interpreter) w =
    Res (Ok (unwrapped_operands, in_dims)) w e1 ->
  pytree.tree_all (fun dim : option Z => bool_decide (dim = None)) in_dims = false ->
  vmap {| batch_size := Interpreter.batch_size interpreter |} in_dims
       (star unwrapped_operands) (set_interpreter_stack rest w) =
    (inl (unwrapped_output, out_dims), wu) ->
  _broadcast_to_and_flatten out_dims (pytree.spec_of unwrapped_output) = None ->
  custom_function_call_vmap rec interpreter autograd_function operands w =
    Res (Raise AssertionError)
        (set_interpreter_stack (interpreter :: interpreter_stack wu) wu)
        (e1 ++ [EvCapability CapVmap (Function.__name__ autograd_function)]).
Proof.
  intros Hvmap Hstack Hunwrap Hdims Hcall Hfit.
  unfold custom_function_call_vmap. rewrite Hvmap.
  erewrite bind_Ok by exact Hunwrap. cbv beta iota. rewrite Hdims.
  rewrite (bind_Ok _ _ w (unwrapped_output, out_dims)
             (set_interpreter_stack (interpreter :: interpreter_stack wu) wu)
             [EvCapability CapVmap (Function.__name__ autograd_function)]).
  2:{ by rewrite (lowered_vmap_call interpreter rest _ _ w Hstack), Hcall. }
  cbv beta iota.
  rewrite (bind_Raise _ _ _ AssertionError
             (set_interpreter_stack (interpreter :: interpreter_stack wu) wu) []).
  2:{ unfold wrap_batched, pytree.tree_flatten. by rewrite Hfit. }
  reflexivity.
Qed.

(* ===================================================================== *)
(** ** More on the identity-preservation step of the Vmap rule *)
(* ===================================================================== *)

Lemma tree_unflatten_mismatch {A} (vals : list A) spec w :
  length vals <> pytree.num_leaves spec ->
  pytree.tree_unflatten vals spec w =
    Res (Raise (ValueError "tree_unflatten: wrong number of leaves")) w [].
Proof.
  intros Hlen. unfold pytree.tree_unflatten.
  destruct (pytree.rebuild spec vals) as [[t rest]|] eqn:E; [|done].
  destruct rest; [|done]. exfalso. apply Hlen.
  apply rebuild_sound in E as [<- ->]. by rewrite app_nil_r, num_leaves_spec_of.
Qed.

Lemma mapM_preserve_output us ins ps w :
  mapM (preserve_output (dict_comprehension (zip us ins))) ps w =
    Res (Ok (map (fun p : ref * ref =>
                    if isinstance_Tensor w p.1 then
                      match last_paired (zip us ins) p.2 with
                      | Some inp => inp
                      | None => p.1
                      end
                    else p.1) ps)) w [].
Proof.
  rewrite (mapM_pure _ (fun p : ref * ref =>
                    if isinstance_Tensor w p.1 then
                      match last_paired (zip us ins) p.2 with
                      | Some inp => inp
                      | None => p.1
                      end
                    else p.1) (fun _ => []) w ps).
  - f_equal. induction ps; [done|]. done.
  - intros [o u] _. unfold preserve_output. simpl.
    rewrite dict_comprehension_lookup.
    destruct (isinstance_Tensor w o); [|done]. simpl.
    by destruct (last_paired _ u).
Qed.

(** X7.  [preserve_object_identity] reads the state and never changes it, and it
    calls no collaborator.  It walks the outputs and the unwrapped outputs in
    pairs, as far as the shorter of the two goes, and rebuilds the result
    with the shape of the unwrapped outputs.  So with at least as many
    outputs as unwrapped outputs it returns a tree of that shape, and the
    outputs beyond the last unwrapped output are dropped; with fewer
    outputs, the rebuilding fails with [ValueError]. *)
Theorem preserve_object_identity_pairs outputs inputs unwrapped_outputs unwrapped_inputs w :
  let r := preserve_object_identity outputs inputs unwrapped_outputs unwrapped_inputs w in
  world_of r = w /\ events_of r = [] /\
  ((length (pytree.leaves unwrapped_outputs) <= length (pytree.leaves outputs))%nat ->
   exists result,
     outcome_of r = Ok result /\
     pytree.spec_of result = pytree.spec_of unwrapped_outputs /\
     pytree.leaves result =
       map (fun p : ref * ref =>
              if isinstance_Tensor w p.1 then
                match last_paired (zip (pytree.leaves unwrapped_inputs)
                                       (pytree.leaves inputs)) p.2 with
                | Some inp => inp
                | None => p.1
                end
              else p.1)
           (zip (pytree.leaves outputs) (pytree.leaves unwrapped_outputs))) /\
  ((length (pytree.leaves outputs) < length (pytree.leaves unwrapped_outputs))%nat ->
   exists msg, outcome_of r = Raise (ValueError msg)).
Proof.
  unfold preserve_object_identity. simpl.
  set (ps := zip (pytree.leaves outputs) (pytree.leaves unwrapped_outputs)).
  erewrite bind_Ok by apply mapM_preserve_output.
  simpl.
  destruct (decide (length (pytree.leaves unwrapped_outputs)
                    <= length (pytree.leaves outputs))%nat) as [Hle|Hlt].
  - match goal with
    | |- context [pytree.tree_unflatten ?v ?s ?w'] =>
        destruct (tree_unflatten_exact v s w') as (result & Hres & Hl & Hs)
    end.
    { rewrite length_map, num_leaves_spec_of. unfold ps.
      rewrite length_zip_with. lia. }
    rewrite Hres. simpl.
    split; [done|]. split; [done|]. split; [|lia].
    intros _. by exists result.
  - rewrite tree_unflatten_mismatch.
    2:{ rewrite length_map, num_leaves_spec_of. unfold ps.
        rewrite length_zip_with. lia. }
    simpl. split; [done|]. split; [done|]. split; [lia|].
    intros _. by eexists.
Qed.

(** X8.  When no unwrapped output is the same object as an unwrapped input,
    [preserve_object_identity] returns the wrapped outputs as they are. *)
Theorem preserve_object_identity_no_alias
    outputs inputs unwrapped_outputs unwrapped_inputs w :
  pytree.spec_of outputs = pytree.spec_of unwrapped_outputs ->
  (forall u, u ∈ pytree.leaves unwrapped_outputs ->
             u ∉ pytree.leaves unwrapped_inputs) ->
  preserve_object_identity outputs inputs unwrapped_outputs unwrapped_inputs w =
    Res (Ok outputs) w [].
Proof.
  intros Hspec Hno.
  assert (length (pytree.leaves outputs) = length (pytree.leaves unwrapped_outputs))
    as Hlen.
  { by rewrite <- (leaves_spec_of outputs), <- (leaves_spec_of unwrapped_outputs), Hspec. }
  destruct (preserve_object_identity_run outputs inputs unwrapped_outputs
              unwrapped_inputs w Hlen) as (result & Hrun & Hs & Hl).
  rewrite Hrun. do 2 f_equal. apply tree_ext; [by rewrite Hs|].
  rewrite Hl. clear Hl Hrun Hs Hspec.
  revert Hlen Hno. generalize (pytree.leaves unwrapped_outputs) as us.
  induction (pytree.leaves outputs) as [|o os IH]; intros [|u us] Hlen Hno;
    simpl in *; try done.
  f_equal.
  - destruct (isinstance_Tensor w o); [|done].
    destruct (last_paired _ u) as [inp|] eqn:E; [|done].
    exfalso. apply (Hno u); [by left|].
    apply last_paired_Some in E as (j & Hj & _).
    rewrite lookup_zip_with in Hj.
    destruct (pytree.leaves unwrapped_inputs !! j) as [u'|] eqn:Hu; [|done].
    simpl in Hj. destruct (pytree.leaves inputs !! j); [|done].
    simpl in Hj. injection Hj as -> _. by eapply list_elem_of_lookup_2.
  - apply IH; [lia|]. intros u' Hu'. apply Hno. by right.
Qed.

(* ===================================================================== *)
(** ** More on the identity-preservation helper of the Grad/Jvp rule *)
(* ===================================================================== *)

Lemma wrapped_outputs_grown d w w1 xs :
  grown w w1 ->
  Forall (fun x => is_Some (heap w !! x)) xs ->
  wrapped_outputs d w1 xs = wrapped_outputs d w xs.
Proof.
  intros Hg Hlive. unfold wrapped_outputs.
  induction Hlive as [|x xs Hx _ IH]; [done|].
  rewrite !filter_cons, IH, (grown_isinstance_Tensor w w1 x Hg Hx).
  by repeat case_decide.
Qed.

Lemma mapM_wrap_output_exact d level xs : forall w,
  Forall (fun x => is_Some (heap w !! x)) xs ->
  exists ys w',
    mapM (wrap_output d level) xs w =
      Res (Ok ys) w' (map (fun x => EvWrapForGrad x level) (wrapped_outputs d w xs)) /\
    grown w w' /\
    size (heap w') = (size (heap w) + length (wrapped_outputs d w xs))%nat.
Proof.
  induction xs as [|x xs IH]; intros w Hlive.
  - exists [], w. split; [done|]. split; [apply grown_refl|]. simpl. lia.
  - apply Forall_cons in Hlive as [Hx Hlive]. simpl.
    assert (exists y w1,
      wrap_output d level x w =
        Res (Ok y) w1 (map (fun x => EvWrapForGrad x level) (wrapped_outputs d w [x])) /\
      grown w w1 /\
      size (heap w1) = (size (heap w) + length (wrapped_outputs d w [x]))%nat)
      as (y & w1 & Hrun & Hg & Hsize).
    { unfold wrap_output, wrapped_outputs.
      destruct (isinstance_Tensor w x) eqn:Ht; cbn [negb].
      - destruct (d !! x) as [orig|] eqn:Hd.
        + exists orig, w. rewrite filter_cons_False by (intros [_ ?]; congruence).
          rewrite filter_nil.
          split; [done|]. split; [apply grown_refl|]. simpl. lia.
        + destruct (_wrap_for_grad_run x level w) as (r & Hr & Hnone & Hg).
          eexists r, _. rewrite filter_cons_True by done. rewrite filter_nil.
          split; [exact Hr|]. split; [done|]. simpl.
          rewrite map_size_insert_None by done. lia.
      - exists x, w. rewrite filter_cons_False by (intros [? _]; congruence).
        rewrite filter_nil.
        split; [done|]. split; [apply grown_refl|]. simpl. lia. }
    destruct (IH w1) as (ys & w' & Hrun' & Hg' & Hsize').
    { eapply Forall_impl; [exact Hlive|]. intros z [o Ho].
      exists o. by eapply grown_lookup. }
    rewrite (wrapped_outputs_grown d w w1 xs Hg Hlive) in Hrun', Hsize'.
    exists (y :: ys), w'.
    erewrite bind_Ok by exact Hrun. erewrite bind_Ok by exact Hrun'.
    simpl. rewrite app_nil_r. split.
    { f_equal. rewrite <- map_app. f_equal.
      unfold wrapped_outputs. by rewrite <- filter_app. }
    split; [by eapply grown_trans|].
    rewrite Hsize', Hsize.
    assert (wrapped_outputs d w (x :: xs) =
            wrapped_outputs d w [x] ++ wrapped_outputs d w xs) as ->.
    { unfold wrapped_outputs. by rewrite <- filter_app. }
    rewrite length_app. lia.
Qed.

(** X9.  [wrap_outputs_maintaining_identity] calls [_wrap_for_grad] exactly once
    for every output that is a Tensor and is not, by identity, one of the
    paired unwrapped inputs, in the order of the outputs, and for nothing
    else.  Each call makes one new object: the objects that were there are
    untouched, as are the interpreter stack and the flags, and the number of
    objects grows by the number of calls. *)
Theorem wrap_outputs_wraps_exactly outputs unwrapped_inputs orig_inputs level w :
  live w outputs ->
  exists result w',
    wrap_outputs_maintaining_identity outputs unwrapped_inputs orig_inputs level w =
      Res (Ok result) w'
          (map (fun x => EvWrapForGrad x level)
               (wrapped_outputs
                  (dict_comprehension (zip (pytree.leaves unwrapped_inputs)
                                           (pytree.leaves orig_inputs)))
                  w (pytree.leaves outputs))) /\
    grown w w' /\
    size (heap w') =
      (size (heap w) +
       length (wrapped_outputs
                 (dict_comprehension (zip (pytree.leaves unwrapped_inputs)
                                          (pytree.leaves orig_inputs)))
                 w (pytree.leaves outputs)))%nat.
Proof.
  intros Hlive. unfold wrap_outputs_maintaining_identity. simpl.
  destruct (mapM_wrap_output_exact
              (dict_comprehension (zip (pytree.leaves unwrapped_inputs)
                                       (pytree.leaves orig_inputs)))
              level (pytree.leaves outputs) w Hlive)
    as (ys & w' & Hrun & Hg & Hsize).
  destruct (mapM_wrap_output
              (dict_comprehension (zip (pytree.leaves unwrapped_inputs)
                                       (pytree.leaves orig_inputs)))
              level (pytree.leaves outputs) w Hlive)
    as (ys0 & w0 & evs0 & Hrun0 & _ & _ & Hys).
  rewrite Hrun in Hrun0. injection Hrun0 as <- <- _.
  destruct (tree_unflatten_exact ys (pytree.spec_of outputs) w')
    as (result & Hres & Hl & Hs).
  { rewrite num_leaves_spec_of. symmetry. by eapply Forall2_length. }
  exists result, w'. erewrite bind_Ok by exact Hrun. rewrite Hres. simpl.
  by rewrite app_nil_r.
Qed.

Lemma concat_map_nil {A B} (xs : list A) : concat (map (fun _ : A => @nil B) xs) = [].
Proof. by induction xs. Qed.

(** When every Tensor output is a key of the dictionary, nothing is wrapped
    and the state is left as it is. *)
Lemma wrap_outputs_all_aliased_run outputs unwrapped_inputs orig_inputs level w :
  Forall (fun x => isinstance_Tensor w x = true ->
                   is_Some (last_paired (zip (pytree.leaves unwrapped_inputs)
                                             (pytree.leaves orig_inputs)) x))
         (pytree.leaves outputs) ->
  exists result,
    wrap_outputs_maintaining_identity outputs unwrapped_inputs orig_inputs level w
      = Res (Ok result) w [] /\
    pytree.spec_of result = pytree.spec_of outputs /\
    pytree.leaves result =
      map (fun x => if isinstance_Tensor w x
                    then default x (last_paired (zip (pytree.leaves unwrapped_inputs)
                                                     (pytree.leaves orig_inputs)) x)
                    else x)
          (pytree.leaves outputs).
Proof.
  intros Hall. unfold wrap_outputs_maintaining_identity. simpl.
  set (g := fun x => if isinstance_Tensor w x
                     then default x (last_paired (zip (pytree.leaves unwrapped_inputs)
                                                      (pytree.leaves orig_inputs)) x)
                     else x).
  assert (mapM (wrap_output
                  (dict_comprehension (zip (pytree.leaves unwrapped_inputs)
                                           (pytree.leaves orig_inputs))) level)
               (pytree.leaves outputs) w =
          Res (Ok (map g (pytree.leaves outputs))) w []) as Hrun.
  { rewrite (mapM_pure _ g (fun _ => []) w (pytree.leaves outputs)).
    - f_equal. apply concat_map_nil.
    - intros x Hx. unfold wrap_output, g. rewrite dict_comprehension_lookup.
      eapply Forall_forall in Hall; [|exact Hx]. simpl in Hall.
      destruct (isinstance_Tensor w x); [|done]. simpl.
      destruct Hall as [v Hv]; [done|]. by rewrite Hv. }
  destruct (tree_unflatten_exact (map g (pytree.leaves outputs))
              (pytree.spec_of outputs) w) as (result & Hres & Hl & Hs).
  { by rewrite length_map, num_leaves_spec_of. }
  exists result. erewrite bind_Ok by exact Hrun. rewrite Hres. done.
Qed.

Lemma forward_unscope_forward_scope w interpreter rest :
  interpreter_stack w = interpreter :: rest ->
  forward_unscope w (forward_scope w) = w.
Proof.
  intros H. destruct w as [h st a g f]. simpl in H. subst st.
  reflexivity.
Qed.

(** X10.  A function that returns its inputs gets the very same objects back
    through one Grad or Jvp layer.  Let the only active interpreter be the
    one of this node, let the function return the tuple of its operands
    without touching the state, let every Tensor operand unwrap to a Tensor,
    and let distinct Tensor operands unwrap to distinct objects.  Then
    [forward] of the generated node returns the operands themselves, in the
    state it started from: the operands are unwrapped, the function is
    called, and nothing is wrapped. *)
Theorem Generated_forward_returning_inputs
    depth interpreter autograd_function operands w :
  interpreter_stack w = [interpreter] ->
  (forall ops w0, Function.apply autograd_function ops w0 = (inl (args_tuple ops), w0)) ->
  (forall x, x ∈ pytree.leaves (args_tuple operands) ->
     isinstance_Tensor w x = true ->
     isinstance_Tensor w (unwrapped_for_grad w x (Interpreter.level interpreter)) = true) ->
  (forall x y, x ∈ pytree.leaves (args_tuple operands) ->
     y ∈ pytree.leaves (args_tuple operands) ->
     isinstance_Tensor w x = true -> isinstance_Tensor w y = true ->
     unwrapped_for_grad w x (Interpreter.level interpreter) =
       unwrapped_for_grad w y (Interpreter.level interpreter) ->
     x = y) ->
  SingleLevelFunction.forward
    (Generated (custom_function_call (S depth)) interpreter autograd_function)
    operands w =
    Res (Ok (args_tuple operands)) w
        (map (fun x => EvUnwrapForGrad x (Interpreter.level interpreter))
             (tensor_leaves w (args_tuple operands)) ++
         [EvCapability CapApply (Function.__name__ autograd_function)]).
Proof.
  intros Hstack Hid Hwf Hinj.
  destruct (Generated_forward_run (custom_function_call (S depth)) interpreter
              autograd_function operands w [] Hstack) as (u & Hspec & Hleaves & Hfwd).
  rewrite Hfwd. clear Hfwd.
  assert (args_tuple (star u) = u) as Hu.
  { destruct u as [a|k ts]; [done|]. simpl in Hspec. by injection Hspec as ->. }
  assert (custom_function_call (S depth) autograd_function (star u) (forward_scope w) =
          Res (Ok u) (forward_scope w)
              [EvCapability CapApply (Function.__name__ autograd_function)]) as ->.
  { change (custom_function_call (S depth) autograd_function (star u) (forward_scope w))
      with (if _are_functorch_transforms_active (forward_scope w)
            then PyOperator_call (custom_function_call depth)
                                 autograd_function (star u) (forward_scope w)
            else invoke CapApply autograd_function
                        (Function.apply autograd_function (star u)) (forward_scope w)).
    unfold _are_functorch_transforms_active, forward_scope. simpl. rewrite Hstack. simpl.
    unfold invoke. rewrite bind_tell. unfold lift. rewrite Hid, Hu. reflexivity. }
  cbn [outcome_of world_of events_of].
  rewrite (forward_unscope_forward_scope w interpreter [] Hstack).
  set (level := Interpreter.level interpreter) in *.
  set (ops := pytree.leaves (args_tuple operands)) in *.
  assert (length (pytree.leaves u) = length ops) as Hlen.
  { by rewrite Hleaves, length_map. }
  destruct (wrap_outputs_all_aliased_run u u (args_tuple operands) level w)
    as (result & Hrun & Hs & Hl).
  { apply Forall_forall. intros x Hx _. fold ops.
    destruct (last_paired (zip (pytree.leaves u) ops) x) eqn:E; [by eexists|].
    exfalso. apply (last_paired_zip_None _ _ _ Hlen) in E. done. }
  fold ops in Hl. rewrite Hrun. cbn [outcome_of world_of events_of].
  rewrite app_nil_r. do 2 f_equal.
  apply tree_ext; [by rewrite Hs|]. fold ops. rewrite Hl.
  apply list_eq. intros i. rewrite list_lookup_fmap.
  rewrite Hleaves at 1. rewrite list_lookup_fmap.
  destruct (ops !! i) as [x|] eqn:Hi; [|done]. simpl. f_equal.
  assert (x ∈ ops) as Hx by (by eapply list_elem_of_lookup_2).
  destruct (isinstance_Tensor w x) eqn:Hxt.
  - rewrite (Hwf x Hx Hxt).
    destruct (last_paired (zip (pytree.leaves u) ops)
                (unwrapped_for_grad w x level)) as [v|] eqn:E.
    2:{ exfalso. apply (last_paired_zip_None _ _ _ Hlen) in E. apply E.
        rewrite Hleaves. apply list_elem_of_fmap. exists x. by rewrite Hxt. }
    simpl. apply last_paired_zip_Some in E as (j & Huj & Hoj & _).
    rewrite Hleaves, list_lookup_fmap, Hoj in Huj. simpl in Huj.
    injection Huj as Huj.
    assert (v ∈ ops) as Hv by (by eapply list_elem_of_lookup_2).
    destruct (isinstance_Tensor w v) eqn:Hvt.
    + symmetry. by apply Hinj.
    + pose proof (Hwf x Hx Hxt) as Hux. rewrite <- Huj in Hux. congruence.
  - by rewrite Hxt.
Qed.

(** X11.  A call of [custom_function_call] comes back, and with the interpreter
    stack as it found it, whatever the kinds of the active interpreters:
    every rule redispatches under the lowered stack, so one nested call for
    each active interpreter is enough.  This holds for every descriptor whose
    own code leaves the stack as it finds it. *)
Theorem custom_function_call_keeps_stack depth autograd_function operands w :
  balanced autograd_function ->
  (length (interpreter_stack w) < depth)%nat ->
  outcome_of (custom_function_call depth autograd_function operands w) <> OutOfDepth /\
  interpreter_stack (world_of (custom_function_call depth autograd_function operands w))
    = interpreter_stack w.
Proof.
  intros Hbalanced Hdepth.
  by apply (returns_custom_function_call autograd_function Hbalanced depth
              (interpreter_stack w) operands Hdepth w).
Qed.

(* ===================================================================== *)
(** ** Gradient recording around the redispatch *)
(* ===================================================================== *)

Lemma keeps_recording_ret {A} (a : A) : keeps_recording (ret a).
Proof. by intros w. Qed.

Lemma keeps_recording_raise {A} e : keeps_recording (@raise A e).
Proof. by intros w. Qed.

Lemma keeps_recording_bind {A B} (m : M A) (k : A -> M B) :
  keeps_recording m -> (forall a, keeps_recording (k a)) -> keeps_recording (bind m k).
Proof.
  intros Hm Hk w. unfold bind. specialize (Hm w).
  destruct (m w) as [[a|e|] w1 e1]; simpl in *; [|done..].
  specialize (Hk a w1). destruct (k a w1) as [o w2 e2]; simpl in *.
  destruct Hm as [<- <-]. done.
Qed.

Lemma keeps_recording_mapM {A B} (f : A -> M B) xs :
  (forall x, keeps_recording (f x)) -> keeps_recording (mapM f xs).
Proof.
  intros Hf. induction xs as [|x xs IH]; simpl; [apply keeps_recording_ret|].
  apply keeps_recording_bind; [apply Hf|]. intros y.
  apply keeps_recording_bind; [apply IH|]. intros ys. apply keeps_recording_ret.
Qed.

Lemma keeps_recording_tree_unflatten {A} (vals : list A) spec :
  keeps_recording (pytree.tree_unflatten vals spec).
Proof.
  intros w. unfold pytree.tree_unflatten.
  by destruct (pytree.rebuild spec vals) as [[t [|? ?]]|].
Qed.

Lemma keeps_recording_wrap_outputs outputs unwrapped_inputs orig_inputs level :
  keeps_recording
    (wrap_outputs_maintaining_identity outputs unwrapped_inputs orig_inputs level).
Proof.
  unfold wrap_outputs_maintaining_identity. simpl.
  apply keeps_recording_bind; [|intros; apply keeps_recording_tree_unflatten].
  apply keeps_recording_mapM. intros x w. unfold wrap_output.
  destruct (negb (isinstance_Tensor w x)); [done|].
  destruct (_ !! x); [done|].
  destruct (_wrap_for_grad_run x level w) as (r & -> & _). done.
Qed.

(** X12.  [Generated.forward] turns both kinds of gradient recording on for the
    redispatch and puts them back as they were when it is done, whether it
    returns or raises, and whatever the redispatched call did to them. *)
Theorem Generated_forward_restores_recording
    rec interpreter rest autograd_function operands w :
  interpreter_stack w = interpreter :: rest ->
  outcome_of (SingleLevelFunction.forward
                (Generated rec interpreter autograd_function) operands w) <> OutOfDepth ->
  grad_enabled (world_of (SingleLevelFunction.forward
                            (Generated rec interpreter autograd_function) operands w))
    = grad_enabled w /\
  fwd_grad_enabled (world_of (SingleLevelFunction.forward
                                (Generated rec interpreter autograd_function) operands w))
    = fwd_grad_enabled w.
Proof.
  intros Hstack.
  destruct (Generated_forward_run rec interpreter autograd_function operands w rest
              Hstack) as (u & _ & _ & ->).
  destruct (outcome_of (rec autograd_function (star u) (forward_scope w)))
    as [output|e|]; simpl; intros Hout.
  - destruct (keeps_recording_wrap_outputs output u (args_tuple operands)
                (Interpreter.level interpreter)
                (forward_unscope w
                   (world_of (rec autograd_function (star u) (forward_scope w)))))
      as [-> ->]. done.
  - done.
  - done.
Qed.

(* ===================================================================== *)
(** ** Layers that have nothing to do *)
(* ===================================================================== *)

(** X13.  The dictionary of [wrap_outputs_maintaining_identity] is built from the
    pairs of [zip]: an unwrapped input that stands beyond the last original
    input is paired with nothing and is no key.  So a Tensor output that is
    the same object as such unwrapped inputs only is not replaced: it is
    wrapped into a new object. *)
Theorem wrap_outputs_unpaired_input
    outputs unwrapped_inputs orig_inputs level w i x :
  live w outputs ->
  pytree.leaves outputs !! i = Some x ->
  isinstance_Tensor w x = true ->
  (forall j, (j < length (pytree.leaves orig_inputs))%nat ->
             pytree.leaves unwrapped_inputs !! j <> Some x) ->
  exists result w' evs r,
    wrap_outputs_maintaining_identity outputs unwrapped_inputs orig_inputs level w
      = Res (Ok result) w' evs /\
    pytree.leaves result !! i = Some r /\
    heap w !! r = None /\
    heap w' !! r = Some (TensorWrapper x level).
Proof.
  intros Hlive Hi Ht Hno.
  destruct (wrap_outputs_maintaining_identity_run
              outputs unwrapped_inputs orig_inputs level w Hlive)
    as (result & w' & evs & Hrun & _ & _ & _ & Hleaves).
  destruct (Forall2_lookup_l _ _ _ _ _ Hleaves Hi) as (r & Hr & Hrel).
  exists result, w', evs, r. split; [done|]. split; [done|].
  unfold rewrapped in Hrel. rewrite Ht, dict_comprehension_lookup in Hrel.
  destruct (last_paired _ x) as [v|] eqn:E; [|done].
  exfalso. apply last_paired_Some in E as (j & Hj & _).
  rewrite lookup_zip_with in Hj.
  destruct (pytree.leaves unwrapped_inputs !! j) as [u|] eqn:Hu; [|done].
  simpl in Hj.
  destruct (pytree.leaves orig_inputs !! j) as [o|] eqn:Ho; [|done].
  simpl in Hj. injection Hj as -> _.
  apply (Hno j); [|done]. by eapply lookup_lt_Some.
Qed.

(** X14.  A Vmap layer at which no operand is batched is transparent.  With a
    Vmap interpreter on top of the stack and a descriptor that has a [vmap]
    rule, a call whose Tensor operands are not batched at that level gives
    what the same call gives with that interpreter taken off the stack; the
    interpreter is put back when the call returns or raises, and the
    [vmap] rule of the descriptor is not called for this layer. *)
Theorem vmap_layer_without_batched_operands
    depth autograd_function operands w v rest vmap :
  interpreter_stack w = v :: rest ->
  Interpreter.key v = Vmap ->
  Function.vmap autograd_function = Some vmap ->
  Forall (fun x => isinstance_Tensor w x = true ->
                   (unwrapped_batched w x (Interpreter.level v)).2 = None)
         (pytree.leaves (args_tuple operands)) ->
  custom_function_call (S depth) autograd_function operands w =
    Res (outcome_of (custom_function_call depth autograd_function operands
                       (set_interpreter_stack rest w)))
        (match outcome_of (custom_function_call depth autograd_function operands
                             (set_interpreter_stack rest w)) with
         | OutOfDepth =>
             world_of (custom_function_call depth autograd_function operands
                         (set_interpreter_stack rest w))
         | _ =>
             set_interpreter_stack
               (v :: interpreter_stack
                       (world_of (custom_function_call depth autograd_function operands
                                    (set_interpreter_stack rest w))))
               (world_of (custom_function_call depth autograd_function operands
                            (set_interpreter_stack rest w)))
         end)
        (EvRule Vmap (Interpreter.level v) ::
         map (fun x => EvUnwrapBatched x (Interpreter.level v))
             (tensor_leaves w (args_tuple operands)) ++
         events_of (custom_function_call depth autograd_function operands
                      (set_interpreter_stack rest w))).
Proof.
  intros Hstack Hkey Hvmap Hnone.
  change (custom_function_call (S depth) autograd_function operands w)
    with (if _are_functorch_transforms_active w
          then PyOperator_call (custom_function_call depth)
                               autograd_function operands w
          else invoke CapApply autograd_function
                      (Function.apply autograd_function operands) w).
  unfold _are_functorch_transforms_active, PyOperator_call. rewrite Hstack.
  rewrite bind_tell, Hkey. cbn [functorch_table].
  unfold custom_function_call_vmap. rewrite Hvmap.
  destruct (unwrap_batched_run (args_tuple operands) (Interpreter.level v) w)
    as (unwrapped & in_dims & Hrun & _ & _ & Hdims).
  erewrite bind_Ok by exact Hrun. cbv beta iota.
  assert (pytree.tree_all (fun dim : option Z => bool_decide (dim = None)) in_dims = true)
    as ->.
  { apply tree_all_leaves. rewrite Hdims. apply Forall_fmap.
    eapply Forall_impl; [exact Hnone|]. intros x Hx. simpl in *.
    apply bool_decide_eq_true.
    destruct (isinstance_Tensor w x); [|done]. by apply Hx. }
  rewrite (with_run (lower v) _ w v (set_interpreter_stack rest w)).
  2:{ simpl. by rewrite Hstack. }
  cbn [outcome_of world_of events_of app cm_exit lower].
  reflexivity.
Qed.

(* ===================================================================== *)
(** ** Two Grad or Jvp layers *)
(* ===================================================================== *)

Lemma custom_function_call_grad_layer depth autograd_function operands w g rest :
  interpreter_stack w = g :: rest ->
  Interpreter.key g = Grad \/ Interpreter.key g = Jvp ->
  events_of (custom_function_call (S depth) autograd_function operands w) =
    EvRule (Interpreter.key g) (Interpreter.level g) ::
    events_of (custom_function_call_grad (custom_function_call depth) g
                 autograd_function operands w).
Proof.
  intros Hstack Hkey.
  change (custom_function_call (S depth) autograd_function operands w)
    with (if _are_functorch_transforms_active w
          then PyOperator_call (custom_function_call depth)
                               autograd_function operands w
          else invoke CapApply autograd_function
                      (Function.apply autograd_function operands) w).
  unfold _are_functorch_transforms_active, PyOperator_call. rewrite Hstack.
  rewrite bind_tell. by destruct Hkey as [-> | ->].
Qed.

(** The kinds of the calls that two Grad or Jvp layers record, in their
    order, whatever the descriptor does. *)
Lemma nested_grad_grad_kinds depth autograd_function operands w g2 g1 :
  interpreter_stack w = [g2; g1] ->
  Interpreter.key g2 = Grad \/ Interpreter.key g2 = Jvp ->
  Interpreter.key g1 = Grad \/ Interpreter.key g1 = Jvp ->
  exists U1 C W1 T1 W2 T2,
    events_of (custom_function_call (S (S (S depth))) autograd_function operands w) =
      EvRule (Interpreter.key g2) (Interpreter.level g2) ::
      map (fun x => EvUnwrapForGrad x (Interpreter.level g2))
          (tensor_leaves w (args_tuple operands)) ++
      EvRule (Interpreter.key g1) (Interpreter.level g1) ::
      U1 ++ C ++ W1 ++ T1 ++ W2 ++ T2 /\
    Forall (is_unwrap_for_grad (Interpreter.level g1)) U1 /\
    Forall is_capability C /\
    Forall (is_wrap_for_grad (Interpreter.level g1)) W1 /\
    Forall is_capability T1 /\
    Forall (is_wrap_for_grad (Interpreter.level g2)) W2 /\
    Forall is_capability T2.
Proof.
  intros Hstack Hg2 Hg1.
  destruct (events_grad_rule (custom_function_call (S (S depth))) g2 [g1]
              autograd_function operands w Hstack)
    as (u & wI & W2 & T2 & HwI & Hev & HW2 & HT2).
  destruct (events_grad_rule (custom_function_call (S depth)) g1 []
              autograd_function (star u) wI HwI)
    as (u' & wJ & W1 & T1 & HwJ & Hev1 & HW1 & HT1).
  exists (map (fun x => EvUnwrapForGrad x (Interpreter.level g1))
              (tensor_leaves wI (args_tuple (star u)))),
         (events_of (custom_function_call (S depth) autograd_function (star u') wJ)),
         W1, T1, W2, T2.
  split.
  { rewrite (custom_function_call_grad_layer _ _ _ w g2 [g1] Hstack Hg2), Hev.
    rewrite (custom_function_call_grad_layer _ _ _ wI g1 [] HwI Hg1), Hev1.
    cbn [app]. do 2 f_equal. rewrite <- !app_assoc. reflexivity. }
  split; [apply Forall_fmap, Forall_forall; intros x _; by exists x|].
  split.
  { change (custom_function_call (S depth) autograd_function (star u') wJ)
      with (if _are_functorch_transforms_active wJ
            then PyOperator_call (custom_function_call depth)
                                 autograd_function (star u') wJ
            else invoke CapApply autograd_function
                        (Function.apply autograd_function (star u')) wJ).
    unfold _are_functorch_transforms_active. rewrite HwJ, events_invoke.
    repeat constructor. by eexists _, _. }
  done.
Qed.

(* ===================================================================== *)
(** ** The exact record of a Grad layer on top of a Vmap layer *)
(* ===================================================================== *)

Lemma heap_node_scope w x :
  is_Some (heap w !! x) -> heap (node_scope w) !! x = heap w !! x.
Proof.
  intros [o Ho]. unfold node_scope. simpl. apply lookup_insert_ne.
  intros <-.
  assert (heap w !! fresh (dom (heap w)) = None) as Hn
    by apply not_elem_of_dom, is_fresh.
  congruence.
Qed.

Lemma isinstance_Tensor_heap w1 w2 x :
  heap w1 = heap w2 -> isinstance_Tensor w1 x = isinstance_Tensor w2 x.
Proof. unfold isinstance_Tensor. by intros ->. Qed.

Lemma isinstance_Tensor_node_scope w x :
  isinstance_Tensor (node_scope w) x = isinstance_Tensor w x.
Proof. exact (isinstance_Tensor_new_ctx w x). Qed.

Lemma unwrapped_leaf_for_grad_node_scope w level x :
  unwrapped_leaf_for_grad (node_scope w) level x = unwrapped_leaf_for_grad w level x.
Proof.
  unfold unwrapped_leaf_for_grad. rewrite isinstance_Tensor_node_scope.
  destruct (isinstance_Tensor w x) eqn:Ht; [|done].
  unfold unwrapped_for_grad.
  by rewrite (heap_node_scope w x (isinstance_Tensor_live w x Ht)).
Qed.

Lemma unwrapped_leaf_batched_scope w w' level x :
  heap w' = heap (node_scope w) ->
  unwrapped_leaf_batched w' level x = unwrapped_leaf_batched w level x.
Proof.
  intros Hheap. unfold unwrapped_leaf_batched.
  rewrite (isinstance_Tensor_heap w' (node_scope w) x Hheap),
          isinstance_Tensor_node_scope.
  destruct (isinstance_Tensor w x) eqn:Ht; [|done].
  unfold unwrapped_batched.
  by rewrite Hheap, (heap_node_scope w x (isinstance_Tensor_live w x Ht)).
Qed.

Lemma tensor_leaves_scope w w' (t : pytree) :
  heap w' = heap (node_scope w) -> tensor_leaves w' t = tensor_leaves w t.
Proof.
  intros Hheap. apply tensor_leaves_ext. intros x.
  by rewrite (isinstance_Tensor_heap w' (node_scope w) x Hheap),
             isinstance_Tensor_node_scope.
Qed.

(** The events of [wrap_outputs_maintaining_identity] on live outputs. *)
Lemma wrap_outputs_events_exact outputs unwrapped_inputs orig_inputs level w :
  live w outputs ->
  exists result w',
    wrap_outputs_maintaining_identity outputs unwrapped_inputs orig_inputs level w =
      Res (Ok result) w'
          (map (fun x => EvWrapForGrad x level)
               (wrapped_outputs
                  (dict_comprehension (zip (pytree.leaves unwrapped_inputs)
                                           (pytree.leaves orig_inputs)))
                  w (pytree.leaves outputs))) /\
    grown w w'.
Proof.
  intros Hlive. unfold wrap_outputs_maintaining_identity. simpl.
  destruct (mapM_wrap_output_exact
              (dict_comprehension (zip (pytree.leaves unwrapped_inputs)
                                       (pytree.leaves orig_inputs)))
              level (pytree.leaves outputs) w Hlive)
    as (ys & w' & Hrun & Hg & _).
  destruct (mapM_wrap_output
              (dict_comprehension (zip (pytree.leaves unwrapped_inputs)
                                       (pytree.leaves orig_inputs)))
              level (pytree.leaves outputs) w Hlive)
    as (ys0 & w0 & evs0 & Hrun0 & _ & _ & Hys).
  rewrite Hrun in Hrun0. injection Hrun0 as <- <- _.
  destruct (tree_unflatten_exact ys (pytree.spec_of outputs) w')
    as (result & Hres & Hl & Hs).
  { rewrite num_leaves_spec_of. symmetry. by eapply Forall2_length. }
  exists result, w'. erewrite bind_Ok by exact Hrun. rewrite Hres. simpl.
  by rewrite app_nil_r.
Qed.

(** [wrap_batched] when the dimensions fit and what gets a dimension is a
    Tensor. *)
Lemma wrap_batched_ok args bdims level w flat_bdims :
  _broadcast_to_and_flatten bdims (pytree.spec_of args) = Some flat_bdims ->
  Forall (fun p : option Z * ref => is_Some p.1 -> isinstance_Tensor w p.2 = true)
         (zip flat_bdims (pytree.leaves args)) ->
  exists output w',
    wrap_batched args bdims level w =
      Res (Ok output) w'
          (batched_events level (zip flat_bdims (pytree.leaves args))) /\
    grown w w' /\
    pytree.spec_of output = pytree.spec_of args /\
    Forall2 (batched level w w') (zip flat_bdims (pytree.leaves args))
            (pytree.leaves output).
Proof.
  intros Hflat Hps.
  assert (length flat_bdims = length (pytree.leaves args)) as Hlen.
  { by rewrite (broadcast_length _ _ _ Hflat), num_leaves_spec_of. }
  destruct (mapM_create_batched level _ w Hps) as (ys & w' & Hrun & Hg & Hys).
  destruct (tree_unflatten_exact ys (pytree.spec_of args) w')
    as (output & Hout & Hl & Hs).
  { rewrite num_leaves_spec_of, <- (Forall2_length _ _ _ Hys).
    rewrite length_zip_with. lia. }
  exists output, w'. unfold wrap_batched. simpl. rewrite Hflat.
  unfold _create_batched_inputs. erewrite bind_Ok by exact Hrun. rewrite Hout.
  simpl. rewrite app_nil_r, Hl. done.
Qed.

(** [unwrap_batched] on arguments that have a leaf. *)
Lemma unwrap_batched_run_full (args : pytree) level w :
  pytree.leaves args <> [] ->
  exists unwrapped in_dims,
    unwrap_batched args level w =
      Res (Ok (unwrapped, in_dims)) w
          (map (fun x => EvUnwrapBatched x level) (tensor_leaves w args)) /\
    pytree.spec_of unwrapped = pytree.spec_of args /\
    pytree.leaves unwrapped =
      map (fun x => (unwrapped_leaf_batched w level x).1) (pytree.leaves args) /\
    pytree.spec_of in_dims = pytree.spec_of args /\
    pytree.leaves in_dims =
      map (fun x => (unwrapped_leaf_batched w level x).2) (pytree.leaves args).
Proof.
  intros Hne. unfold unwrap_batched. simpl.
  destruct (length (pytree.leaves args) =? 0)%nat eqn:Hlen.
  { apply Nat.eqb_eq, nil_length_inv in Hlen. done. }
  destruct (tree_unflatten_exact
              (map fst (map (unwrapped_leaf_batched w level) (pytree.leaves args)))
              (pytree.spec_of args) w) as (u & Hu & Hul & Hus).
  { by rewrite !length_map, num_leaves_spec_of. }
  destruct (tree_unflatten_exact
              (map snd (map (unwrapped_leaf_batched w level) (pytree.leaves args)))
              (pytree.spec_of args) w) as (d & Hd & Hdl & Hds).
  { by rewrite !length_map, num_leaves_spec_of. }
  exists u, d. split.
  { erewrite bind_Ok.
    2:{ apply (mapM_pure _ (unwrapped_leaf_batched w level)
                 (fun x => if isinstance_Tensor w x
                           then [EvUnwrapBatched x level] else [])).
        intros x _. unfold unwrapped_leaf_batched, _unwrap_batched, ret.
        by destruct (isinstance_Tensor w x). }
    erewrite bind_Ok by exact Hu. erewrite bind_Ok by exact Hd. simpl.
    rewrite app_nil_r. f_equal.
    apply (concat_map_filter (isinstance_Tensor w)
             (fun x => EvUnwrapBatched x level)). }
  split; [exact Hus|]. split; [by rewrite Hul, map_map|].
  split; [exact Hds|]. by rewrite Hdl, map_map.
Qed.

(** The general path of the Vmap rule when the [vmap] capability returns
    and its dimensions fit its outputs. *)
Lemma vmap_rule_general_run rec v rest autograd_function operands w vmap
    uu in_dims uo od wu flat_bdims :
  interpreter_stack w = v :: rest ->
  Function.vmap autograd_function = Some vmap ->
  pytree.spec_of uu = pytree.spec_of (args_tuple operands) ->
  pytree.leaves uu =
    map (fun x => (unwrapped_leaf_batched w (Interpreter.level v) x).1)
        (pytree.leaves (args_tuple operands)) ->
  pytree.spec_of in_dims = pytree.spec_of (args_tuple operands) ->
  pytree.leaves in_dims =
    map (fun x => (unwrapped_leaf_batched w (Interpreter.level v) x).2)
        (pytree.leaves (args_tuple operands)) ->
  pytree.tree_all (fun dim : option Z => bool_decide (dim = None)) in_dims = false ->
  vmap {| batch_size := Interpreter.batch_size v |} in_dims (star uu)
       (set_interpreter_stack rest w) = (inl (uo, od), wu) ->
  _broadcast_to_and_flatten od (pytree.spec_of uo) = Some flat_bdims ->
  Forall (fun p : option Z * ref => is_Some p.1 -> isinstance_Tensor wu p.2 = true)
         (zip flat_bdims (pytree.leaves uo)) ->
  live wu uo ->
  live wu (args_tuple operands) ->
  exists out w3,
    custom_function_call_vmap rec v autograd_function operands w =
      Res (Ok out) w3
          (map (fun x => EvUnwrapBatched x (Interpreter.level v))
               (tensor_leaves w (args_tuple operands)) ++
           [EvCapability CapVmap (Function.__name__ autograd_function)] ++
           batched_events (Interpreter.level v) (zip flat_bdims (pytree.leaves uo))) /\
    live w3 out.
Proof.
  intros Hstack Hvmap Huus Huul Hds Hdl Hdims Hcall Hflat Hps Hlo Hla.
  assert (pytree.leaves (args_tuple operands) <> []) as Hne.
  { intros Hnil. rewrite Hnil in Hdl. simpl in Hdl.
    unfold pytree.tree_all in Hdims. by rewrite Hdl in Hdims. }
  destruct (unwrap_batched_run_full (args_tuple operands) (Interpreter.level v) w Hne)
    as (uu0 & d0 & Hrun & Hs1 & Hl1 & Hs2 & Hl2).
  assert (uu0 = uu) as -> by (apply tree_ext; congruence).
  assert (d0 = in_dims) as -> by (apply tree_ext; congruence).
  set (w2 := set_interpreter_stack (v :: interpreter_stack wu) wu).
  destruct (wrap_batched_ok uo od (Interpreter.level v) w2 flat_bdims Hflat)
    as (bo & w3 & Hwrap & Hg & Hbs & Hb); [exact Hps|].
  assert (length (pytree.leaves bo) = length (pytree.leaves uo)) as Hlen.
  { by rewrite <- (leaves_spec_of bo), <- (leaves_spec_of uo), Hbs. }
  destruct (preserve_object_identity_run bo (args_tuple operands) uo uu w3 Hlen)
    as (out & Hpres & _ & Hol).
  exists out, w3. split.
  - unfold custom_function_call_vmap. rewrite Hvmap.
    erewrite bind_Ok by exact Hrun. cbv beta iota. rewrite Hdims.
    rewrite (bind_Ok _ _ w (uo, od) w2
               [EvCapability CapVmap (Function.__name__ autograd_function)]).
    2:{ by rewrite (lowered_vmap_call v rest _ _ w Hstack), Hcall. }
    cbv beta iota. erewrite bind_Ok by exact Hwrap. rewrite Hpres.
    cbn [outcome_of world_of events_of]. by rewrite app_nil_r.
  - assert (forall x, is_Some (heap wu !! x) -> is_Some (heap w3 !! x)) as Hup.
    { intros x [o Ho]. exists o. by apply (grown_lookup w2 w3 x o Hg). }
    assert (Forall (fun y => is_Some (heap w3 !! y)) (pytree.leaves bo)) as Hbo.
    { apply Forall_lookup. intros i y Hy.
      destruct (Forall2_lookup_r _ _ _ _ _ Hb Hy) as ([d x] & Hp & Hrel).
      unfold batched in Hrel. simpl in Hrel. destruct d as [bdim|].
      - destruct Hrel as [_ Hy3]. by rewrite Hy3.
      - subst y. apply Hup. unfold live in Hlo.
        eapply Forall_forall in Hlo; [exact Hlo|].
        apply list_elem_of_lookup_2 in Hp. by apply elem_of_zip_r in Hp. }
    unfold live. rewrite Hol. apply Forall_fmap, Forall_forall.
    intros [b o] Hin. simpl.
    assert (is_Some (heap w3 !! b)) as Hb3.
    { eapply Forall_forall in Hbo; [exact Hbo|]. by apply elem_of_zip_l in Hin. }
    destruct (isinstance_Tensor w3 b); [|done].
    destruct (last_paired _ o) as [inp|] eqn:Hlast; [|done].
    apply last_paired_zip_Some in Hlast as (j & _ & Hj & _).
    apply Hup. unfold live in Hla.
    eapply Forall_forall in Hla; [exact Hla|]. by eapply list_elem_of_lookup_2.
Qed.

Lemma custom_function_call_vmap_layer depth autograd_function operands w v rest :
  interpreter_stack w = v :: rest ->
  Interpreter.key v = Vmap ->
  custom_function_call (S depth) autograd_function operands w =
    Res (outcome_of (custom_function_call_vmap (custom_function_call depth) v
                       autograd_function operands w))
        (world_of (custom_function_call_vmap (custom_function_call depth) v
                     autograd_function operands w))
        (EvRule Vmap (Interpreter.level v) ::
         events_of (custom_function_call_vmap (custom_function_call depth) v
                      autograd_function operands w)).
Proof.
  intros Hstack Hkey.
  change (custom_function_call (S depth) autograd_function operands w)
    with (if _are_functorch_transforms_active w
          then PyOperator_call (custom_function_call depth)
                               autograd_function operands w
          else invoke CapApply autograd_function
                      (Function.apply autograd_function operands) w).
  unfold _are_functorch_transforms_active, PyOperator_call. rewrite Hstack.
  rewrite bind_tell, Hkey. reflexivity.
Qed.

(** What the Grad/Jvp rule records when the redispatch returns live
    outputs. *)
Lemma grad_rule_events_exact rec g rest autograd_function operands w u out w3 evI :
  interpreter_stack w = g :: rest ->
  pytree.spec_of u = pytree.spec_of (args_tuple operands) ->
  pytree.leaves u =
    map (unwrapped_leaf_for_grad w (Interpreter.level g))
        (pytree.leaves (args_tuple operands)) ->
  rec autograd_function (star u) (forward_scope (node_scope w)) = Res (Ok out) w3 evI ->
  live w3 out ->
  events_of (custom_function_call_grad rec g autograd_function operands w) =
    map (fun x => EvUnwrapForGrad x (Interpreter.level g))
        (tensor_leaves w (args_tuple operands)) ++
    evI ++
    map (fun x => EvWrapForGrad x (Interpreter.level g))
        (wrapped_outputs
           (dict_comprehension (zip (pytree.leaves u)
                                    (pytree.leaves (args_tuple operands))))
           (forward_unscope (node_scope w) w3) (pytree.leaves out)) ++
    [EvCapability CapSetupContext (Function.__name__ autograd_function)].
Proof.
  intros Hstack Hspec Hleaves Hinner Hlive.
  assert (interpreter_stack (node_scope w) = g :: rest) as Hstack4 by done.
  destruct (Generated_forward_run rec g autograd_function operands (node_scope w) rest
              Hstack4) as (u0 & Hs0 & Hl0 & Hfwd).
  assert (u0 = u) as ->.
  { apply tree_ext; [congruence|]. rewrite Hl0, Hleaves. apply map_ext.
    intros x. apply (unwrapped_leaf_for_grad_node_scope w (Interpreter.level g) x). }
  rewrite Hinner in Hfwd. cbn [outcome_of world_of events_of] in Hfwd.
  destruct (wrap_outputs_events_exact out u (args_tuple operands) (Interpreter.level g)
              (forward_unscope (node_scope w) w3)) as (result & w' & Hwrap & _).
  { exact Hlive. }
  rewrite Hwrap in Hfwd. cbn [outcome_of world_of events_of] in Hfwd.
  rewrite (tensor_leaves_scope w (node_scope w) _ eq_refl) in Hfwd.
  unfold custom_function_call_grad.
  rewrite (events_apply (Generated rec g autograd_function) operands w).
  change (set_fwd_grad_enabled false
            (set_grad_enabled false
               (set_heap (<[fresh (dom (heap w)) := FunctionCtx]> (heap w))
                         (set_autograd_function_allowed true w))))
    with (node_scope w).
  rewrite Hfwd. cbn [outcome_of world_of events_of SingleLevelFunction.setup_context Generated].
  rewrite events_invoke. by rewrite <- !app_assoc.
Qed.

(** C7.  A Grad interpreter at level [L2] is on top of a Vmap interpreter at
    level [L1].

    First, for every descriptor: one call of the entry point records the
    Grad rule firing, then the unwrapping of every Tensor operand at [L2],
    then the Vmap rule firing, and after it only unwrapping at [L1], calls
    of capabilities, batching at [L1], wrapping at [L2] and a last call of a
    capability, in this order.

    Second, exactly, when the operands unwrapped at [L2] have something
    batched at [L1] and the [vmap] rule of the descriptor returns outputs
    that its dimensions fit.  Let [u] be the operands unwrapped at [L2], and
    [uu] and [in_dims] what unwrapping [u] at [L1] gives.  The redispatch,
    that is the call of the entry point on [u] under the lowered stack,
    records the Vmap rule firing, the unwrapping at [L1] of every Tensor of
    [u], the call of the [vmap] rule on [uu] and [in_dims], and the batching
    at [L1] of every output that has a dimension; it returns some [out].
    The whole call records the Grad rule firing, the unwrapping at [L2] of
    every Tensor operand, then what the redispatch records, then the
    wrapping at [L2] of every Tensor of [out] that is not one of [u], then
    [setup_context].  So level [L1] is unwrapped after level [L2], on what
    unwrapping at [L2] has given and inside the redispatch, and the outputs
    are wrapped again first at [L1] and then at [L2]. *)
Theorem nested_grad_vmap_order depth autograd_function operands w g v :
  interpreter_stack w = [g; v] ->
  Interpreter.key g = Grad ->
  Interpreter.key v = Vmap ->
  (exists U1 C W1 W2 T,
     events_of (custom_function_call (S (S (S depth))) autograd_function operands w) =
       EvRule Grad (Interpreter.level g) ::
       map (fun x => EvUnwrapForGrad x (Interpreter.level g))
           (tensor_leaves w (args_tuple operands)) ++
       EvRule Vmap (Interpreter.level v) :: U1 ++ C ++ W1 ++ W2 ++ T /\
     Forall (is_unwrap_batched (Interpreter.level v)) U1 /\
     Forall is_capability C /\
     Forall (is_add_batch_dim (Interpreter.level v)) W1 /\
     Forall (is_wrap_for_grad (Interpreter.level g)) W2 /\
     Forall is_capability T) /\
  (forall vmap u uu in_dims uo od wu flat_bdims,
     Function.vmap autograd_function = Some vmap ->
     pytree.spec_of u = pytree.spec_of (args_tuple operands) ->
     pytree.leaves u =
       map (unwrapped_leaf_for_grad w (Interpreter.level g))
           (pytree.leaves (args_tuple operands)) ->
     pytree.spec_of uu = pytree.spec_of u ->
     pytree.leaves uu =
       map (fun y => (unwrapped_leaf_batched w (Interpreter.level v) y).1)
           (pytree.leaves u) ->
     pytree.spec_of in_dims = pytree.spec_of u ->
     pytree.leaves in_dims =
       map (fun y => (unwrapped_leaf_batched w (Interpreter.level v) y).2)
           (pytree.leaves u) ->
     pytree.tree_all (fun dim : option Z => bool_decide (dim = None)) in_dims = false ->
     vmap {| batch_size := Interpreter.batch_size v |} in_dims (star uu)
          (set_interpreter_stack [] (forward_scope (node_scope w))) =
       (inl (uo, od), wu) ->
     _broadcast_to_and_flatten od (pytree.spec_of uo) = Some flat_bdims ->
     Forall (fun p : option Z * ref => is_Some p.1 -> isinstance_Tensor wu p.2 = true)
            (zip flat_bdims (pytree.leaves uo)) ->
     live wu uo ->
     live wu u ->
     exists out w3,
       custom_function_call (S (S depth)) autograd_function (star u)
         (forward_scope (node_scope w)) =
         Res (Ok out) w3
             (EvRule Vmap (Interpreter.level v) ::
              map (fun x => EvUnwrapBatched x (Interpreter.level v)) (tensor_leaves w u) ++
              [EvCapability CapVmap (Function.__name__ autograd_function)] ++
              batched_events (Interpreter.level v) (zip flat_bdims (pytree.leaves uo))) /\
       events_of (custom_function_call (S (S (S depth))) autograd_function operands w) =
         EvRule Grad (Interpreter.level g) ::
         map (fun x => EvUnwrapForGrad x (Interpreter.level g))
             (tensor_leaves w (args_tuple operands)) ++
         (EvRule Vmap (Interpreter.level v) ::
          map (fun x => EvUnwrapBatched x (Interpreter.level v)) (tensor_leaves w u) ++
          [EvCapability CapVmap (Function.__name__ autograd_function)] ++
          batched_events (Interpreter.level v) (zip flat_bdims (pytree.leaves uo))) ++
         map (fun x => EvWrapForGrad x (Interpreter.level g))
             (wrapped_outputs
                (dict_comprehension (zip (pytree.leaves u)
                                         (pytree.leaves (args_tuple operands))))
                (forward_unscope (node_scope w) w3) (pytree.leaves out)) ++
         [EvCapability CapSetupContext (Function.__name__ autograd_function)]).
Proof.
  intros Hstack Hg Hv. split.
  { exact (nested_grad_vmap_kinds depth autograd_function operands w g v Hstack Hg Hv). }
  intros vmap u uu in_dims uo od wu flat_bdims
         Hvmap Hus Hul Huus Huul Hds Hdl Hdims Hcall Hflat Hps Hlo Hlu.
  set (wI := forward_scope (node_scope w)) in *.
  assert (interpreter_stack wI = [v]) as HwI.
  { unfold wI, forward_scope, node_scope. simpl. by rewrite Hstack. }
  assert (heap wI = heap (node_scope w)) as Hheap by done.
  assert (args_tuple (star u) = u) as Hu.
  { destruct u as [a|k ts]; [done|]. simpl in Hus. by injection Hus as ->. }
  destruct (vmap_rule_general_run (custom_function_call (S depth)) v []
              autograd_function (star u) wI vmap uu in_dims uo od wu flat_bdims)
    as (out & w3 & Hrule & Hlive); try done.
  - by rewrite Hu.
  - rewrite Hu, Huul. apply map_ext. intros y.
    by rewrite (unwrapped_leaf_batched_scope w wI _ y Hheap).
  - by rewrite Hu.
  - rewrite Hu, Hdl. apply map_ext. intros y.
    by rewrite (unwrapped_leaf_batched_scope w wI _ y Hheap).
  - by rewrite Hu.
  - rewrite Hu, (tensor_leaves_scope w wI u Hheap) in Hrule.
    assert (custom_function_call (S (S depth)) autograd_function (star u) wI =
            Res (Ok out) w3
                (EvRule Vmap (Interpreter.level v) ::
                 map (fun x => EvUnwrapBatched x (Interpreter.level v))
                     (tensor_leaves w u) ++
                 [EvCapability CapVmap (Function.__name__ autograd_function)] ++
                 batched_events (Interpreter.level v)
                   (zip flat_bdims (pytree.leaves uo)))) as Hinner.
    { rewrite (custom_function_call_vmap_layer _ _ _ wI v [] HwI Hv), Hrule.
      reflexivity. }
    exists out, w3. split; [exact Hinner|].
    rewrite (custom_function_call_grad_layer _ _ _ w g [v] Hstack (or_introl Hg)), Hg.
    f_equal.
    exact (grad_rule_events_exact (custom_function_call (S (S depth))) g [v]
             autograd_function operands w u out w3 _ Hstack Hus Hul Hinner Hlive).
Qed.

(* ===================================================================== *)
(** ** The exact record of two Grad or Jvp layers *)
(* ===================================================================== *)

(** The node's public apply entry when [forward] and [setup_context]
    return. *)
Lemma apply_run_exact node operands w outputs wF eF wS eS :
  SingleLevelFunction.forward node operands (node_scope w) = Res (Ok outputs) wF eF ->
  SingleLevelFunction.setup_context node (fresh (dom (heap w))) outputs operands wF
    = Res (Ok tt) wS eS ->
  exists wfin,
    with_ enable_autograd_function (SingleLevelFunction.apply node operands) w =
      Res (Ok outputs) wfin (eF ++ eS) /\
    heap wfin = heap wS.
Proof.
  intros Hfwd Hsetup. unfold node_scope in Hfwd.
  set (w1 := set_autograd_function_allowed true w) in *.
  set (w2 := set_heap (<[fresh (dom (heap w)) := FunctionCtx]> (heap w)) w1) in *.
  set (w3 := set_grad_enabled false w2) in *.
  set (w4 := set_fwd_grad_enabled false w3) in *.
  rewrite (with_run enable_autograd_function _ w (autograd_function_allowed w) w1 eq_refl).
  unfold SingleLevelFunction.apply.
  rewrite (bind_Ok (alloc FunctionCtx) _ w1 (fresh (dom (heap w))) w2 [] eq_refl).
  rewrite (with_run no_grad _ w2 (grad_enabled w2) w3 eq_refl).
  rewrite (with_run no_fwd_grad _ w3 (fwd_grad_enabled w3) w4 eq_refl).
  rewrite (bind_Ok _ _ w4 outputs wF eF Hfwd).
  rewrite (bind_Ok _ _ wF tt wS eS Hsetup).
  cbn [outcome_of world_of events_of ret app cm_exit
       enable_autograd_function no_grad no_fwd_grad].
  eexists. split; [by rewrite app_nil_r|done].
Qed.

Lemma unwrapped_leaf_for_grad_scope w w' level x :
  heap w' = heap (node_scope w) ->
  unwrapped_leaf_for_grad w' level x = unwrapped_leaf_for_grad w level x.
Proof.
  intros Hheap. rewrite <- (unwrapped_leaf_for_grad_node_scope w level x).
  unfold unwrapped_leaf_for_grad, unwrapped_for_grad.
  by rewrite (isinstance_Tensor_heap w' (node_scope w) x Hheap), Hheap.
Qed.

(** The Grad/Jvp rule when the redispatch returns live outputs and
    [setup_context] does nothing. *)
Lemma grad_rule_run_exact rec g rest autograd_function operands w u output wa evI :
  interpreter_stack w = g :: rest ->
  pytree.spec_of u = pytree.spec_of (args_tuple operands) ->
  pytree.leaves u =
    map (unwrapped_leaf_for_grad w (Interpreter.level g))
        (pytree.leaves (args_tuple operands)) ->
  rec autograd_function (star u) (forward_scope (node_scope w)) =
    Res (Ok output) wa evI ->
  (forall ctx outs ops w0,
     Function.setup_context autograd_function ctx outs ops w0 = (inl tt, w0)) ->
  live wa output ->
  live wa (args_tuple operands) ->
  exists result wfin,
    custom_function_call_grad rec g autograd_function operands w =
      Res (Ok result) wfin
          (map (fun x => EvUnwrapForGrad x (Interpreter.level g))
               (tensor_leaves w (args_tuple operands)) ++
           evI ++
           map (fun x => EvWrapForGrad x (Interpreter.level g))
               (wrapped_outputs
                  (dict_comprehension (zip (pytree.leaves u)
                                           (pytree.leaves (args_tuple operands))))
                  (forward_unscope (node_scope w) wa) (pytree.leaves output)) ++
           [EvCapability CapSetupContext (Function.__name__ autograd_function)]) /\
    live wfin result.
Proof.
  intros Hstack Hspec Hleaves Hinner Hsetup Hlo Hla.
  assert (interpreter_stack (node_scope w) = g :: rest) as Hstack4 by done.
  destruct (Generated_forward_run rec g autograd_function operands (node_scope w) rest
              Hstack4) as (u0 & Hs0 & Hl0 & Hfwd).
  assert (u0 = u) as ->.
  { apply tree_ext; [congruence|]. rewrite Hl0, Hleaves. apply map_ext.
    intros x. apply (unwrapped_leaf_for_grad_node_scope w (Interpreter.level g) x). }
  rewrite Hinner in Hfwd. cbn [outcome_of world_of events_of] in Hfwd.
  set (wO := forward_unscope (node_scope w) wa) in *.
  assert (live wO output) as HlO by exact Hlo.
  destruct (wrap_outputs_events_exact output u (args_tuple operands)
              (Interpreter.level g) wO HlO) as (result & wW & Hwrap & Hg).
  destruct (wrap_outputs_maintaining_identity_run output u (args_tuple operands)
              (Interpreter.level g) wO HlO)
    as (result0 & wW0 & evs0 & Hwrap0 & _ & _ & _ & Hrel).
  rewrite Hwrap in Hwrap0. injection Hwrap0 as <- <- _.
  rewrite Hwrap in Hfwd. cbn [outcome_of world_of events_of] in Hfwd.
  rewrite (tensor_leaves_scope w (node_scope w) _ eq_refl) in Hfwd.
  destruct (apply_run_exact (Generated rec g autograd_function) operands w
              result wW _ wW
              [EvCapability CapSetupContext (Function.__name__ autograd_function)]
              Hfwd) as (wfin & Hrun & Hheap).
  { cbn [SingleLevelFunction.setup_context Generated]. unfold invoke.
    rewrite bind_tell. unfold lift. rewrite Hsetup. reflexivity. }
  exists result, wfin. split.
  { unfold custom_function_call_grad. rewrite Hrun. f_equal.
    by rewrite <- !app_assoc. }
  assert (forall x, is_Some (heap wa !! x) -> is_Some (heap wfin !! x)) as Hup.
  { intros x [o Ho]. exists o. rewrite Hheap. by apply (grown_lookup wO wW x o Hg). }
  unfold live. apply Forall_lookup. intros i y Hy.
  destruct (Forall2_lookup_r _ _ _ _ _ Hrel Hy) as (x & Hx & Hxy).
  assert (is_Some (heap wa !! x)) as Hxl.
  { unfold live in Hlo. eapply Forall_forall in Hlo; [exact Hlo|].
    by eapply list_elem_of_lookup_2. }
  unfold rewrapped in Hxy. destruct (isinstance_Tensor wO x).
  - rewrite dict_comprehension_lookup in Hxy.
    destruct (last_paired _ x) as [orig|] eqn:Hlast.
    + subst y. apply last_paired_zip_Some in Hlast as (j & _ & Hj & _).
      apply Hup. unfold live in Hla.
      eapply Forall_forall in Hla; [exact Hla|]. by eapply list_elem_of_lookup_2.
    + destruct Hxy as [_ Hy']. rewrite Hheap, Hy'. by eexists.
  - subst y. by apply Hup.
Qed.

Lemma custom_function_call_grad_layer_run depth autograd_function operands w g rest :
  interpreter_stack w = g :: rest ->
  Interpreter.key g = Grad \/ Interpreter.key g = Jvp ->
  custom_function_call (S depth) autograd_function operands w =
    Res (outcome_of (custom_function_call_grad (custom_function_call depth) g
                       autograd_function operands w))
        (world_of (custom_function_call_grad (custom_function_call depth) g
                     autograd_function operands w))
        (EvRule (Interpreter.key g) (Interpreter.level g) ::
         events_of (custom_function_call_grad (custom_function_call depth) g
                      autograd_function operands w)).
Proof.
  intros Hstack Hkey.
  change (custom_function_call (S depth) autograd_function operands w)
    with (if _are_functorch_transforms_active w
          then PyOperator_call (custom_function_call depth)
                               autograd_function operands w
          else invoke CapApply autograd_function
                      (Function.apply autograd_function operands) w).
  unfold _are_functorch_transforms_active, PyOperator_call. rewrite Hstack.
  rewrite bind_tell. by destruct Hkey as [-> | ->].
Qed.

(** X15.  With two Grad or Jvp interpreters active, the outer one at level [L2] on
    top of the stack and the inner one at level [L1] below it.

    First, for every descriptor: one call of the entry point records the
    rule of the outer layer firing, then the unwrapping of every Tensor
    operand at [L2], then the rule of the inner layer firing, and after it
    only unwrapping at [L1], calls of capabilities and wrapping at [L1], and
    then wrapping at [L2] and calls of capabilities, in this order.

    Second, exactly, when the function returns live outputs and
    [setup_context] does nothing.  Let [u2] be the operands unwrapped at
    [L2] and [u1] be [u2] unwrapped at [L1].  The redispatch, that is the
    call of the entry point on [u2] under the lowered stack, records the
    inner rule firing, the unwrapping at [L1] of every Tensor of [u2], the
    call of the function on [u1], the wrapping at [L1] of every Tensor
    output that is not one of [u1], and the inner [setup_context]; it
    returns some [out1].  The whole call records the outer rule firing, the
    unwrapping at [L2] of every Tensor operand, then what the redispatch
    records, then the wrapping at [L2] of every Tensor of [out1] that is
    not one of [u2], then the outer [setup_context]. *)
Theorem nested_grad_grad_order depth autograd_function operands w g2 g1 :
  interpreter_stack w = [g2; g1] ->
  Interpreter.key g2 = Grad \/ Interpreter.key g2 = Jvp ->
  Interpreter.key g1 = Grad \/ Interpreter.key g1 = Jvp ->
  (exists U1 C W1 T1 W2 T2,
     events_of (custom_function_call (S (S (S depth))) autograd_function operands w) =
       EvRule (Interpreter.key g2) (Interpreter.level g2) ::
       map (fun x => EvUnwrapForGrad x (Interpreter.level g2))
           (tensor_leaves w (args_tuple operands)) ++
       EvRule (Interpreter.key g1) (Interpreter.level g1) ::
       U1 ++ C ++ W1 ++ T1 ++ W2 ++ T2 /\
     Forall (is_unwrap_for_grad (Interpreter.level g1)) U1 /\
     Forall is_capability C /\
     Forall (is_wrap_for_grad (Interpreter.level g1)) W1 /\
     Forall is_capability T1 /\
     Forall (is_wrap_for_grad (Interpreter.level g2)) W2 /\
     Forall is_capability T2) /\
  (forall u2 u1 output wa,
     pytree.spec_of u2 = pytree.spec_of (args_tuple operands) ->
     pytree.leaves u2 =
       map (unwrapped_leaf_for_grad w (Interpreter.level g2))
           (pytree.leaves (args_tuple operands)) ->
     pytree.spec_of u1 = pytree.spec_of u2 ->
     pytree.leaves u1 =
       map (unwrapped_leaf_for_grad w (Interpreter.level g1)) (pytree.leaves u2) ->
     Function.apply autograd_function (star u1)
       (forward_scope (node_scope (forward_scope (node_scope w)))) = (inl output, wa) ->
     (forall ctx outs ops w0,
        Function.setup_context autograd_function ctx outs ops w0 = (inl tt, w0)) ->
     live wa output ->
     live wa u2 ->
     exists out1 w7,
       custom_function_call (S (S depth)) autograd_function (star u2)
         (forward_scope (node_scope w)) =
         Res (Ok out1) w7
             (EvRule (Interpreter.key g1) (Interpreter.level g1) ::
              map (fun x => EvUnwrapForGrad x (Interpreter.level g1))
                  (tensor_leaves w u2) ++
              [EvCapability CapApply (Function.__name__ autograd_function)] ++
              map (fun x => EvWrapForGrad x (Interpreter.level g1))
                  (wrapped_outputs
                     (dict_comprehension (zip (pytree.leaves u1) (pytree.leaves u2)))
                     (forward_unscope (node_scope (forward_scope (node_scope w))) wa)
                     (pytree.leaves output)) ++
              [EvCapability CapSetupContext (Function.__name__ autograd_function)]) /\
       events_of (custom_function_call (S (S (S depth))) autograd_function operands w) =
         EvRule (Interpreter.key g2) (Interpreter.level g2) ::
         map (fun x => EvUnwrapForGrad x (Interpreter.level g2))
             (tensor_leaves w (args_tuple operands)) ++
         (EvRule (Interpreter.key g1) (Interpreter.level g1) ::
          map (fun x => EvUnwrapForGrad x (Interpreter.level g1))
              (tensor_leaves w u2) ++
          [EvCapability CapApply (Function.__name__ autograd_function)] ++
          map (fun x => EvWrapForGrad x (Interpreter.level g1))
              (wrapped_outputs
                 (dict_comprehension (zip (pytree.leaves u1) (pytree.leaves u2)))
                 (forward_unscope (node_scope (forward_scope (node_scope w))) wa)
                 (pytree.leaves output)) ++
          [EvCapability CapSetupContext (Function.__name__ autograd_function)]) ++
         map (fun x => EvWrapForGrad x (Interpreter.level g2))
             (wrapped_outputs
                (dict_comprehension (zip (pytree.leaves u2)
                                         (pytree.leaves (args_tuple operands))))
                (forward_unscope (node_scope w) w7) (pytree.leaves out1)) ++
         [EvCapability CapSetupContext (Function.__name__ autograd_function)]).
Proof.
  intros Hstack Hg2 Hg1. split.
  { exact (nested_grad_grad_kinds depth autograd_function operands w g2 g1
             Hstack Hg2 Hg1). }
  intros u2 u1 output wa Hs2 Hl2 Hs1 Hl1 Happly Hsetup Hlo Hlu.
  set (wI := forward_scope (node_scope w)) in *.
  assert (interpreter_stack wI = [g1]) as HwI.
  { unfold wI, forward_scope, node_scope. simpl. by rewrite Hstack. }
  assert (heap wI = heap (node_scope w)) as Hheap by done.
  assert (args_tuple (star u2) = u2) as Hu2.
  { destruct u2 as [a|k ts]; [done|]. simpl in Hs2. by injection Hs2 as ->. }
  assert (custom_function_call (S depth) autograd_function (star u1)
            (forward_scope (node_scope wI)) =
          Res (Ok output) wa
              [EvCapability CapApply (Function.__name__ autograd_function)]) as Hcall.
  { change (custom_function_call (S depth) autograd_function (star u1)
              (forward_scope (node_scope wI)))
      with (if _are_functorch_transforms_active (forward_scope (node_scope wI))
            then PyOperator_call (custom_function_call depth)
                   autograd_function (star u1) (forward_scope (node_scope wI))
            else invoke CapApply autograd_function
                   (Function.apply autograd_function (star u1))
                   (forward_scope (node_scope wI))).
    assert (_are_functorch_transforms_active (forward_scope (node_scope wI)) = false)
      as ->.
    { unfold _are_functorch_transforms_active, wI, forward_scope, node_scope. simpl.
      by rewrite Hstack. }
    unfold invoke. rewrite bind_tell. unfold lift. rewrite Happly. reflexivity. }
  destruct (grad_rule_run_exact (custom_function_call (S depth)) g1 []
              autograd_function (star u2) wI u1 output wa
              [EvCapability CapApply (Function.__name__ autograd_function)] HwI)
    as (out1 & w7 & Hrule & Hlive); try done.
  - by rewrite Hu2.
  - rewrite Hu2, Hl1. apply map_ext. intros y.
    by rewrite (unwrapped_leaf_for_grad_scope w wI _ y Hheap).
  - by rewrite Hu2.
  - rewrite Hu2, (tensor_leaves_scope w wI u2 Hheap) in Hrule.
    assert (custom_function_call (S (S depth)) autograd_function (star u2) wI =
            Res (Ok out1) w7
              (EvRule (Interpreter.key g1) (Interpreter.level g1) ::
               map (fun x => EvUnwrapForGrad x (Interpreter.level g1))
                   (tensor_leaves w u2) ++
               [EvCapability CapApply (Function.__name__ autograd_function)] ++
               map (fun x => EvWrapForGrad x (Interpreter.level g1))
                   (wrapped_outputs
                      (dict_comprehension (zip (pytree.leaves u1) (pytree.leaves u2)))
                      (forward_unscope (node_scope wI) wa)
                      (pytree.leaves output)) ++
               [EvCapability CapSetupContext (Function.__name__ autograd_function)]))
      as Hinner.
    { rewrite (custom_function_call_grad_layer_run _ _ _ wI g1 [] HwI Hg1), Hrule.
      reflexivity. }
    exists out1, w7. split; [exact Hinner|].
    rewrite (custom_function_call_grad_layer _ _ _ w g2 [g1] Hstack Hg2).
    f_equal.
    exact (grad_rule_events_exact (custom_function_call (S (S depth))) g2 [g1]
             autograd_function operands w u2 out1 w7 _ Hstack Hs2 Hl2 Hinner Hlive).
Qed.

(* ===================================================================== *)
(** ** The further properties at work on the example state *)
(* ===================================================================== *)

Lemma wrap_batched_run_witness :
  _broadcast_to_and_flatten
    (pytree.Node KTuple [pytree.Leaf (Some 0%Z); pytree.Leaf None])
    (pytree.spec_of (Node KTuple [Leaf 1%positive; Leaf 4%positive])) =
    Some [Some 0%Z; None] /\
  exists output w',
    wrap_batched (Node KTuple [Leaf 1%positive; Leaf 4%positive])
      (pytree.Node KTuple [pytree.Leaf (Some 0%Z); pytree.Leaf None]) 1
      (Demo.world_with [Demo.vmap1]) =
      Res (Ok output) w' [EvAddBatchDim 1%positive 0 1] /\
    pytree.spec_of output =
      pytree.spec_of (Node KTuple [Leaf 1%positive; Leaf 4%positive]).
Proof.
  split; [reflexivity|].
  destruct (wrap_batched_run (Node KTuple [Leaf 1%positive; Leaf 4%positive])
              (pytree.Node KTuple [pytree.Leaf (Some 0%Z); pytree.Leaf None]) 1%Z
              (Demo.world_with [Demo.vmap1]) [Some 0%Z; None] eq_refl)
    as (_ & output & w' & Hrun & _ & Hspec & _).
  { constructor; [intros _; vm_compute; reflexivity|].
    constructor; [intros [d Hd]; discriminate Hd|constructor]. }
  exists output, w'. split; [exact Hrun|exact Hspec].
Defined.

Lemma unwrap_batched_wrap_batched_witness :
  exists in_dims e,
    unwrap_batched (Leaf 7%positive) 1 Demo.world_after_wrap =
      Res (Ok (Leaf 1%positive, in_dims)) Demo.world_after_wrap e /\
    pytree.leaves in_dims = [Some 0%Z].
Proof.
  assert (live (Demo.world_with [Demo.vmap1]) (Leaf 1%positive)) as Hlive.
  { unfold live. simpl. constructor; [eexists; vm_compute; reflexivity|constructor]. }
  apply (unwrap_batched_wrap_batched (Leaf 1%positive) (pytree.Leaf (Some 0%Z)) 1%Z
           (Demo.world_with [Demo.vmap1]) [Some 0%Z]
           (Leaf 7%positive) Demo.world_after_wrap [EvAddBatchDim 1%positive 0 1]
           Hlive eq_refl).
  - constructor; [vm_compute; reflexivity|constructor].
  - vm_compute. reflexivity.
Defined.

Lemma wrap_batched_assertion_witness :
  wrap_batched (Leaf 1%positive)
    (pytree.Node KTuple [pytree.Leaf (Some 0%Z); pytree.Leaf (Some 0%Z)]) 1
    (Demo.world_with [Demo.vmap1]) =
    Res (Raise AssertionError) (Demo.world_with [Demo.vmap1]) [].
Proof.
  exact (wrap_batched_assertion (Leaf 1%positive) KTuple
           [pytree.Leaf (Some 0%Z); pytree.Leaf (Some 0%Z)] 1%Z
           (Demo.world_with [Demo.vmap1]) I).
Defined.

Lemma vmap_rule_capability_raises_witness :
  custom_function_call_vmap (custom_function_call 1) Demo.vmap1 Demo.RaisingVmap
    [Leaf 2%positive] (Demo.world_with [Demo.vmap1]) =
    Res (Raise (UserException 4)) (Demo.world_with [Demo.vmap1])
        ([EvUnwrapBatched 2%positive 1] ++ [EvCapability CapVmap "RaisingVmap"]).
Proof.
  apply (vmap_rule_capability_raises (custom_function_call 1) Demo.vmap1 []
           Demo.RaisingVmap [Leaf 2%positive] (Demo.world_with [Demo.vmap1])
           Demo.raising_vmap (Node KTuple [Leaf 1%positive])
           (pytree.Node KTuple [pytree.Leaf (Some 0%Z)]) [EvUnwrapBatched 2%positive 1]
           (UserException 4) (Demo.world_with [])).
  - reflexivity.
  - reflexivity.
  - vm_compute. reflexivity.
  - vm_compute. reflexivity.
  - reflexivity.
Defined.

Lemma vmap_rule_out_dims_mismatch_witness :
  custom_function_call_vmap (custom_function_call 1) Demo.vmap1 Demo.PairDims
    [Leaf 2%positive] (Demo.world_with [Demo.vmap1]) =
    Res (Raise AssertionError) (Demo.world_with [Demo.vmap1])
        ([EvUnwrapBatched 2%positive 1] ++ [EvCapability CapVmap "PairDims"]).
Proof.
  apply (vmap_rule_out_dims_mismatch (custom_function_call 1) Demo.vmap1 []
           Demo.PairDims [Leaf 2%positive] (Demo.world_with [Demo.vmap1])
           Demo.pair_dims_vmap (Node KTuple [Leaf 1%positive])
           (pytree.Node KTuple [pytree.Leaf (Some 0%Z)]) [EvUnwrapBatched 2%positive 1]
           (Leaf 1%positive)
           (pytree.Node KTuple [pytree.Leaf (Some 0%Z); pytree.Leaf (Some 0%Z)])
           (Demo.world_with [])).
  - reflexivity.
  - reflexivity.
  - vm_compute. reflexivity.
  - vm_compute. reflexivity.
  - reflexivity.
  - reflexivity.
Defined.

Lemma preserve_object_identity_no_alias_witness :
  preserve_object_identity (Leaf 7%positive) (args_tuple [Leaf 2%positive])
    (Leaf 5%positive) (args_tuple [Leaf 1%positive]) Demo.world_after_wrap =
    Res (Ok (Leaf 7%positive)) Demo.world_after_wrap [].
Proof.
  apply (preserve_object_identity_no_alias (Leaf 7%positive)
           (args_tuple [Leaf 2%positive]) (Leaf 5%positive)
           (args_tuple [Leaf 1%positive]) Demo.world_after_wrap eq_refl).
  intros u Hu Hin. simpl in Hu, Hin.
  apply list_elem_of_singleton in Hu. apply list_elem_of_singleton in Hin.
  subst u. discriminate Hin.
Defined.

Lemma wrap_outputs_wraps_exactly_witness :
  live (Demo.world_with [])
       (Node KTuple [Leaf 1%positive; Leaf 5%positive; Leaf 4%positive]) /\
  exists result w',
    wrap_outputs_maintaining_identity
      (Node KTuple [Leaf 1%positive; Leaf 5%positive; Leaf 4%positive])
      (Node KTuple [Leaf 1%positive]) (Node KTuple [Leaf 6%positive]) 2
      (Demo.world_with []) =
      Res (Ok result) w' [EvWrapForGrad 5%positive 2] /\
    size (heap w') = 7%nat.
Proof.
  assert (live (Demo.world_with [])
            (Node KTuple [Leaf 1%positive; Leaf 5%positive; Leaf 4%positive])) as Hlive.
  { unfold live. simpl.
    repeat (constructor; [eexists; vm_compute; reflexivity|]). constructor. }
  split; [exact Hlive|].
  destruct (wrap_outputs_wraps_exactly
              (Node KTuple [Leaf 1%positive; Leaf 5%positive; Leaf 4%positive])
              (Node KTuple [Leaf 1%positive]) (Node KTuple [Leaf 6%positive]) 2
              (Demo.world_with []) Hlive)
    as (result & w' & Hrun & _ & Hsize).
  exists result, w'. split; [exact Hrun|]. rewrite Hsize. vm_compute. reflexivity.
Defined.

Lemma Generated_forward_returning_inputs_witness :
  SingleLevelFunction.forward
    (Generated (custom_function_call 1) Demo.grad2 Demo.Identity)
    [Leaf 3%positive; Leaf 4%positive] (Demo.world_with [Demo.grad2]) =
    Res (Ok (args_tuple [Leaf 3%positive; Leaf 4%positive]))
        (Demo.world_with [Demo.grad2])
        (map (fun x => EvUnwrapForGrad x 2)
             (tensor_leaves (Demo.world_with [Demo.grad2])
                (args_tuple [Leaf 3%positive; Leaf 4%positive])) ++
         [EvCapability CapApply "Identity"]).
Proof.
  apply (Generated_forward_returning_inputs 0 Demo.grad2 Demo.Identity
           [Leaf 3%positive; Leaf 4%positive] (Demo.world_with [Demo.grad2])
           eq_refl).
  - intros ops w0. reflexivity.
  - intros x Hx Ht. simpl in Hx.
    apply elem_of_cons in Hx as [->|Hx]; [vm_compute; reflexivity|].
    apply list_elem_of_singleton in Hx. subst x. vm_compute in Ht. discriminate Ht.
  - intros x y Hx Hy Hxt Hyt _. simpl in Hx, Hy.
    apply elem_of_cons in Hx as [->|Hx].
    + apply elem_of_cons in Hy as [->|Hy]; [reflexivity|].
      apply list_elem_of_singleton in Hy. subst y. vm_compute in Hyt. discriminate Hyt.
    + apply list_elem_of_singleton in Hx. subst x. vm_compute in Hxt. discriminate Hxt.
Defined.

Lemma custom_function_call_keeps_stack_witness :
  balanced Demo.MyFn /\
  outcome_of (custom_function_call 3 Demo.MyFn [Leaf 3%positive]
                (Demo.world_with [Demo.grad2; Demo.vmap1])) <> OutOfDepth /\
  interpreter_stack
    (world_of (custom_function_call 3 Demo.MyFn [Leaf 3%positive]
                 (Demo.world_with [Demo.grad2; Demo.vmap1]))) =
    [Demo.grad2; Demo.vmap1].
Proof.
  assert (balanced Demo.MyFn) as Hbalanced.
  { unfold balanced, keeps_stack. simpl.
    split; [reflexivity|]. split; [reflexivity|]. split; [reflexivity|].
    split; [reflexivity|]. intros vmap Hvmap. injection Hvmap as <-. reflexivity. }
  split; [exact Hbalanced|].
  apply (custom_function_call_keeps_stack 3 Demo.MyFn [Leaf 3%positive]
           (Demo.world_with [Demo.grad2; Demo.vmap1]) Hbalanced).
  simpl. lia.
Defined.

Lemma Generated_forward_restores_recording_witness :
  grad_enabled
    (world_of (SingleLevelFunction.forward
                 (Generated (custom_function_call 2) Demo.grad2 Demo.MyFn)
                 [Leaf 3%positive] (Demo.world_with [Demo.grad2; Demo.vmap1])))
    = false /\
  fwd_grad_enabled
    (world_of (SingleLevelFunction.forward
                 (Generated (custom_function_call 2) Demo.grad2 Demo.MyFn)
                 [Leaf 3%positive] (Demo.world_with [Demo.grad2; Demo.vmap1])))
    = false.
Proof.
  apply (Generated_forward_restores_recording (custom_function_call 2) Demo.grad2
           [Demo.vmap1] Demo.MyFn [Leaf 3%positive]
           (Demo.world_with [Demo.grad2; Demo.vmap1]) eq_refl).
  vm_compute. discriminate.
Defined.

Lemma wrap_outputs_unpaired_input_witness :
  exists result w' evs r,
    wrap_outputs_maintaining_identity (Leaf 1%positive)
      (Node KTuple [Leaf 5%positive; Leaf 1%positive]) (Node KTuple [Leaf 6%positive]) 2
      (Demo.world_with []) = Res (Ok result) w' evs /\
    pytree.leaves result !! 0%nat = Some r /\
    heap (Demo.world_with []) !! r = None /\
    heap w' !! r = Some (TensorWrapper 1%positive 2).
Proof.
  assert (live (Demo.world_with []) (Leaf 1%positive)) as Hlive.
  { unfold live. simpl. constructor; [eexists; vm_compute; reflexivity|constructor]. }
  apply (wrap_outputs_unpaired_input (Leaf 1%positive)
           (Node KTuple [Leaf 5%positive; Leaf 1%positive])
           (Node KTuple [Leaf 6%positive]) 2%Z (Demo.world_with [])
           0%nat 1%positive Hlive eq_refl eq_refl).
  intros j Hj. simpl in Hj. destruct j as [|j]; [discriminate|lia].
Defined.

Lemma vmap_layer_without_batched_operands_witness :
  custom_function_call 2 Demo.MyFn [Leaf 1%positive]
    (Demo.world_with [Demo.vmap1]) =
    Res (Ok (Leaf 1%positive)) (Demo.world_with [Demo.vmap1])
        [EvRule Vmap 1; EvUnwrapBatched 1%positive 1; EvCapability CapApply "MyFn"].
Proof.
  refine (eq_trans
            (vmap_layer_without_batched_operands 1 Demo.MyFn [Leaf 1%positive]
               (Demo.world_with [Demo.vmap1]) Demo.vmap1 []
               Demo.first_vmap eq_refl eq_refl eq_refl _) _).
  - constructor; [intros _; vm_compute; reflexivity|constructor].
  - vm_compute. reflexivity.
Defined.

Lemma nested_grad_vmap_order_witness :
  events_of (custom_function_call 3 Demo.NewOutput [Leaf 3%positive]
               (Demo.world_with [Demo.grad2; Demo.vmap1])) =
    [EvRule Grad 2; EvUnwrapForGrad 3%positive 2;
     EvRule Vmap 1; EvUnwrapBatched 2%positive 1;
     EvCapability CapVmap "NewOutput"; EvAddBatchDim 5%positive 0 1;
     EvWrapForGrad 8%positive 2; EvCapability CapSetupContext "NewOutput"] /\
  exists out w3,
    custom_function_call 2 Demo.NewOutput (star (Node KTuple [Leaf 2%positive]))
      (forward_scope (node_scope (Demo.world_with [Demo.grad2; Demo.vmap1]))) =
      Res (Ok out) w3
          (EvRule Vmap 1 ::
           map (fun x => EvUnwrapBatched x 1)
               (tensor_leaves (Demo.world_with [Demo.grad2; Demo.vmap1])
                              (Node KTuple [Leaf 2%positive])) ++
           [EvCapability CapVmap "NewOutput"] ++
           batched_events 1 (zip [Some 0%Z] (pytree.leaves (Leaf 5%positive)))) /\
    events_of (custom_function_call 3 Demo.NewOutput [Leaf 3%positive]
                 (Demo.world_with [Demo.grad2; Demo.vmap1])) =
      EvRule Grad 2 ::
      map (fun x => EvUnwrapForGrad x 2)
          (tensor_leaves (Demo.world_with [Demo.grad2; Demo.vmap1])
                         (args_tuple [Leaf 3%positive])) ++
      (EvRule Vmap 1 ::
       map (fun x => EvUnwrapBatched x 1)
           (tensor_leaves (Demo.world_with [Demo.grad2; Demo.vmap1])
                          (Node KTuple [Leaf 2%positive])) ++
       [EvCapability CapVmap "NewOutput"] ++
       batched_events 1 (zip [Some 0%Z] (pytree.leaves (Leaf 5%positive)))) ++
      map (fun x => EvWrapForGrad x 2)
          (wrapped_outputs
             (dict_comprehension
                (zip (pytree.leaves (Node KTuple [Leaf 2%positive]))
                     (pytree.leaves (args_tuple [Leaf 3%positive]))))
             (forward_unscope
                (node_scope (Demo.world_with [Demo.grad2; Demo.vmap1])) w3)
             (pytree.leaves out)) ++
      [EvCapability CapSetupContext "NewOutput"].
Proof.
  split; [vm_compute; reflexivity|].
  apply (proj2 (nested_grad_vmap_order 0 Demo.NewOutput [Leaf 3%positive]
                  (Demo.world_with [Demo.grad2; Demo.vmap1])
                  Demo.grad2 Demo.vmap1 eq_refl eq_refl eq_refl)
           Demo.new_output_vmap
           (Node KTuple [Leaf 2%positive]) (Node KTuple [Leaf 1%positive])
           (pytree.Node KTuple [pytree.Leaf (Some 0%Z)])
           (Leaf 5%positive) (pytree.Leaf (Some 0%Z))
           (set_interpreter_stack []
              (forward_scope
                 (node_scope (Demo.world_with [Demo.grad2; Demo.vmap1]))))
           [Some 0%Z]).
  - reflexivity.
  - reflexivity.
  - vm_compute. reflexivity.
  - reflexivity.
  - vm_compute. reflexivity.
  - reflexivity.
  - vm_compute. reflexivity.
  - vm_compute. reflexivity.
  - reflexivity.
  - reflexivity.
  - constructor; [intros _; vm_compute; reflexivity|constructor].
  - unfold live. simpl. constructor; [eexists; vm_compute; reflexivity|constructor].
  - unfold live. simpl. constructor; [eexists; vm_compute; reflexivity|constructor].
Defined.

Lemma nested_grad_grad_order_witness :
  events_of (custom_function_call 3 Demo.NewOutput [Leaf 6%positive; Leaf 4%positive]
               (Demo.world_with [Demo.grad2; Demo.jvp1])) =
    [EvRule Grad 2; EvUnwrapForGrad 6%positive 2;
     EvRule Jvp 1; EvUnwrapForGrad 1%positive 1;
     EvCapability CapApply "NewOutput"; EvWrapForGrad 5%positive 1;
     EvCapability CapSetupContext "NewOutput";
     EvWrapForGrad 9%positive 2; EvCapability CapSetupContext "NewOutput"] /\
  exists out1 w7,
    custom_function_call 2 Demo.NewOutput
      (star (Node KTuple [Leaf 1%positive; Leaf 4%positive]))
      (forward_scope (node_scope (Demo.world_with [Demo.grad2; Demo.jvp1]))) =
      Res (Ok out1) w7
          (EvRule Jvp 1 ::
           map (fun x => EvUnwrapForGrad x 1)
               (tensor_leaves (Demo.world_with [Demo.grad2; Demo.jvp1])
                              (Node KTuple [Leaf 1%positive; Leaf 4%positive])) ++
           [EvCapability CapApply "NewOutput"] ++
           map (fun x => EvWrapForGrad x 1)
               (wrapped_outputs
                  (dict_comprehension
                     (zip (pytree.leaves (Node KTuple [Leaf 1%positive; Leaf 4%positive]))
                          (pytree.leaves (Node KTuple [Leaf 1%positive; Leaf 4%positive]))))
                  (forward_unscope
                     (node_scope
                        (forward_scope
                           (node_scope
                              (Demo.world_with [Demo.grad2; Demo.jvp1]))))
                     (forward_scope
                        (node_scope
                           (forward_scope
                              (node_scope
                                 (Demo.world_with [Demo.grad2; Demo.jvp1]))))))
                  (pytree.leaves (Leaf 5%positive))) ++
           [EvCapability CapSetupContext "NewOutput"]).
Proof.
  split; [vm_compute; reflexivity|].
  destruct (proj2 (nested_grad_grad_order 0 Demo.NewOutput
                     [Leaf 6%positive; Leaf 4%positive]
                     (Demo.world_with [Demo.grad2; Demo.jvp1])
                     Demo.grad2 Demo.jvp1 eq_refl
                     (or_introl eq_refl) (or_intror eq_refl))
              (Node KTuple [Leaf 1%positive; Leaf 4%positive])
              (Node KTuple [Leaf 1%positive; Leaf 4%positive])
              (Leaf 5%positive)
              (forward_scope
                 (node_scope
                    (forward_scope
                       (node_scope (Demo.world_with [Demo.grad2; Demo.jvp1]))))))
    as (out1 & w7 & Hinner & _).
  - reflexivity.
  - vm_compute. reflexivity.
  - reflexivity.
  - vm_compute. reflexivity.
  - reflexivity.
  - intros ctx outs ops w0. reflexivity.
  - unfold live. simpl. constructor; [eexists; vm_compute; reflexivity|constructor].
  - unfold live. simpl.
    repeat (constructor; [eexists; vm_compute; reflexivity|]). constructor.
  - exists out1, w7. exact Hinner.
Defined.

(* ===================================================================== *)
(** ** The registration blocks of [gen_custom_ops] *)
(* ===================================================================== *)

Section GeneratorFacts.
Context {T : Type} `{EqDecision T}.

Lemma first_occurrences_elem_of x l :
  x ∈ custom_ops.first_occurrences l <-> x ∈ l.
Proof.
  induction l as [|a l IH]; simpl; [done|].
  rewrite !elem_of_cons, list_elem_of_filter, IH. split.
  - intros [->|[_ Hx]]; [by left|by right].
  - intros [->|Hx]; [by left|].
    destruct (decide (x = a)) as [->|Hne]; [by left|by right].
Qed.

Lemma first_occurrences_NoDup l : NoDup (custom_ops.first_occurrences l).
Proof.
  induction l as [|a l IH]; simpl; [constructor|].
  constructor; [|by apply NoDup_filter].
  rewrite list_elem_of_filter. intros [Hne _]. by apply Hne.
Qed.

Lemma first_occurrences_snoc l x :
  custom_ops.first_occurrences (l ++ [x]) =
    if decide (x ∈ l) then custom_ops.first_occurrences l
    else custom_ops.first_occurrences l ++ [x].
Proof.
  induction l as [|a l IH].
  - simpl. destruct (decide (x ∈ [])) as [Hin|_]; [by apply elem_of_nil in Hin|done].
  - change (custom_ops.first_occurrences ((a :: l) ++ [x]))
      with (a :: filter (fun y => y <> a) (custom_ops.first_occurrences (l ++ [x]))).
    rewrite IH.
    change (custom_ops.first_occurrences (a :: l))
      with (a :: filter (fun y => y <> a) (custom_ops.first_occurrences l)).
    destruct (decide (x ∈ l)) as [Hin|Hnin];
      destruct (decide (x ∈ a :: l)) as [Hin'|Hnin'].
    + done.
    + exfalso. apply Hnin'. by right.
    + apply elem_of_cons in Hin' as [->|Hin']; [|done].
      rewrite filter_app, filter_cons_False by (intros H'; by apply H').
      by rewrite filter_nil, app_nil_r.
    + rewrite filter_app, filter_cons_True; [by rewrite filter_nil|].
      intros ->. apply Hnin'. by left.
Qed.

(** Appending to the group of a key that is there. *)
Lemma group_append_present ns (f : custom_ops.NativeFunction.t T)
    (h : string -> list (custom_ops.NativeFunction.t T)) keys :
  NoDup keys -> ns ∈ keys ->
  custom_ops.group_append ns f (map (fun k => (k, h k)) keys) =
    map (fun k => (k, if decide (k = ns) then h k ++ [f] else h k)) keys.
Proof.
  induction keys as [|k keys IH]; intros Hnd Hin; [by apply elem_of_nil in Hin|].
  apply NoDup_cons in Hnd as [Hk Hnd]. simpl.
  destruct (decide (k = ns)) as [->|Hne].
  - f_equal. apply list_eq. intros i. rewrite !list_lookup_fmap.
    destruct (keys !! i) as [k'|] eqn:Hi; [|done]. simpl.
    rewrite decide_False; [done|]. intros ->. apply Hk.
    by eapply list_elem_of_lookup_2.
  - f_equal. apply IH; [done|]. apply elem_of_cons in Hin as [->|Hin]; done.
Qed.

(** Appending under a key that is not there yet. *)
Lemma group_append_absent ns (f : custom_ops.NativeFunction.t T)
    (h : string -> list (custom_ops.NativeFunction.t T)) keys :
  ns ∉ keys ->
  custom_ops.group_append ns f (map (fun k => (k, h k)) keys) =
    map (fun k => (k, h k)) keys ++ [(ns, [f])].
Proof.
  induction keys as [|k keys IH]; intros Hnin; [done|]. simpl.
  rewrite not_elem_of_cons in Hnin. destruct Hnin as [Hne Hnin].
  rewrite decide_False by done. f_equal. by apply IH.
Qed.

Lemma in_namespace_snoc ns (fs : list (custom_ops.NativeFunction.t T)) f :
  custom_ops.in_namespace ns (fs ++ [f]) =
    custom_ops.in_namespace ns fs ++
    (if decide (custom_ops.NativeFunction.namespace f = ns) then [f] else []).
Proof.
  unfold custom_ops.in_namespace. by rewrite filter_app.
Qed.

Lemma in_namespace_nil ns (fs : list (custom_ops.NativeFunction.t T)) :
  ns ∉ map custom_ops.NativeFunction.namespace fs ->
  custom_ops.in_namespace ns fs = [].
Proof.
  intros Hnin. unfold custom_ops.in_namespace.
  induction fs as [|f fs IH]; [done|]. simpl in Hnin.
  rewrite not_elem_of_cons in Hnin. destruct Hnin as [Hne Hnin].
  rewrite filter_cons_False by done. by apply IH.
Qed.

Lemma in_namespace_not_nil ns (fs : list (custom_ops.NativeFunction.t T)) :
  ns ∈ map custom_ops.NativeFunction.namespace fs ->
  custom_ops.in_namespace ns fs <> [].
Proof.
  intros Hin Hnil. apply list_elem_of_fmap in Hin as (f & -> & Hf).
  assert (f ∈ custom_ops.in_namespace (custom_ops.NativeFunction.namespace f) fs) as H'.
  { unfold custom_ops.in_namespace. by apply list_elem_of_filter. }
  rewrite Hnil in H'. by apply elem_of_nil in H'.
Qed.

(** The groups in closed form. *)
Lemma ns_grouped_closed_form (fs : list (custom_ops.NativeFunction.t T)) :
  custom_ops.ns_grouped_native_functions fs =
    map (fun ns => (ns, custom_ops.in_namespace ns fs))
        (custom_ops.first_occurrences (map custom_ops.NativeFunction.namespace fs)).
Proof.
  induction fs as [|f fs IH] using rev_ind; [done|].
  unfold custom_ops.ns_grouped_native_functions in *.
  rewrite foldl_app. simpl. rewrite IH. clear IH.
  rewrite map_app. simpl. rewrite first_occurrences_snoc.
  set (ns := custom_ops.NativeFunction.namespace f).
  set (nss := map custom_ops.NativeFunction.namespace fs).
  destruct (decide (ns ∈ nss)) as [Hin|Hnin].
  - rewrite (group_append_present ns f (fun k => custom_ops.in_namespace k fs));
      [|apply first_occurrences_NoDup|by apply first_occurrences_elem_of].
    apply map_ext. intros k. rewrite in_namespace_snoc. fold ns.
    destruct (decide (k = ns)) as [->|Hne].
    + by rewrite decide_True.
    + rewrite decide_False by done. by rewrite app_nil_r.
  - rewrite (group_append_absent ns f (fun k => custom_ops.in_namespace k fs));
      [|by rewrite first_occurrences_elem_of].
    rewrite map_app. simpl. f_equal.
    + apply list_eq. intros i. rewrite !list_lookup_fmap.
      destruct (custom_ops.first_occurrences nss !! i) as [k|] eqn:Hi; [|done].
      simpl. rewrite in_namespace_snoc. fold ns.
      rewrite decide_False; [by rewrite app_nil_r|].
      intros Heq. apply Hnin. rewrite Heq.
      apply first_occurrences_elem_of. by eapply list_elem_of_lookup_2.
    + rewrite in_namespace_snoc. fold ns. rewrite decide_True by done.
      by rewrite (in_namespace_nil ns fs Hnin).
Qed.

Lemma ns_grouped_not_nil (fs : list (custom_ops.NativeFunction.t T)) :
  Forall (fun g : string * list (custom_ops.NativeFunction.t T) => g.2 <> [])
         (custom_ops.ns_grouped_native_functions fs).
Proof.
  rewrite ns_grouped_closed_form.
  apply Forall_fmap, Forall_forall. intros ns Hns. simpl.
  apply in_namespace_not_nil. by apply first_occurrences_elem_of.
Qed.

(** X16.  [gen_custom_ops] groups the native functions by namespace: there is
    one group for each namespace that occurs, the groups come in the order
    in which their namespaces first occur, and each group holds the
    functions of its namespace in the order of the input.  No group is
    empty, so the test that skips empty groups never fires. *)
Theorem ns_grouped_native_functions_spec (fs : list (custom_ops.NativeFunction.t T)) :
  custom_ops.ns_grouped_native_functions fs =
    map (fun ns => (ns, custom_ops.in_namespace ns fs))
        (custom_ops.first_occurrences (map custom_ops.NativeFunction.namespace fs)) /\
  NoDup (map fst (custom_ops.ns_grouped_native_functions fs)) /\
  Forall (fun g : string * list (custom_ops.NativeFunction.t T) => g.2 <> [])
         (custom_ops.ns_grouped_native_functions fs).
Proof.
  split; [apply ns_grouped_closed_form|]. split; [|apply ns_grouped_not_nil].
  rewrite ns_grouped_closed_form, map_map. simpl. rewrite map_id.
  apply first_occurrences_NoDup.
Qed.

Lemma append_assoc (a b c : string) : (a +:+ b) +:+ c = a +:+ (b +:+ c).
Proof.
  induction a as [|ch a IH]; [done|].
  change (String ch ((a +:+ b) +:+ c) = String ch (a +:+ (b +:+ c))).
  by rewrite IH.
Qed.

Lemma append_empty_r (a : string) : a +:+ "" = a.
Proof.
  induction a as [|ch a IH]; [done|].
  change (String ch (a +:+ "") = String ch a). by rewrite IH.
Qed.

Lemma concat_empty_cons (x : string) xs :
  String.concat "" (x :: xs) = x +:+ String.concat "" xs.
Proof. destruct xs; simpl; [by rewrite append_empty_r|done]. Qed.

Lemma foldl_blocks (blk : string * list (custom_ops.NativeFunction.t T) -> string) gs :
  Forall (fun g : string * list (custom_ops.NativeFunction.t T) => g.2 <> []) gs ->
  forall acc,
    foldl (fun acc g => if (length g.2 =? 0)%nat then acc else acc +:+ blk g) acc gs =
      acc +:+ String.concat "" (map blk gs).
Proof.
  induction 1 as [|g gs Hg _ IH]; intros acc.
  - simpl. by rewrite append_empty_r.
  - cbn [foldl map]. destruct (g.2) as [|f fs']; [by destruct Hg|].
    cbn [length Nat.eqb]. by rewrite IH, concat_empty_cons, append_assoc.
Qed.

(** X17.  The text [static_init_dispatch_registrations] holds exactly one
    [TORCH_LIBRARY_IMPL] block for each namespace that occurs among the
    native functions, in the order in which the namespaces first occur, and
    the block of a namespace registers the functions of that namespace in
    the order of the input. *)
Theorem static_init_dispatch_registrations_spec (p : custom_ops.Printers T)
    (fs : list (custom_ops.NativeFunction.t T)) :
  custom_ops.static_init_dispatch_registrations p fs =
    String.concat ""
      (map (fun ns => custom_ops.registration_block p ns (custom_ops.in_namespace ns fs))
           (custom_ops.first_occurrences (map custom_ops.NativeFunction.namespace fs))).
Proof.
  unfold custom_ops.static_init_dispatch_registrations.
  rewrite (foldl_blocks (fun g => custom_ops.registration_block p g.1 g.2)).
  2:{ apply ns_grouped_not_nil. }
  rewrite ns_grouped_closed_form, map_map. done.
Qed.

End GeneratorFacts.

(* ===================================================================== *)
(** ** The kernel stub of one native function *)
(* ===================================================================== *)

Section StubFacts.
Context {T : Type} `{EqDecision T}.

(** X18.  For a function with the function variant, one return and no [out]
    argument, a stub is produced only when some argument has the type of
    the return.  The stub then returns the first such argument, by its name,
    which is not empty. *)
Theorem stub_returns_argument_of_return_type
    (p : custom_ops.Printers T) (f : custom_ops.NativeFunction.t T) r text :
  custom_ops.Variant.function ∈ custom_ops.NativeFunction.variants f ->
  custom_ops.FunctionSchema.returns (custom_ops.NativeFunction.func f) = [r] ->
  custom_ops.Arguments.out
    (custom_ops.FunctionSchema.arguments (custom_ops.NativeFunction.func f)) = [] ->
  custom_ops.ComputeNativeFunctionStub_call p f = inr (Some text) ->
  exists i a,
    custom_ops.Arguments.flat_non_out
      (custom_ops.FunctionSchema.arguments (custom_ops.NativeFunction.func f)) !! i
      = Some a /\
    custom_ops.Argument.type a = custom_ops.Return.type r /\
    (forall j b,
       custom_ops.Arguments.flat_non_out
         (custom_ops.FunctionSchema.arguments (custom_ops.NativeFunction.func f)) !! j
         = Some b ->
       (j < i)%nat ->
       custom_ops.Argument.type b <> custom_ops.Return.type r) /\
    custom_ops.Argument.name a <> "" /\
    text =
      custom_ops.stub_text
        (custom_ops.defn p (custom_ops.NativeFunction.func f)
           ("wrapper_" +:+
            custom_ops.FunctionSchema.overload_name (custom_ops.NativeFunction.func f)
            +:+ "_"))
        ("return " +:+ custom_ops.Argument.name a +:+ ";").
Proof.
  intros Hvar Hret Hout. unfold custom_ops.ComputeNativeFunctionStub_call.
  rewrite bool_decide_eq_true_2 by done. cbn [negb]. cbv zeta. rewrite Hret.
  unfold custom_ops.single_ret_name. rewrite Hout.
  destruct (list_find _ _) as [[i a]|] eqn:Hfind; [|done].
  apply list_find_Some in Hfind as (Hi & Hty & Hfirst).
  destruct (bool_decide (custom_ops.Argument.name a = "")) eqn:Hname; [done|].
  apply bool_decide_eq_false in Hname.
  intros [= <-]. exists i, a. split; [exact Hi|]. split; [exact Hty|].
  split; [|by split]. intros j b Hj Hlt. by apply (Hfirst j b).
Qed.

(** X19.  The stub generator fails in two cases only, both for functions that
    have the function variant.  It raises [Exception] exactly when there is
    one return and no name to return: no [out] argument and no other
    argument of the type of the return, or an empty name.  It raises
    [AssertionError] exactly when there are two returns or more and the
    number of [out] arguments is not the number of returns. *)
Theorem stub_failures (p : custom_ops.Printers T) (f : custom_ops.NativeFunction.t T) :
  ((exists msg, custom_ops.ComputeNativeFunctionStub_call p f
                = inl (custom_ops.Exception msg)) <->
   custom_ops.Variant.function ∈ custom_ops.NativeFunction.variants f /\
   exists r,
     custom_ops.FunctionSchema.returns (custom_ops.NativeFunction.func f) = [r] /\
     (custom_ops.single_ret_name (custom_ops.NativeFunction.func f) r = None \/
      custom_ops.single_ret_name (custom_ops.NativeFunction.func f) r = Some "")) /\
  ((exists msg, custom_ops.ComputeNativeFunctionStub_call p f
                = inl (custom_ops.AssertionError msg)) <->
   custom_ops.Variant.function ∈ custom_ops.NativeFunction.variants f /\
   (2 <= length (custom_ops.FunctionSchema.returns (custom_ops.NativeFunction.func f)))%nat /\
   length (custom_ops.Arguments.out
             (custom_ops.FunctionSchema.arguments (custom_ops.NativeFunction.func f)))
   <> length (custom_ops.FunctionSchema.returns (custom_ops.NativeFunction.func f))).
Proof.
  unfold custom_ops.ComputeNativeFunctionStub_call.
  destruct (decide (custom_ops.Variant.function ∈ custom_ops.NativeFunction.variants f))
    as [Hvar|Hvar].
  2:{ rewrite bool_decide_eq_false_2 by done. cbn [negb].
      split; (split; [by intros [msg ?]|by intros [? _]]). }
  rewrite bool_decide_eq_true_2 by done. cbn [negb]. cbv zeta.
  destruct (custom_ops.FunctionSchema.returns (custom_ops.NativeFunction.func f))
    as [|r [|r' rs]] eqn:Hret.
  - split; (split; [by intros [msg ?]|]).
    + by intros (_ & r & ? & _).
    + simpl. intros (_ & ? & _). lia.
  - split.
    + split.
      * intros [msg Hmsg]. split; [done|]. exists r. split; [done|].
        destruct (custom_ops.single_ret_name _ r) as [n|]; [|by left].
        destruct (bool_decide (n = "")) eqn:Hn; [|done].
        apply bool_decide_eq_true in Hn. subst n. by right.
      * intros (_ & r0 & [= <-] & [-> | ->]); by eexists.
    + split.
      * intros [msg Hmsg].
        destruct (custom_ops.single_ret_name _ r) as [n|]; [|done].
        by destruct (bool_decide (n = "")).
      * simpl. intros (_ & ? & _). lia.
  - split.
    + split.
      * intros [msg Hmsg].
        by destruct (negb (length _ =? length (r :: r' :: rs))%nat).
      * by intros (_ & r0 & ? & _).
    + split.
      * intros [msg Hmsg]. split; [done|]. split; [simpl; lia|].
        destruct (length _ =? length (r :: r' :: rs))%nat eqn:Hlen; [done|].
        by apply Nat.eqb_neq in Hlen.
      * intros (_ & _ & Hlen). apply Nat.eqb_neq in Hlen. rewrite Hlen.
        by eexists.
Qed.

End StubFacts.

Lemma stub_returns_argument_of_return_type_witness :
  exists i a,
    [custom_ops.Argument.Build "self" 1%nat; custom_ops.Argument.Build "other" 2%nat] !! i
      = Some a /\
    custom_ops.Argument.type a = 2%nat /\
    custom_ops.Argument.name a <> "".
Proof.
  destruct (stub_returns_argument_of_return_type
              {| custom_ops.defn := fun _ prefix => prefix +:+ "f()";
                 custom_ops.str_func := fun _ => "f";
                 custom_ops.str_out := fun _ => "";
                 custom_ops.str_returns := fun _ => "";
                 custom_ops.registration := fun _ => [];
                 custom_ops.dispatch_key := "CPU" |}
              (custom_ops.NativeFunction.Build "custom"
                 (custom_ops.FunctionSchema.Build "out"
                    (custom_ops.Arguments.Build []
                       [custom_ops.Argument.Build "self" 1%nat;
                        custom_ops.Argument.Build "other" 2%nat])
                    [custom_ops.Return.Build 2%nat])
                 [custom_ops.Variant.function])
              (custom_ops.Return.Build 2%nat) _
              ltac:(vm_compute; by left) eq_refl eq_refl eq_refl)
    as (i & a & Hi & Hty & _ & Hname & _).
  exists i, a. split; [exact Hi|]. split; [exact Hty|exact Hname].
Defined.
